(** * The system-prompt chip composer of FastAgent

    A shallow embedding of [src/fast_agent/llm/schema/system_prompt.py]:
    the three pydantic models ([SystemPromptChipMetadataSchema],
    [SystemPromptChipSchema], [SystemPromptChipsSchema]) and the class
    [SystemPrompt] with its rendering and mutation methods.

    Python objects are references.  The source stores the chip instances it
    is handed, copies them shallowly when it renames them, and flips
    [chip.metadata.ignore] in place, so the embedding keeps an explicit
    object store: chips and metadata records live in a [Heap], and a chip
    mapping holds locations, not values.  Methods are computations in a
    small state-and-exception monad over that store.

    Three facts about pydantic (version 2, which [model_copy] and
    [ConfigDict] belong to) are built in: a model instance given for a field
    of that model type is kept as it is, not copied; [model_copy] without
    [deep=True] copies the fields of an instance and shares the objects
    they refer to; a model instance is truthy.

    The collection a composer owns is kept by value inside the composer.
    [get_chips] hands a deep copy to callers: [model_copy(deep=True)] is
    [copy.deepcopy], which copies every object reached from the collection
    once and keeps a memo of the copies, so objects shared in the original
    are shared in the copy.  Strings are immutable and copy as
    themselves. *)

From Stdlib Require Import ZArith Ascii String List Lia.
From stdpp Require Import gmap strings list fin_maps.

Open Scope Z_scope.
Open Scope nat_scope.

(** ** Exceptions

    Every failure of the source is a [ValueError] (pydantic's
    [ValidationError] is a subclass of it); the constructors below name the
    raise sites after the kind of failure they report. *)

Inductive Error : Type :=
| SchemaError         (* "Unsupported chips schema", "Unsupported chip type",
                         "Unsupported content type", pydantic validation *)
| DuplicateKeyError   (* "Chip '{key}' already exists." *)
| KeyNotFoundError    (* "Chip '{key}' does not exist." / "is not in order list." *)
| IndexRangeError     (* "Invalid index '{index}'." *)
| InvalidModeError    (* "Unsupported type for SystemPrompt." *)
| ListRemoveError     (* list.remove(x): x not in list *)
| DanglingReference.  (* a location outside the store; no Python run gets here *)

Inductive Outcome (A : Type) : Type :=
| Return (a : A)
| Raise (e : Error).
Arguments Return {A} a.
Arguments Raise {A} e.

(** ** The monad: a computation runs on a state and leaves a state, also
    when it raises (the state at the raise). *)

Definition M (S A : Type) : Type := S → Outcome A * S.

Definition ret {S A} (a : A) : M S A := λ s, (Return a, s).

Definition raise {S A} (e : Error) : M S A := λ s, (Raise e, s).

Definition bind {S A B} (c : M S A) (k : A → M S B) : M S B :=
  λ s, match c s with
       | (Return a, s') => k a s'
       | (Raise e, s') => (Raise e, s')
       end.

Definition gets {S A} (f : S → A) : M S A := λ s, (Return (f s), s).

Definition modify {S} (f : S → S) : M S unit := λ s, (Return tt, f s).

Declare Scope prog_scope.
Delimit Scope prog_scope with prog.
Notation "x <~ c ;; k" := (bind c (λ x, k))
  (at level 100, c at next level, right associativity) : prog_scope.
Notation "c ;;; k" := (bind c (λ _, k))
  (at level 100, k at level 200, right associativity) : prog_scope.
Open Scope prog_scope.

(** ** Built-ins of Python the source calls *)

Definition NL : string := String "010"%char EmptyString.

(** [sep.join(parts)] *)
Definition str_join (sep : string) (parts : list string) : string :=
  String.concat sep parts.

(** [l.insert(index, x)], for every integer [index]: a negative index counts
    from the end, and the position is clamped to [0, len(l)]. *)
Definition list_insert_at {A} (index : Z) (x : A) (l : list A) : list A :=
  let n := Z.of_nat (length l) in
  let pos := if (index <? 0)%Z then Z.max 0 (index + n) else Z.min index n in
  take (Z.to_nat pos) l ++ x :: drop (Z.to_nat pos) l.

(** [l.remove(x)]: drops the first occurrence; [None] stands for the
    [ValueError] of a missing element. *)
Fixpoint list_remove_first (x : string) (l : list string) : option (list string) :=
  match l with
  | [] => None
  | y :: l' =>
      if String.eqb y x then Some l'
      else match list_remove_first x l' with
           | Some r => Some (y :: r)
           | None => None
           end
  end.

(** [x in l] *)
Definition list_contains (x : string) (l : list string) : bool :=
  existsb (String.eqb x) l.

(** ** Data model *)

Abbreviation loc := nat.

Definition DEFAULT_SYSTEM_PROMPT_CHIP_KEY : string := "default".

Module SystemPromptChipMetadataSchema.
(** [extra="allow"]: fields other than [ignore] are kept as they come. *)
Record t : Type := mk {
  ignore : bool;
  extra : list (string * string)
}.

Definition default : t := {| ignore := false; extra := [] |}.

(** [metadata.ignore = b], an assignment to one field. *)
Definition set_ignore (b : bool) (m : t) : t :=
  {| ignore := b; extra := extra m |}.
End SystemPromptChipMetadataSchema.

Module SystemPromptChipSchema.
(** [metadata] is a reference to a metadata object. *)
Record t : Type := mk {
  name : string;
  content : string;
  metadata : loc
}.
End SystemPromptChipSchema.

(** The object store: location [l] is the [l]-th object allocated. *)
Record Heap : Type := mkHeap {
  chip_objs : list SystemPromptChipSchema.t;
  meta_objs : list SystemPromptChipMetadataSchema.t
}.

Definition empty_heap : Heap := {| chip_objs := []; meta_objs := [] |}.

Definition new_metadata (m : SystemPromptChipMetadataSchema.t) : M Heap loc :=
  λ h, (Return (length (meta_objs h)),
        {| chip_objs := chip_objs h; meta_objs := meta_objs h ++ [m] |}).

Definition new_chip (c : SystemPromptChipSchema.t) : M Heap loc :=
  λ h, (Return (length (chip_objs h)),
        {| chip_objs := chip_objs h ++ [c]; meta_objs := meta_objs h |}).

Definition read_chip (l : loc) : M Heap SystemPromptChipSchema.t :=
  λ h, match chip_objs h !! l with
       | Some c => (Return c, h)
       | None => (Raise DanglingReference, h)
       end.

Definition read_metadata (l : loc) : M Heap SystemPromptChipMetadataSchema.t :=
  λ h, match meta_objs h !! l with
       | Some m => (Return m, h)
       | None => (Raise DanglingReference, h)
       end.

(** [obj.ignore = b] on the metadata object at [l]. *)
Definition write_ignore (l : loc) (b : bool) : M Heap unit :=
  λ h, match meta_objs h !! l with
       | Some m =>
           (Return tt,
            {| chip_objs := chip_objs h;
               meta_objs := <[l := SystemPromptChipMetadataSchema.set_ignore b m]> (meta_objs h) |})
       | None => (Raise DanglingReference, h)
       end.

(** ** Values handed to the API *)

(** The [metadata] entry of a chip dict: a dict of fields (a new object is
    built from it) or an existing metadata instance (kept as it is). *)
Inductive MetadataArg : Type :=
| MetadataDict (ignore : option bool) (extra : list (string * string))
| MetadataInstance (l : loc).

(** A dict describing a chip.  [p_unknown] lists its keys other than
    [name], [content] and [metadata]. *)
Record ChipPayload : Type := mkPayload {
  p_name : option string;
  p_content : option string;
  p_metadata : option MetadataArg;
  p_unknown : list string
}.

(** [Union[str, SystemPromptChipSchema, dict]] and everything else. *)
Inductive ChipValue : Type :=
| VStr (s : string)
| VChip (l : loc)
| VDict (p : ChipPayload)
| VOther.

(** [SystemPromptChipSchema(name=..., content=...)]: the metadata comes from
    the default factory. *)
Definition SystemPromptChipSchema_new (name content : string) : M Heap loc :=
  m <~ new_metadata SystemPromptChipMetadataSchema.default ;;
  new_chip {| SystemPromptChipSchema.name := name;
              SystemPromptChipSchema.content := content;
              SystemPromptChipSchema.metadata := m |}.

(** [SystemPromptChipSchema.default(content)] *)
Definition SystemPromptChipSchema_default (content : string) : M Heap loc :=
  SystemPromptChipSchema_new DEFAULT_SYSTEM_PROMPT_CHIP_KEY content.

(** [SystemPromptChipSchema] built from the unpacked dict [payload], with
    [extra="forbid"]: [name] and [content] are required, no other key is
    accepted. *)
Definition SystemPromptChipSchema_of_payload (p : ChipPayload) : M Heap loc :=
  match p_unknown p, p_name p, p_content p with
  | [], Some name, Some content =>
      m <~ match p_metadata p with
           | None => new_metadata SystemPromptChipMetadataSchema.default
           | Some (MetadataDict ig ex) =>
               new_metadata {| SystemPromptChipMetadataSchema.ignore := default false ig;
                               SystemPromptChipMetadataSchema.extra := ex |}
           | Some (MetadataInstance l) => read_metadata l ;;; ret l
           end ;;
      new_chip {| SystemPromptChipSchema.name := name;
                  SystemPromptChipSchema.content := content;
                  SystemPromptChipSchema.metadata := m |}
  | _, _, _ => raise SchemaError
  end.

(** [chip.model_copy(update={"name": key})]: a shallow copy, the metadata
    object is shared with the original. *)
Definition model_copy_with_name (c : SystemPromptChipSchema.t) (key : string) : M Heap loc :=
  new_chip {| SystemPromptChipSchema.name := key;
              SystemPromptChipSchema.content := SystemPromptChipSchema.content c;
              SystemPromptChipSchema.metadata := SystemPromptChipSchema.metadata c |}.

(** [payload = dict(value); payload.setdefault("name", key)] *)
Definition setdefault_name (key : string) (p : ChipPayload) : ChipPayload :=
  {| p_name := Some (default key (p_name p));
     p_content := p_content p;
     p_metadata := p_metadata p;
     p_unknown := p_unknown p |}.

(** The memo of [copy.deepcopy]: the objects copied so far, each with its
    copy. *)
Record Memo : Type := mkMemo {
  chip_memo : gmap loc loc;
  meta_memo : gmap loc loc
}.

Definition empty_memo : Memo := {| chip_memo := ∅; meta_memo := ∅ |}.

(** [deepcopy(metadata, memo)]: the copy made earlier if there is one, a
    new object with the same fields otherwise. *)
Definition deepcopy_metadata (memo : Memo) (l : loc) : M Heap (loc * Memo) :=
  match meta_memo memo !! l with
  | Some l' => ret (l', memo)
  | None =>
      m <~ read_metadata l ;;
      l' <~ new_metadata m ;;
      ret (l', {| chip_memo := chip_memo memo;
                  meta_memo := <[l := l']> (meta_memo memo) |})
  end.

(** [deepcopy(chip, memo)]: the fields are copied first, the metadata
    object among them, then the new chip is recorded in the memo. *)
Definition deepcopy_chip (memo : Memo) (l : loc) : M Heap (loc * Memo) :=
  match chip_memo memo !! l with
  | Some l' => ret (l', memo)
  | None =>
      c <~ read_chip l ;;
      copied <~ deepcopy_metadata memo (SystemPromptChipSchema.metadata c) ;;
      l' <~ new_chip {| SystemPromptChipSchema.name := SystemPromptChipSchema.name c;
                        SystemPromptChipSchema.content := SystemPromptChipSchema.content c;
                        SystemPromptChipSchema.metadata := copied.1 |} ;;
      ret (l', {| chip_memo := <[l := l']> (chip_memo copied.2);
                  meta_memo := meta_memo copied.2 |})
  end.

(** The argument of [from_dict]; [d_chips] is [None] when [data.get("chips")]
    is not a dict. *)
Record ChipsDict : Type := mkChipsDict {
  d_order : option (list string);
  d_splitter : option string;
  d_chips : option (list (string * ChipValue))
}.

Module SystemPromptChipsSchema.
Record t : Type := mk {
  order : list string;
  splitter : string;
  chips : gmap string loc
}.

Definition default (content : string) : M Heap t :=
  c <~ SystemPromptChipSchema_default content ;;
  ret {| order := [DEFAULT_SYSTEM_PROMPT_CHIP_KEY];
         splitter := NL +:+ NL;
         chips := <[DEFAULT_SYSTEM_PROMPT_CHIP_KEY := c]> ∅ |}.

Definition _normalize_chip (key : string) (value : ChipValue) : M Heap loc :=
  chip <~ match value with
          | VChip l => read_chip l ;;; ret l
          | VDict p => SystemPromptChipSchema_of_payload (setdefault_name key p)
          | _ => raise SchemaError
          end ;;
  c <~ read_chip chip ;;
  if negb (String.eqb (SystemPromptChipSchema.name c) key)
  then model_copy_with_name c key
  else ret chip.

(** [for key, value in chips_payload.items(): chips[key] = ...] *)
Fixpoint from_dict_items (items : list (string * ChipValue)) (chips : gmap string loc)
  : M Heap (gmap string loc) :=
  match items with
  | [] => ret chips
  | (key, value) :: rest =>
      c <~ _normalize_chip key value ;;
      from_dict_items rest (<[key := c]> chips)
  end.

Definition from_dict (data : ChipsDict) : M Heap t :=
  let order := from_option id [] (d_order data) in
  let splitter := from_option id (NL +:+ NL) (d_splitter data) in
  match d_chips data with
  | None => raise SchemaError
  | Some chips_payload =>
      chips <~ from_dict_items chips_payload ∅ ;;
      ret {| order := order; splitter := splitter; chips := chips |}
  end.

(** The body of the loop of [to_str]; [parts] is the list built so far. *)
Fixpoint to_str_parts (self : t) (keys : list string) (parts : list string)
  : M Heap (list string) :=
  match keys with
  | [] => ret parts
  | key :: rest =>
      match chips self !! key with
      | None => to_str_parts self rest parts
      | Some l =>
          chip <~ read_chip l ;;
          m <~ read_metadata (SystemPromptChipSchema.metadata chip) ;;
          if negb (SystemPromptChipMetadataSchema.ignore m)
          then to_str_parts self rest (parts ++ [SystemPromptChipSchema.content chip])
          else to_str_parts self rest parts
      end
  end.

Definition to_str (self : t) : M Heap string :=
  parts <~ to_str_parts self (order self) [] ;;
  ret (str_join (splitter self) parts).

(** [f"<{key}>\n{content}\n</{key}>"] *)
Definition xml_block (key content : string) : string :=
  "<" +:+ key +:+ ">" +:+ NL +:+ content +:+ NL +:+ "</" +:+ key +:+ ">".

Fixpoint to_xml_parts (self : t) (keys : list string) (parts : list string)
  : M Heap (list string) :=
  match keys with
  | [] => ret parts
  | key :: rest =>
      match chips self !! key with
      | None => to_xml_parts self rest parts
      | Some l =>
          chip <~ read_chip l ;;
          m <~ read_metadata (SystemPromptChipSchema.metadata chip) ;;
          if negb (SystemPromptChipMetadataSchema.ignore m)
          then to_xml_parts self rest
                 (parts ++ [xml_block key (SystemPromptChipSchema.content chip)])
          else to_xml_parts self rest parts
      end
  end.

Definition to_xml (self : t) : M Heap string :=
  parts <~ to_xml_parts self (order self) [] ;;
  ret (str_join NL parts).

(** [deepcopy] of the dict [chips]: entry by entry, with one memo.  The
    turn an entry gets decides the address of its copy and nothing
    else. *)
Fixpoint deepcopy_chips (items : list (string * loc)) (memo : Memo)
    (copy : gmap string loc) : M Heap (gmap string loc) :=
  match items with
  | [] => ret copy
  | (key, l) :: rest =>
      copied <~ deepcopy_chip memo l ;;
      deepcopy_chips rest copied.2 (<[key := copied.1]> copy)
  end.

(** [self.model_copy(deep=True)] *)
Definition model_copy_deep (self : t) : M Heap t :=
  copy <~ deepcopy_chips (map_to_list (chips self)) empty_memo ∅ ;;
  ret {| order := order self; splitter := splitter self; chips := copy |}.
End SystemPromptChipsSchema.

Module SystemPrompt.
Inductive PromptType : Type := STR | XML.

(** The [type] argument of [get_system_prompt]: [None], a member of the
    enum, a string, or any other value. *)
Inductive TypeArg : Type :=
| TypeNone
| TypeEnum (p : PromptType)
| TypeLiteral (s : string)
| TypeOther.

(** [Callable[[SystemPromptChipsSchema], str]] *)
Definition Renderer : Type := SystemPromptChipsSchema.t → M Heap string.

(** The collection a composer owns is kept by value; its chips are
    references into the store. *)
Record t : Type := mk {
  chips : SystemPromptChipsSchema.t;
  to_str : option Renderer;
  to_xml : option Renderer
}.

(** [Union[str, SystemPromptChipsSchema, dict]] and everything else. *)
Inductive Content : Type :=
| ContentStr (s : string)
| ContentDict (d : ChipsDict)
| ContentChips (cs : SystemPromptChipsSchema.t)
| ContentOther.

(** The three branches shared by [__init__] and [replace_chips]. *)
Definition chips_of_content (content : Content) : M Heap SystemPromptChipsSchema.t :=
  match content with
  | ContentStr s => SystemPromptChipsSchema.default s
  | ContentDict d => SystemPromptChipsSchema.from_dict d
  | ContentChips cs => ret cs
  | ContentOther => raise SchemaError
  end.

(** [__init__] *)
Definition init (content : Content) (to_str to_xml : option Renderer) : M Heap t :=
  cs <~ chips_of_content content ;;
  ret {| chips := cs; to_str := to_str; to_xml := to_xml |}.

(** A composer and the store its references point into. *)
Record state : Type := mkState {
  heap : Heap;
  self : t
}.

Definition on_heap {A} (c : M Heap A) : M state A :=
  λ st, match c (heap st) with
        | (r, h') => (r, {| heap := h'; self := self st |})
        end.

(** [self.chips = cs] *)
Definition set_chips (cs : SystemPromptChipsSchema.t) : M state unit :=
  modify (λ st, {| heap := heap st;
                   self := {| chips := cs;
                              to_str := to_str (self st);
                              to_xml := to_xml (self st) |} |}).

Definition the_order : M state (list string) :=
  gets (λ st, SystemPromptChipsSchema.order (chips (self st))).

Definition the_chips : M state (gmap string loc) :=
  gets (λ st, SystemPromptChipsSchema.chips (chips (self st))).

(** [self.chips.order = o], also the effect of an in-place list update *)
Definition set_order (o : list string) : M state unit :=
  cs <~ gets (λ st, chips (self st)) ;;
  set_chips {| SystemPromptChipsSchema.order := o;
               SystemPromptChipsSchema.splitter := SystemPromptChipsSchema.splitter cs;
               SystemPromptChipsSchema.chips := SystemPromptChipsSchema.chips cs |}.

(** The effect of an update of the dict [self.chips.chips] *)
Definition set_chip_map (m : gmap string loc) : M state unit :=
  cs <~ gets (λ st, chips (self st)) ;;
  set_chips {| SystemPromptChipsSchema.order := SystemPromptChipsSchema.order cs;
               SystemPromptChipsSchema.splitter := SystemPromptChipsSchema.splitter cs;
               SystemPromptChipsSchema.chips := m |}.

Definition type_is (type : TypeArg) (p : PromptType) (literal : string) : bool :=
  match type with
  | TypeEnum q =>
      match p, q with STR, STR | XML, XML => true | _, _ => false end
  | TypeLiteral s => String.eqb s literal
  | _ => false
  end.

Definition type_is_none (type : TypeArg) : bool :=
  match type with TypeNone => true | _ => false end.

Definition get_system_prompt (type : TypeArg) : M state string :=
  me <~ gets self ;;
  if type_is_none type || type_is type STR "str" then
    match to_str me with
    | Some f => on_heap (f (chips me))
    | None => on_heap (SystemPromptChipsSchema.to_str (chips me))
    end
  else if type_is type XML "xml" then
    match to_xml me with
    | Some f => on_heap (f (chips me))
    | None => on_heap (SystemPromptChipsSchema.to_xml (chips me))
    end
  else raise InvalidModeError.

(** The block the source repeats in [add], [insert] and [update]:
    a string becomes a new chip named [key], anything else goes through
    [_normalize_chip]. *)
Definition chip_of_content (key : string) (content : ChipValue) : M Heap loc :=
  match content with
  | VStr s => SystemPromptChipSchema_new key s
  | _ => SystemPromptChipsSchema._normalize_chip key content
  end.

Definition add (key : string) (content : ChipValue) : M state loc :=
  cm <~ the_chips ;;
  if bool_decide (is_Some (cm !! key)) then raise DuplicateKeyError else
  chip <~ on_heap (chip_of_content key content) ;;
  set_chip_map (<[key := chip]> cm) ;;;
  o <~ the_order ;;
  (if negb (list_contains key o) then set_order (o ++ [key]) else ret tt) ;;;
  ret chip.

Definition insert (key : string) (content : ChipValue) (index : Z) : M state loc :=
  cm <~ the_chips ;;
  if bool_decide (is_Some (cm !! key)) then raise DuplicateKeyError else
  o <~ the_order ;;
  if (index <? 0)%Z || (Z.of_nat (length o) <? index)%Z then raise IndexRangeError else
  chip <~ on_heap (chip_of_content key content) ;;
  set_chip_map (<[key := chip]> cm) ;;;
  set_order (list_insert_at index key o) ;;;
  ret chip.

Definition move (key : string) (index : Z) : M state unit :=
  cm <~ the_chips ;;
  if negb (bool_decide (is_Some (cm !! key))) then raise KeyNotFoundError else
  o <~ the_order ;;
  if negb (list_contains key o) then raise KeyNotFoundError else
  if (index <? 0)%Z || (Z.of_nat (length o) <=? index)%Z then raise IndexRangeError else
  match list_remove_first key o with
  | None => raise ListRemoveError
  | Some o' => set_order (list_insert_at index key o')
  end.

Definition remove (key : string) : M state bool :=
  cm <~ the_chips ;;
  if negb (bool_decide (is_Some (cm !! key))) then ret false else
  set_chip_map (delete key cm) ;;;
  o <~ the_order ;;
  set_order (List.filter (λ chip_key, negb (String.eqb chip_key key)) o) ;;;
  ret true.

Definition get (key : string) : M state (option loc) :=
  cm <~ the_chips ;;
  ret (cm !! key).

(** [chip.metadata.ignore = b] for the chip object at [l] *)
Definition assign_ignore (l : loc) (b : bool) : M Heap unit :=
  chip <~ read_chip l ;;
  write_ignore (SystemPromptChipSchema.metadata chip) b.

(** [chip.metadata.ignore] for the chip object at [l] *)
Definition read_ignore (l : loc) : M Heap bool :=
  chip <~ read_chip l ;;
  m <~ read_metadata (SystemPromptChipSchema.metadata chip) ;;
  ret (SystemPromptChipMetadataSchema.ignore m).

Definition ignore (key : string) : M state string :=
  chip <~ get key ;;
  match chip with
  | None => raise KeyNotFoundError
  | Some l => on_heap (assign_ignore l true) ;;; ret key
  end.

Definition wakeup (key : string) : M state string :=
  chip <~ get key ;;
  match chip with
  | None => raise KeyNotFoundError
  | Some l => on_heap (assign_ignore l false) ;;; ret key
  end.

(** The loop of [wakeup_all] over the keys still to visit. *)
Fixpoint wakeup_all_loop (keys : list string) (waked_up_keys : list string)
  : M state (list string) :=
  match keys with
  | [] => ret waked_up_keys
  | key :: rest =>
      cm <~ the_chips ;;
      match cm !! key with
      | None => wakeup_all_loop rest waked_up_keys
      | Some l =>
          ig <~ on_heap (read_ignore l) ;;
          if ig
          then on_heap (assign_ignore l false) ;;;
               wakeup_all_loop rest (waked_up_keys ++ [key])
          else wakeup_all_loop rest waked_up_keys
      end
  end.

Definition wakeup_all : M state (list string) :=
  o <~ the_order ;;
  wakeup_all_loop o [].

Definition toggle (key : string) : M state string :=
  chip <~ get key ;;
  match chip with
  | None => raise KeyNotFoundError
  | Some l =>
      ig <~ on_heap (read_ignore l) ;;
      on_heap (assign_ignore l (negb ig)) ;;;
      ret key
  end.

Definition replace_chips (content : Content) : M state unit :=
  cs <~ on_heap (chips_of_content content) ;;
  set_chips cs.

Definition update (content : ChipValue) (key : string) : M state unit :=
  chip <~ on_heap (chip_of_content key content) ;;
  cm <~ the_chips ;;
  set_chip_map (<[key := chip]> cm) ;;;
  o <~ the_order ;;
  if negb (list_contains key o) then set_order (o ++ [key]) else ret tt.

Definition get_chips : M state SystemPromptChipsSchema.t :=
  cs <~ gets (λ st, chips (self st)) ;;
  on_heap (SystemPromptChipsSchema.model_copy_deep cs).
End SystemPrompt.

(** ** Abbreviations *)

Abbreviation chip_name := SystemPromptChipSchema.name.
Abbreviation chip_content := SystemPromptChipSchema.content.
Abbreviation chip_metadata := SystemPromptChipSchema.metadata.
Abbreviation meta_ignore := SystemPromptChipMetadataSchema.ignore.
Abbreviation cs_order := SystemPromptChipsSchema.order.
Abbreviation cs_splitter := SystemPromptChipsSchema.splitter.
Abbreviation cs_chips := SystemPromptChipsSchema.chips.
Abbreviation st_heap := SystemPrompt.heap.
Abbreviation st_self := SystemPrompt.self.
Abbreviation st_chips st := (SystemPrompt.chips (SystemPrompt.self st)).
Abbreviation st_order st := (cs_order (SystemPrompt.chips (SystemPrompt.self st))).
Abbreviation st_map st := (cs_chips (SystemPrompt.chips (SystemPrompt.self st))).

(** ** Valid references *)

(** Every chip object refers to a metadata object of the store. *)
Definition heap_ok (h : Heap) : bool :=
  forallb (λ c, bool_decide (chip_metadata c < length (meta_objs h))) (chip_objs h).

(** Every chip of the mapping is a chip object of the store. *)
Definition chips_ok (h : Heap) (cs : SystemPromptChipsSchema.t) : bool :=
  forallb (λ kv, bool_decide (kv.2 < length (chip_objs h))) (map_to_list (cs_chips cs)).

(** The references of a composer state are all valid, as they are in every
    Python run. *)
Definition state_ok (st : SystemPrompt.state) : bool :=
  heap_ok (st_heap st) && chips_ok (st_heap st) (st_chips st).

(** ** Observations on a store and a collection *)

(** The chip object stored under [key], if any. *)
Definition chip_at (h : Heap) (cs : SystemPromptChipsSchema.t) (key : string)
  : option SystemPromptChipSchema.t :=
  match cs_chips cs !! key with
  | Some l => chip_objs h !! l
  | None => None
  end.

(** [chips[key].metadata.ignore], if [key] has a chip. *)
Definition ignore_at (h : Heap) (cs : SystemPromptChipsSchema.t) (key : string)
  : option bool :=
  match chip_at h cs key with
  | Some c => meta_ignore <$> meta_objs h !! chip_metadata c
  | None => None
  end.

(** [key] has a chip and the chip is ignored. *)
Definition ignored (h : Heap) (cs : SystemPromptChipsSchema.t) (key : string) : bool :=
  match ignore_at h cs key with
  | Some true => true
  | _ => false
  end.

(** The metadata object of the chip stored under [key]. *)
Definition meta_at (h : Heap) (cs : SystemPromptChipsSchema.t) (key : string)
  : option loc :=
  chip_metadata <$> chip_at h cs key.

(** What a key of [order] contributes to a rendering: the content of its
    chip when the chip exists and is not ignored, nothing otherwise. *)
Definition rendered (h : Heap) (cs : SystemPromptChipsSchema.t) (key : string)
  : option string :=
  match chip_at h cs key, ignore_at h cs key with
  | Some c, Some false => Some (chip_content c)
  | _, _ => None
  end.

(** The same collection with another [order]. *)
Definition with_order (o : list string) (cs : SystemPromptChipsSchema.t)
  : SystemPromptChipsSchema.t :=
  {| cs_order := o; cs_splitter := cs_splitter cs; cs_chips := cs_chips cs |}.

(** A state with the store [h], the chip mapping [m] and the order [o]; the
    splitter and the renderers are those of [st]. *)
Definition updated (h : Heap) (m : gmap string loc) (o : list string)
    (st : SystemPrompt.state) : SystemPrompt.state :=
  {| st_heap := h;
     st_self := {| SystemPrompt.chips :=
                     {| cs_order := o;
                        cs_splitter := cs_splitter (st_chips st);
                        cs_chips := m |};
                   SystemPrompt.to_str := SystemPrompt.to_str (st_self st);
                   SystemPrompt.to_xml := SystemPrompt.to_xml (st_self st) |} |}.

(** The store after [obj.ignore = b] on the metadata object [m] at [l]. *)
Definition assigned (l : loc) (b : bool) (m : SystemPromptChipMetadataSchema.t)
    (h : Heap) : Heap :=
  {| chip_objs := chip_objs h;
     meta_objs := <[l := SystemPromptChipMetadataSchema.set_ignore b m]> (meta_objs h) |}.

(** The state of a composer that [__init__] built on a store. *)
Definition constructed (content : SystemPrompt.Content)
    (to_str to_xml : option SystemPrompt.Renderer) (h : Heap) : option SystemPrompt.state :=
  match SystemPrompt.init content to_str to_xml h with
  | (Return me, h') => Some {| st_heap := h'; st_self := me |}
  | (Raise _, _) => None
  end.

(** A rendering through the override when there is one, through the
    default renderer otherwise. *)
Definition render_with (override : option SystemPrompt.Renderer)
    (default_renderer : SystemPrompt.Renderer) (st : SystemPrompt.state)
  : Outcome string * SystemPrompt.state :=
  match override with
  | Some f => SystemPrompt.on_heap (f (st_chips st)) st
  | None => SystemPrompt.on_heap (default_renderer (st_chips st)) st
  end.

(** The number of times [key] occurs in a list. *)
Definition occurrences (key : string) (l : list string) : nat :=
  length (List.filter (String.eqb key) l).

(** The keys of a list, each once, at its first position. *)
Fixpoint first_occurrences (l : list string) : list string :=
  match l with
  | [] => []
  | x :: l' => x :: List.filter (λ y, negb (String.eqb y x)) (first_occurrences l')
  end.

(** No two keys hold chips with the same metadata object. *)
Definition unshared (h : Heap) (cs : SystemPromptChipsSchema.t) : bool :=
  bool_decide (NoDup (omap (λ kv, chip_metadata <$> chip_objs h !! kv.2)
                           (map_to_list (cs_chips cs)))).

(** ** Names and keys *)

(** A chip object at [l] that carries the name [key]. *)
Definition named_at (key : string) (l : loc) (h : Heap) : Prop :=
  ∃ c, chip_objs h !! l = Some c ∧ chip_name c = key.

(** Every entry of a chip mapping is a chip object named after its key. *)
Definition named_map (m : gmap string loc) (h : Heap) : Prop :=
  ∀ key l, m !! key = Some l → named_at key l h.

(** The same, as a test. *)
Definition names_ok (h : Heap) (cs : SystemPromptChipsSchema.t) : bool :=
  forallb (λ kv, match chip_objs h !! kv.2 with
                 | Some c => String.eqb (chip_name c) kv.1
                 | None => false
                 end)
          (map_to_list (cs_chips cs)).

(** A collection handed over as a value is stored as it is: names follow
    keys in the composer only if they do in the value. *)
Definition trusted (h : Heap) (content : SystemPrompt.Content) : bool :=
  match content with
  | SystemPrompt.ContentChips cs => names_ok h cs
  | _ => true
  end.

(** The mutation API, one constructor per method. *)
Inductive Call : Type :=
| CallAdd (key : string) (content : ChipValue)
| CallInsert (key : string) (content : ChipValue) (index : Z)
| CallMove (key : string) (index : Z)
| CallRemove (key : string)
| CallIgnore (key : string)
| CallWakeup (key : string)
| CallWakeupAll
| CallToggle (key : string)
| CallReplaceChips (content : SystemPrompt.Content)
| CallUpdate (content : ChipValue) (key : string).

Definition run (call : Call) : M SystemPrompt.state unit :=
  match call with
  | CallAdd key content => SystemPrompt.add key content ;;; ret tt
  | CallInsert key content index => SystemPrompt.insert key content index ;;; ret tt
  | CallMove key index => SystemPrompt.move key index
  | CallRemove key => SystemPrompt.remove key ;;; ret tt
  | CallIgnore key => SystemPrompt.ignore key ;;; ret tt
  | CallWakeup key => SystemPrompt.wakeup key ;;; ret tt
  | CallWakeupAll => SystemPrompt.wakeup_all ;;; ret tt
  | CallToggle key => SystemPrompt.toggle key ;;; ret tt
  | CallReplaceChips content => SystemPrompt.replace_chips content
  | CallUpdate content key => SystemPrompt.update content key
  end.




(** A state that differs from [st] in metadata alone. *)
Definition same_shape (st st' : SystemPrompt.state) : Prop :=
  st_self st' = st_self st
  ∧ chip_objs (st_heap st') = chip_objs (st_heap st)
  ∧ length (meta_objs (st_heap st')) = length (meta_objs (st_heap st)).

(** ** Allocation *)

(** Objects of [h] are objects of [h'], unchanged. *)
Definition alloc_only (h h' : Heap) : Prop :=
  chip_objs h `prefix_of` chip_objs h' ∧ meta_objs h `prefix_of` meta_objs h'.

(** The failures of a constructor: a malformed argument, or a reference
    that is not in the store. *)
Definition benign (e : Error) : Prop := e = SchemaError ∨ e = DanglingReference.

(** [c] keeps a well-formed store well-formed and only allocates; when it
    returns, [post] holds of the result and the store. *)
Definition heap_triple {A} (pre : Heap → Prop) (c : M Heap A) (post : A → Heap → Prop)
  : Prop :=
  ∀ h r h', heap_ok h = true → pre h → c h = (r, h') →
    heap_ok h' = true ∧ alloc_only h h'
    ∧ match r with Return a => post a h' | Raise e => benign e end.

(** The store after [SystemPromptChipsSchema.default(s)] ran on [h], and the
    collection it returns. *)
Definition default_heap (s : string) (h : Heap) : Heap :=
  {| chip_objs := chip_objs h
       ++ [SystemPromptChipSchema.mk DEFAULT_SYSTEM_PROMPT_CHIP_KEY s (length (meta_objs h))];
     meta_objs := meta_objs h ++ [SystemPromptChipMetadataSchema.default] |}.

Definition default_chips (h : Heap) : SystemPromptChipsSchema.t :=
  {| cs_order := [DEFAULT_SYSTEM_PROMPT_CHIP_KEY];
     cs_splitter := NL +:+ NL;
     cs_chips := {[ DEFAULT_SYSTEM_PROMPT_CHIP_KEY := length (chip_objs h) ]} |}.

(** ** Sample states *)

(** A store and a collection to run the theorems on: [a] is ignored, [b]
    and [c] are not, and [ghost] is in [order] without a chip. *)
Definition sample_heap : Heap :=
  {| chip_objs := [ SystemPromptChipSchema.mk "a" "A" 0;
                    SystemPromptChipSchema.mk "b" "B" 1;
                    SystemPromptChipSchema.mk "c" "C" 2 ];
     meta_objs := [ SystemPromptChipMetadataSchema.mk true [];
                    SystemPromptChipMetadataSchema.mk false [];
                    SystemPromptChipMetadataSchema.mk false [] ] |}.

Definition sample_chips : SystemPromptChipsSchema.t :=
  {| cs_order := ["a"; "ghost"; "b"];
     cs_splitter := NL +:+ NL;
     cs_chips := <["a" := 0]> (<["b" := 1]> (<["c" := 2]> ∅)) |}.

Definition sample_state : SystemPrompt.state :=
  {| st_heap := sample_heap;
     st_self := {| SystemPrompt.chips := sample_chips;
                   SystemPrompt.to_str := None;
                   SystemPrompt.to_xml := None |} |}.

(** A renderer a caller could supply: it ignores the collection. *)
Definition constant_renderer (s : string) : SystemPrompt.Renderer :=
  λ _, ret s.

Definition overridden_state : SystemPrompt.state :=
  {| st_heap := sample_heap;
     st_self := {| SystemPrompt.chips := sample_chips;
                   SystemPrompt.to_str := Some (constant_renderer "flat");
                   SystemPrompt.to_xml := Some (constant_renderer "tagged") |} |}.

(** A state with a dangling entry: [k] is in [order] and has no chip. *)
Definition dangling_state : SystemPrompt.state :=
  {| st_heap := {| chip_objs := [SystemPromptChipSchema.mk "b" "B" 0];
                   meta_objs := [SystemPromptChipMetadataSchema.default] |};
     st_self := {| SystemPrompt.chips :=
                     {| cs_order := ["k"; "b"];
                        cs_splitter := NL +:+ NL;
                        cs_chips := <["b" := 0]> ∅ |};
                   SystemPrompt.to_str := None;
                   SystemPrompt.to_xml := None |} |}.

(** Chips [a] and [b] ignored, [c] awake, order [a, b, c]. *)
Definition wake_state : SystemPrompt.state :=
  {| st_heap :=
       {| chip_objs := [ SystemPromptChipSchema.mk "a" "A" 0;
                         SystemPromptChipSchema.mk "b" "B" 1;
                         SystemPromptChipSchema.mk "c" "C" 2 ];
          meta_objs := [ SystemPromptChipMetadataSchema.mk true [];
                         SystemPromptChipMetadataSchema.mk true [];
                         SystemPromptChipMetadataSchema.mk false [] ] |};
     st_self := {| SystemPrompt.chips :=
                     {| cs_order := ["a"; "b"; "c"];
                        cs_splitter := NL +:+ NL;
                        cs_chips := <["a" := 0]> (<["b" := 1]> (<["c" := 2]> ∅)) |};
                   SystemPrompt.to_str := None;
                   SystemPrompt.to_xml := None |} |}.

(** A store with one chip instance a caller built, and the record of an
    empty collection. *)
Definition caller_heap : Heap :=
  {| chip_objs := [SystemPromptChipSchema.mk "a" "A" 0];
     meta_objs := [SystemPromptChipMetadataSchema.default] |}.

Definition empty_data : ChipsDict :=
  {| d_order := None; d_splitter := None; d_chips := Some [] |}.



Definition scenario_chip (name content : string) : ChipValue :=
  VDict {| p_name := Some name; p_content := Some content;
           p_metadata := None; p_unknown := [] |}.

(** [{"order": ["a","b"], "splitter": "\n\n",
      "chips": {"a": {"name":"a","content":"A"}, "b": {"name":"b","content":"B"}}}] *)
Definition scenario_data : ChipsDict :=
  {| d_order := Some ["a"; "b"];
     d_splitter := Some (NL +:+ NL);
     d_chips := Some [("a", scenario_chip "a" "A"); ("b", scenario_chip "b" "B")] |}.

(** The states of the scenario: after construction, after the insertion
    and after the move. *)
Definition scenario_built : SystemPrompt.state :=
  {| st_heap :=
       {| chip_objs := [ SystemPromptChipSchema.mk "a" "A" 0;
                         SystemPromptChipSchema.mk "b" "B" 1 ];
          meta_objs := [ SystemPromptChipMetadataSchema.default;
                         SystemPromptChipMetadataSchema.default ] |};
     st_self := {| SystemPrompt.chips :=
                     {| cs_order := ["a"; "b"];
                        cs_splitter := NL +:+ NL;
                        cs_chips := <["b" := 1]> (<["a" := 0]> ∅) |};
                   SystemPrompt.to_str := None;
                   SystemPrompt.to_xml := None |} |}.

Definition scenario_inserted : SystemPrompt.state :=
  (SystemPrompt.insert "x" (VStr "X") 1 scenario_built).2.

Definition scenario_moved : SystemPrompt.state :=
  (SystemPrompt.move "x" 0 scenario_inserted).2.

(** An empty composer on the store of the caller, and the states after the
    caller's chip was added under [a], added again under [b], and [a] was
    ignored. *)
Definition shared_built : SystemPrompt.state :=
  {| st_heap := caller_heap;
     st_self := {| SystemPrompt.chips :=
                     {| cs_order := []; cs_splitter := NL +:+ NL; cs_chips := ∅ |};
                   SystemPrompt.to_str := None;
                   SystemPrompt.to_xml := None |} |}.

Definition shared_added_a : SystemPrompt.state :=
  (SystemPrompt.add "a" (VChip 0) shared_built).2.

Definition shared_added_b : SystemPrompt.state :=
  (SystemPrompt.add "b" (VChip 0) shared_added_a).2.

Definition shared_ignored : SystemPrompt.state :=
  (SystemPrompt.ignore "a" shared_added_b).2.

(** ** More observations *)

(** What a key of [order] contributes to the tagged rendering. *)
Definition tagged (h : Heap) (cs : SystemPromptChipsSchema.t) (key : string)
  : option string :=
  SystemPromptChipsSchema.xml_block key <$> rendered h cs key.

(** The same collection with another [splitter]. *)
Definition with_splitter (sp : string) (cs : SystemPromptChipsSchema.t)
  : SystemPromptChipsSchema.t :=
  {| cs_order := cs_order cs; cs_splitter := sp; cs_chips := cs_chips cs |}.

(** The [ignore] flag a chip dict asks for: the one of its [metadata]
    entry, [False] when there is none. *)
Definition payload_ignore (h : Heap) (p : ChipPayload) : option bool :=
  match p_metadata p with
  | None => Some false
  | Some (MetadataDict ig _) => Some (default false ig)
  | Some (MetadataInstance l) => meta_ignore <$> meta_objs h !! l
  end.

(** The state after [chips[key].metadata.ignore = b]; [st] itself when
    [key] has no chip. *)
Definition flagged (key : string) (b : bool) (st : SystemPrompt.state)
  : SystemPrompt.state :=
  match chip_at (st_heap st) (st_chips st) key with
  | Some c =>
      match meta_objs (st_heap st) !! chip_metadata c with
      | Some m => {| st_heap := assigned (chip_metadata c) b m (st_heap st);
                     st_self := st_self st |}
      | None => st
      end
  | None => st
  end.

(** Flat-text and tagged rendering of a state by the default renderers. *)
Definition flat_parts (st : SystemPrompt.state) : list string :=
  omap (rendered (st_heap st) (st_chips st)) (st_order st).

Definition tagged_parts (st : SystemPrompt.state) : list string :=
  omap (tagged (st_heap st) (st_chips st)) (st_order st).

(** The store after a chip named [key] with content [s] was built on [h]
    from a string. *)
Definition text_heap (key s : string) (h : Heap) : Heap :=
  {| chip_objs := chip_objs h ++ [SystemPromptChipSchema.mk key s (length (meta_objs h))];
     meta_objs := meta_objs h ++ [SystemPromptChipMetadataSchema.default] |}.

(** [order] lists each key once, and lists exactly the keys that have a
    chip. *)
Definition in_sync (cs : SystemPromptChipsSchema.t) : bool :=
  bool_decide (NoDup (cs_order cs))
  && forallb (λ key, bool_decide (is_Some (cs_chips cs !! key))) (cs_order cs)
  && forallb (λ kv, list_contains kv.1 (cs_order cs)) (map_to_list (cs_chips cs)).

(** The calls that hand a whole collection to the composer; the others
    build it chip by chip. *)
Definition hands_over (call : Call) : bool :=
  match call with
  | CallReplaceChips (SystemPrompt.ContentDict _)
  | CallReplaceChips (SystemPrompt.ContentChips _) => true
  | _ => false
  end.

Definition replaces (call : Call) : bool :=
  match call with
  | CallReplaceChips _ => true
  | _ => false
  end.

(** [memo] relates objects of [h0] to copies of them in [h]: each copy is
    an object allocated after [h0], has the fields of its original, and a
    copied chip refers to the copy of its metadata object; no two objects
    have the same copy. *)
Definition copies (h0 h : Heap) (memo : Memo) : Prop :=
  heap_ok h = true ∧ alloc_only h0 h
  ∧ (∀ l l', meta_memo memo !! l = Some l' →
       length (meta_objs h0) ≤ l'
       ∧ ∃ m, meta_objs h0 !! l = Some m ∧ meta_objs h !! l' = Some m)
  ∧ (∀ l1 l2 l', meta_memo memo !! l1 = Some l' → meta_memo memo !! l2 = Some l' →
       l1 = l2)
  ∧ (∀ l l', chip_memo memo !! l = Some l' →
       length (chip_objs h0) ≤ l'
       ∧ ∃ c c', chip_objs h0 !! l = Some c ∧ chip_objs h !! l' = Some c'
                 ∧ chip_name c' = chip_name c ∧ chip_content c' = chip_content c
                 ∧ meta_memo memo !! chip_metadata c = Some (chip_metadata c')).

(** [memo'] knows every copy [memo] knows. *)
Definition memo_le (memo memo' : Memo) : Prop :=
  chip_memo memo ⊆ chip_memo memo' ∧ meta_memo memo ⊆ meta_memo memo'.

(** A composer built around a collection, on a store. *)
Definition holding (cs : SystemPromptChipsSchema.t) (h : Heap) (st : SystemPrompt.state)
  : SystemPrompt.state :=
  {| st_heap := h;
     st_self := {| SystemPrompt.chips := cs;
                   SystemPrompt.to_str := SystemPrompt.to_str (st_self st);
                   SystemPrompt.to_xml := SystemPrompt.to_xml (st_self st) |} |}.
(** ** Well-formed stores *)

Lemma heap_ok_lookup h l c :
  heap_ok h = true → chip_objs h !! l = Some c →
  chip_metadata c < length (meta_objs h).
Proof.
  unfold heap_ok. rewrite forallb_forall. intros Hall Hl.
  apply list_elem_of_lookup_2, list_elem_of_In, Hall in Hl.
  by apply bool_decide_eq_true in Hl.
Qed.

Lemma heap_ok_intro h :
  (∀ l c, chip_objs h !! l = Some c → chip_metadata c < length (meta_objs h)) →
  heap_ok h = true.
Proof.
  intros H. unfold heap_ok. rewrite forallb_forall. intros c Hc.
  apply list_elem_of_In, list_elem_of_lookup in Hc as [l Hl].
  apply bool_decide_eq_true. eauto.
Qed.

Lemma chips_ok_lookup h cs key l :
  chips_ok h cs = true → cs_chips cs !! key = Some l → l < length (chip_objs h).
Proof.
  unfold chips_ok. rewrite forallb_forall. intros Hall Hl.
  apply elem_of_map_to_list, list_elem_of_In, Hall in Hl.
  by apply bool_decide_eq_true in Hl.
Qed.

Lemma chips_ok_intro h cs :
  (∀ key l, cs_chips cs !! key = Some l → l < length (chip_objs h)) →
  chips_ok h cs = true.
Proof.
  intros H. unfold chips_ok. rewrite forallb_forall. intros [key l] Hkl.
  apply list_elem_of_In, elem_of_map_to_list in Hkl.
  apply bool_decide_eq_true. simpl. eauto.
Qed.

Lemma chips_ok_chip h cs key l :
  chips_ok h cs = true → cs_chips cs !! key = Some l →
  ∃ c, chip_objs h !! l = Some c.
Proof.
  intros Hok Hl. apply lookup_lt_is_Some_2. eauto using chips_ok_lookup.
Qed.

Lemma heap_ok_meta h l c :
  heap_ok h = true → chip_objs h !! l = Some c →
  ∃ m, meta_objs h !! chip_metadata c = Some m.
Proof.
  intros Hok Hl. apply lookup_lt_is_Some_2. eauto using heap_ok_lookup.
Qed.

Lemma state_ok_split st :
  state_ok st = true →
  heap_ok (st_heap st) = true ∧ chips_ok (st_heap st) (st_chips st) = true.
Proof. unfold state_ok. by rewrite andb_true_iff. Qed.

(** ** Rendering *)

Lemma rendered_missing h cs key :
  cs_chips cs !! key = None → rendered h cs key = None.
Proof. intros H. unfold rendered, chip_at. by rewrite H. Qed.

Lemma rendered_ignored h cs key :
  ignore_at h cs key = Some true → rendered h cs key = None.
Proof. intros H. unfold rendered. rewrite H. by destruct (chip_at h cs key). Qed.

Lemma to_str_parts_spec h self keys parts :
  heap_ok h = true → chips_ok h self = true →
  SystemPromptChipsSchema.to_str_parts self keys parts h
  = (Return (parts ++ omap (rendered h self) keys), h).
Proof.
  intros Hh Hc. revert parts.
  induction keys as [|key rest IH]; intros parts; simpl.
  - by rewrite app_nil_r.
  - unfold rendered, ignore_at, chip_at.
    destruct (cs_chips self !! key) as [l|] eqn:Hk; [|apply IH].
    destruct (chips_ok_chip _ _ _ _ Hc Hk) as [c Hl].
    destruct (heap_ok_meta _ _ _ Hh Hl) as [m Hm].
    unfold bind, read_chip, read_metadata. rewrite Hl, Hm. simpl.
    destruct (meta_ignore m); simpl; [apply IH|].
    rewrite IH. by rewrite <- app_assoc.
Qed.

Lemma to_str_spec h self :
  heap_ok h = true → chips_ok h self = true →
  SystemPromptChipsSchema.to_str self h
  = (Return (str_join (cs_splitter self) (omap (rendered h self) (cs_order self))), h).
Proof.
  intros Hh Hc. unfold SystemPromptChipsSchema.to_str, bind.
  by rewrite to_str_parts_spec.
Qed.

Lemma omap_filter_none {A B} (f : A → option B) (P : A → bool) (l : list A) :
  (∀ x, P x = false → f x = None) →
  omap f (List.filter P l) = omap f l.
Proof.
  intros H. induction l as [|x l IH]; [done|].
  cbn [List.filter]. destruct (P x) eqn:HP; cbn.
  - by rewrite IH.
  - by rewrite (H x HP).
Qed.

Lemma omap_all_none {A B} (f : A → option B) (l : list A) :
  (∀ x, x ∈ l → f x = None) → omap f l = [].
Proof.
  induction l as [|x l IH]; intros H; cbn; [done|].
  rewrite (H x) by left. apply IH. intros y Hy. apply H. by right.
Qed.

(** ** Computations on the store *)

Lemma alloc_only_refl h : alloc_only h h.
Proof. by split. Qed.

Lemma alloc_only_trans h1 h2 h3 :
  alloc_only h1 h2 → alloc_only h2 h3 → alloc_only h1 h3.
Proof. intros [??] [??]. split; by etrans. Qed.

Lemma alloc_only_chip h h' l c :
  alloc_only h h' → chip_objs h !! l = Some c → chip_objs h' !! l = Some c.
Proof. intros [Hp _] Hl. by eapply prefix_lookup_Some. Qed.

Lemma alloc_only_meta h h' l m :
  alloc_only h h' → meta_objs h !! l = Some m → meta_objs h' !! l = Some m.
Proof. intros [_ Hp] Hl. by eapply prefix_lookup_Some. Qed.

Lemma heap_ok_new_meta co mo m :
  heap_ok (mkHeap co mo) = true → heap_ok (mkHeap co (mo ++ [m])) = true.
Proof.
  intros H. apply heap_ok_intro. simpl. intros l c Hl.
  pose proof (heap_ok_lookup _ _ _ H Hl) as Hlt. simpl in Hlt.
  rewrite length_app. lia.
Qed.

Lemma heap_ok_new_chip co mo c :
  heap_ok (mkHeap co mo) = true → chip_metadata c < length mo →
  heap_ok (mkHeap (co ++ [c]) mo) = true.
Proof.
  intros H Hc. apply heap_ok_intro. simpl. intros l c' Hl.
  apply lookup_app_Some in Hl as [Hl|[_ Hl]].
  - exact (heap_ok_lookup _ _ _ H Hl).
  - apply list_lookup_singleton_Some in Hl as [_ <-]. done.
Qed.

Section HeapTriples.
Context {A B : Type}.

Lemma triple_ret (a : A) (post : A → Heap → Prop) :
  heap_triple (post a) (ret a) post.
Proof. intros h r h' Hh Hpre [= <- <-]. auto using alloc_only_refl. Qed.

Lemma triple_raise_schema (pre : Heap → Prop) (post : A → Heap → Prop) :
  heap_triple pre (raise SchemaError) post.
Proof.
  intros h r h' Hh Hpre [= <- <-]. split; [done|]. split; [apply alloc_only_refl|by left].
Qed.

Lemma triple_bind (pre : Heap → Prop) (c : M Heap A) (mid : A → Heap → Prop)
    (k : A → M Heap B) (post : B → Heap → Prop) :
  heap_triple pre c mid → (∀ a, heap_triple (mid a) (k a) post) →
  heap_triple pre (bind c k) post.
Proof.
  intros Hc Hk h r h' Hh Hpre. unfold bind.
  destruct (c h) as [[a|e] h1] eqn:Hch; intros Hr.
  - destruct (Hc _ _ _ Hh Hpre Hch) as (Hh1 & Hext1 & Hmid).
    destruct (Hk a _ _ _ Hh1 Hmid Hr) as (Hh' & Hext' & Hpost).
    eauto using alloc_only_trans.
  - injection Hr as <- <-. exact (Hc _ _ _ Hh Hpre Hch).
Qed.

Lemma triple_weaken (pre pre' : Heap → Prop) (c : M Heap A) (post post' : A → Heap → Prop) :
  heap_triple pre' c post' →
  (∀ h, heap_ok h = true → pre h → pre' h) →
  (∀ a h, heap_ok h = true → post' a h → post a h) →
  heap_triple pre c post.
Proof.
  intros Hc Hpre Hpost h r h' Hh Hp Hr.
  destruct (Hc _ _ _ Hh (Hpre _ Hh Hp) Hr) as (Hh' & Hext & Hres).
  split; [done|]. split; [done|]. destruct r; auto.
Qed.

(** A fact that allocation cannot break can be carried across [c]. *)
Lemma triple_frame (F : Heap → Prop) (pre : Heap → Prop) (c : M Heap A)
    (post : A → Heap → Prop) :
  (∀ h h', alloc_only h h' → F h → F h') →
  heap_triple pre c post →
  heap_triple (λ h, pre h ∧ F h) c (λ a h, post a h ∧ F h).
Proof.
  intros HF Hc h r h' Hh [Hp Hf] Hr.
  destruct (Hc _ _ _ Hh Hp Hr) as (Hh' & Hext & Hres).
  split; [done|]. split; [done|]. destruct r; eauto.
Qed.
End HeapTriples.

Lemma triple_new_metadata m :
  heap_triple (λ _, True) (new_metadata m) (λ l h, meta_objs h !! l = Some m).
Proof.
  intros [co mo] r h' Hh _ [= <- <-]. simpl.
  split; [by apply heap_ok_new_meta|]. split.
  - split; simpl; [done|by apply prefix_app_r].
  - by rewrite lookup_app_r, Nat.sub_diag.
Qed.

Lemma triple_new_chip c :
  heap_triple (λ h, chip_metadata c < length (meta_objs h)) (new_chip c)
    (λ l h, chip_objs h !! l = Some c).
Proof.
  intros [co mo] r h' Hh Hpre [= <- <-]. simpl in *.
  split; [by apply heap_ok_new_chip|]. split.
  - split; simpl; [by apply prefix_app_r|done].
  - by rewrite lookup_app_r, Nat.sub_diag.
Qed.

Lemma triple_read_chip l :
  heap_triple (λ _, True) (read_chip l) (λ c h, chip_objs h !! l = Some c).
Proof.
  intros h r h' Hh _. unfold read_chip.
  destruct (chip_objs h !! l) eqn:Hl; intros [= <- <-];
    (split; [done|]); (split; [apply alloc_only_refl|]); [done|by right].
Qed.

Lemma triple_read_metadata l :
  heap_triple (λ _, True) (read_metadata l) (λ m h, meta_objs h !! l = Some m).
Proof.
  intros h r h' Hh _. unfold read_metadata.
  destruct (meta_objs h !! l) eqn:Hl; intros [= <- <-];
    (split; [done|]); (split; [apply alloc_only_refl|]); [done|by right].
Qed.

Lemma triple_chip_new key content :
  heap_triple (λ _, True) (SystemPromptChipSchema_new key content)
    (λ l h, ∃ m, chip_objs h !! l = Some (SystemPromptChipSchema.mk key content m)
                 ∧ meta_objs h !! m = Some SystemPromptChipMetadataSchema.default).
Proof.
  unfold SystemPromptChipSchema_new.
  eapply triple_bind; [apply triple_new_metadata|]. intros m. simpl.
  eapply triple_weaken.
  - apply (triple_frame
             (λ h, meta_objs h !! m = Some SystemPromptChipMetadataSchema.default)).
    + intros h h' Hext. by apply alloc_only_meta.
    + apply triple_new_chip.
  - simpl. intros h _ Hm. split; [|done]. by apply lookup_lt_Some in Hm.
  - simpl. intros l h _ [Hl Hm]. eauto.
Qed.

Lemma triple_chip_of_payload p :
  heap_triple (λ _, True) (SystemPromptChipSchema_of_payload p)
    (λ l h, ∃ c, chip_objs h !! l = Some c ∧ p_name p = Some (chip_name c)).
Proof.
  unfold SystemPromptChipSchema_of_payload.
  destruct (p_unknown p); [|apply triple_raise_schema].
  destruct (p_name p) as [name|]; [|apply triple_raise_schema].
  destruct (p_content p) as [content|]; [|apply triple_raise_schema].
  apply (triple_bind _ _ (λ m h, m < length (meta_objs h))).
  - destruct (p_metadata p) as [[ig ex|l]|].
    + eapply triple_weaken; [apply triple_new_metadata|done|].
      simpl. intros m h _ Hm. by apply lookup_lt_Some in Hm.
    + eapply triple_bind; [apply triple_read_metadata|]. intros m. simpl.
      eapply triple_weaken;
        [apply (triple_ret l (λ l h, l < length (meta_objs h)))| |done].
      simpl. intros h _ Hm. by apply lookup_lt_Some in Hm.
    + eapply triple_weaken; [apply triple_new_metadata|done|].
      simpl. intros m h _ Hm. by apply lookup_lt_Some in Hm.
  - intros m. eapply triple_weaken; [apply triple_new_chip|done|].
    simpl. intros l h _ Hl. eauto.
Qed.

Lemma triple_normalize_chip key value :
  heap_triple (λ _, True) (SystemPromptChipsSchema._normalize_chip key value)
    (λ l h, named_at key l h).
Proof.
  unfold SystemPromptChipsSchema._normalize_chip.
  apply (triple_bind _ _ (λ _ _, True)).
  - destruct value as [s|l|p|]; try apply triple_raise_schema.
    + eapply triple_bind; [apply triple_read_chip|]. intros c.
      eapply triple_weaken; [apply (triple_ret l (λ _ _, True))|done|done].
    + eapply triple_weaken; [apply triple_chip_of_payload|done|done].
  - intros chip. eapply triple_bind; [apply triple_read_chip|]. intros c. simpl.
    destruct (String.eqb (chip_name c) key) eqn:Hname; simpl.
    + apply String.eqb_eq in Hname.
      eapply triple_weaken; [apply (triple_ret chip (named_at key))| |done].
      simpl. intros h _ Hc. by exists c.
    + unfold model_copy_with_name.
      eapply triple_weaken; [apply triple_new_chip| |].
      * simpl. intros h Hh Hc. exact (heap_ok_lookup _ _ _ Hh Hc).
      * simpl. intros l h _ Hl. eexists. split; [exact Hl|done].
Qed.

Lemma triple_chip_of_content key content :
  heap_triple (λ _, True) (SystemPrompt.chip_of_content key content)
    (λ l h, named_at key l h).
Proof.
  destruct content as [s|l|p|]; try apply triple_normalize_chip.
  simpl. eapply triple_weaken; [apply triple_chip_new|done|].
  simpl. intros l h _ (m & Hl & _). eexists. split; [exact Hl|done].
Qed.

Lemma named_at_alloc_only key l h h' :
  alloc_only h h' → named_at key l h → named_at key l h'.
Proof. intros Hext (c & Hl & Hn). exists c. eauto using alloc_only_chip. Qed.

Lemma named_map_alloc_only m h h' :
  alloc_only h h' → named_map m h → named_map m h'.
Proof. intros Hext Hm key l Hl. eauto using named_at_alloc_only. Qed.

Lemma named_map_insert m h key l :
  named_map m h → named_at key l h → named_map (<[key := l]> m) h.
Proof.
  intros Hm Hl key' l' Hl'. rewrite lookup_insert in Hl'.
  case_decide; simplify_eq; eauto.
Qed.


Lemma triple_from_dict_items items m :
  heap_triple (named_map m) (SystemPromptChipsSchema.from_dict_items items m) named_map.
Proof.
  revert m. induction items as [|[key value] rest IH]; intros m; simpl.
  - apply triple_ret.
  - apply (triple_bind _ _ (λ l h, named_at key l h ∧ named_map m h)).
    + eapply triple_weaken.
      * apply (triple_frame (named_map m)); [|apply triple_normalize_chip].
        intros h h' Hext. by apply named_map_alloc_only.
      * done.
      * done.
    + intros l. eapply triple_weaken; [apply IH| |done].
      simpl. intros h _ [Hl Hm]. by apply named_map_insert.
Qed.

Lemma triple_from_dict data :
  heap_triple (λ _, True) (SystemPromptChipsSchema.from_dict data)
    (λ cs h, named_map (cs_chips cs) h
             ∧ cs_order cs = default [] (d_order data)
             ∧ cs_splitter cs = default (NL +:+ NL) (d_splitter data)).
Proof.
  unfold SystemPromptChipsSchema.from_dict.
  destruct (d_chips data) as [items|]; [|apply triple_raise_schema].
  apply (triple_bind _ _ named_map).
  - eapply triple_weaken; [apply triple_from_dict_items| |done].
    intros h _ _ key l Hl. by rewrite lookup_empty in Hl.
  - intros m. eapply triple_weaken;
      [apply (triple_ret _ (λ cs h, named_map (cs_chips cs) h
             ∧ cs_order cs = default [] (d_order data)
             ∧ cs_splitter cs = default (NL +:+ NL) (d_splitter data)))| |done].
    simpl. done.
Qed.

Lemma triple_chips_default content :
  heap_triple (λ _, True) (SystemPromptChipsSchema.default content)
    (λ cs h, named_map (cs_chips cs) h).
Proof.
  unfold SystemPromptChipsSchema.default.
  eapply triple_bind; [apply triple_chip_new|]. intros l. simpl.
  eapply triple_weaken; [apply (triple_ret _ (λ cs h, named_map (cs_chips cs) h))| |done].
  simpl. intros h _ (m & Hl & _) key l' Hk.
  rewrite lookup_insert in Hk. case_decide; [|by rewrite lookup_empty in Hk].
  simplify_eq. eexists. split; [exact Hl|done].
Qed.

Lemma chip_of_content_raise key content h e h' :
  SystemPrompt.chip_of_content key content h = (Raise e, h') → benign e.
Proof.
  unfold benign, SystemPrompt.chip_of_content, SystemPromptChipsSchema._normalize_chip,
    SystemPromptChipSchema_of_payload, SystemPromptChipSchema_new, model_copy_with_name,
    bind, ret, raise, new_chip, new_metadata, read_chip, read_metadata.
  intros H. destruct content as [s|l|p|]; simpl in H;
    repeat case_match; simplify_eq; auto.
Qed.

Lemma chip_of_content_str key s h :
  SystemPrompt.chip_of_content key (VStr s) h
  = (Return (length (chip_objs h)),
     {| chip_objs := chip_objs h
                     ++ [SystemPromptChipSchema.mk key s (length (meta_objs h))];
        meta_objs := meta_objs h ++ [SystemPromptChipMetadataSchema.default] |}).
Proof. reflexivity. Qed.

(** ** Python lists *)

Lemma list_contains_elem_of x l : list_contains x l = true ↔ x ∈ l.
Proof.
  unfold list_contains. rewrite existsb_exists. split.
  - intros (y & Hy & Heq). apply String.eqb_eq in Heq as ->. by apply list_elem_of_In.
  - intros Hx. exists x. split; [by apply list_elem_of_In|apply String.eqb_refl].
Qed.

Lemma list_contains_not_elem_of x l : list_contains x l = false ↔ x ∉ l.
Proof.
  rewrite <- list_contains_elem_of. destruct (list_contains x l); naive_solver.
Qed.

Lemma list_insert_at_length {A} (index : Z) (x : A) (l : list A) :
  length (list_insert_at index x l) = S (length l).
Proof.
  unfold list_insert_at. rewrite length_app. simpl.
  rewrite length_take, length_drop. lia.
Qed.

Lemma list_insert_at_in_range {A} (index : Z) (x : A) (l : list A) :
  (0 ≤ index ≤ Z.of_nat (length l))%Z →
  list_insert_at index x l = take (Z.to_nat index) l ++ x :: drop (Z.to_nat index) l.
Proof.
  intros Hr. unfold list_insert_at.
  destruct (index <? 0)%Z eqn:Hneg; [apply Z.ltb_lt in Hneg; lia|].
  by rewrite Z.min_l by lia.
Qed.

Lemma list_remove_first_length x l l' :
  list_remove_first x l = Some l' → length l = S (length l').
Proof.
  revert l'. induction l as [|y l IH]; intros l'; simpl; [done|].
  destruct (String.eqb y x); [by intros [= ->]|].
  destruct (list_remove_first x l) as [r|]; [|done].
  intros [= <-]. simpl. by rewrite (IH r).
Qed.

Lemma list_remove_first_contains x l :
  list_contains x l = true → is_Some (list_remove_first x l).
Proof.
  unfold list_contains. induction l as [|y l IH]; simpl; [done|].
  rewrite String.eqb_sym. destruct (String.eqb y x); simpl; [by eexists|].
  intros H. destruct (IH H) as [r ->]. by eexists.
Qed.

(** ** What the methods do to a state *)

Arguments SystemPrompt.chip_of_content : simpl never.
Arguments SystemPrompt.chips_of_content : simpl never.
Arguments list_insert_at : simpl never.
Arguments list_remove_first : simpl never.
Arguments list_contains : simpl never.

Lemma add_run key content st :
  SystemPrompt.add key content st
  = if bool_decide (is_Some (st_map st !! key)) then (Raise DuplicateKeyError, st)
    else match SystemPrompt.chip_of_content key content (st_heap st) with
         | (Return l, h') =>
             (Return l,
              updated h' (<[key := l]> (st_map st))
                (if list_contains key (st_order st) then st_order st
                 else st_order st ++ [key]) st)
         | (Raise e, h') => (Raise e, {| st_heap := h'; st_self := st_self st |})
         end.
Proof.
  unfold SystemPrompt.add, SystemPrompt.the_chips, SystemPrompt.the_order,
    SystemPrompt.set_chip_map, SystemPrompt.set_order, SystemPrompt.set_chips,
    SystemPrompt.on_heap, updated, bind, ret, raise, gets, modify.
  simpl. case_bool_decide; [done|].
  destruct (SystemPrompt.chip_of_content key content (st_heap st)) as [[l|e] h']; [|done].
  simpl. by destruct (list_contains key (st_order st)).
Qed.

Lemma insert_run key content index st :
  SystemPrompt.insert key content index st
  = if bool_decide (is_Some (st_map st !! key)) then (Raise DuplicateKeyError, st)
    else if (index <? 0)%Z || (Z.of_nat (length (st_order st)) <? index)%Z
    then (Raise IndexRangeError, st)
    else match SystemPrompt.chip_of_content key content (st_heap st) with
         | (Return l, h') =>
             (Return l,
              updated h' (<[key := l]> (st_map st))
                (list_insert_at index key (st_order st)) st)
         | (Raise e, h') => (Raise e, {| st_heap := h'; st_self := st_self st |})
         end.
Proof.
  unfold SystemPrompt.insert, SystemPrompt.the_chips, SystemPrompt.the_order,
    SystemPrompt.set_chip_map, SystemPrompt.set_order, SystemPrompt.set_chips,
    SystemPrompt.on_heap, updated, bind, ret, raise, gets, modify.
  simpl. case_bool_decide; [done|].
  destruct ((index <? 0)%Z || (Z.of_nat (length (st_order st)) <? index)%Z); [done|].
  by destruct (SystemPrompt.chip_of_content key content (st_heap st)) as [[l|e] h'].
Qed.

Lemma update_run content key st :
  SystemPrompt.update content key st
  = match SystemPrompt.chip_of_content key content (st_heap st) with
    | (Return l, h') =>
        (Return tt,
         updated h' (<[key := l]> (st_map st))
           (if list_contains key (st_order st) then st_order st
            else st_order st ++ [key]) st)
    | (Raise e, h') => (Raise e, {| st_heap := h'; st_self := st_self st |})
    end.
Proof.
  unfold SystemPrompt.update, SystemPrompt.the_chips, SystemPrompt.the_order,
    SystemPrompt.set_chip_map, SystemPrompt.set_order, SystemPrompt.set_chips,
    SystemPrompt.on_heap, updated, bind, ret, raise, gets, modify.
  simpl.
  destruct (SystemPrompt.chip_of_content key content (st_heap st)) as [[l|e] h']; [|done].
  simpl. by destruct (list_contains key (st_order st)).
Qed.

Lemma move_run key index st :
  SystemPrompt.move key index st
  = if negb (bool_decide (is_Some (st_map st !! key))) then (Raise KeyNotFoundError, st)
    else if negb (list_contains key (st_order st)) then (Raise KeyNotFoundError, st)
    else if (index <? 0)%Z || (Z.of_nat (length (st_order st)) <=? index)%Z
    then (Raise IndexRangeError, st)
    else match list_remove_first key (st_order st) with
         | Some o' =>
             (Return tt, updated (st_heap st) (st_map st) (list_insert_at index key o') st)
         | None => (Raise ListRemoveError, st)
         end.
Proof.
  unfold SystemPrompt.move, SystemPrompt.the_chips, SystemPrompt.the_order,
    SystemPrompt.set_order, SystemPrompt.set_chips, updated, bind, ret, raise, gets, modify.
  simpl. case_bool_decide; [|done]. simpl.
  destruct (list_contains key (st_order st)); [|done]. simpl.
  destruct ((index <? 0)%Z || (Z.of_nat (length (st_order st)) <=? index)%Z); [done|].
  by destruct (list_remove_first key (st_order st)).
Qed.

Lemma occurrences_app key l1 l2 :
  occurrences key (l1 ++ l2) = occurrences key l1 + occurrences key l2.
Proof. unfold occurrences. by rewrite List.filter_app, length_app. Qed.

Lemma occurrences_cons_eq key l : occurrences key (key :: l) = S (occurrences key l).
Proof. unfold occurrences. simpl. by rewrite String.eqb_refl. Qed.

Lemma occurrences_elem_of key l : key ∈ l → 1 ≤ occurrences key l.
Proof.
  induction 1 as [x l|x y l Hin IH].
  - rewrite occurrences_cons_eq. lia.
  - change (y :: l) with ([y] ++ l). rewrite occurrences_app. lia.
Qed.

Lemma occurrences_insert_at key index l :
  occurrences key (list_insert_at index key l) = S (occurrences key l).
Proof.
  unfold list_insert_at.
  rewrite occurrences_app, occurrences_cons_eq, Nat.add_succ_r, <- occurrences_app.
  by rewrite take_drop.
Qed.

(** ** The collection of a single string *)

Lemma chips_default_run s h :
  SystemPromptChipsSchema.default s h = (Return (default_chips h), default_heap s h).
Proof. reflexivity. Qed.

Lemma default_chip_at s h :
  chip_at (default_heap s h) (default_chips h) DEFAULT_SYSTEM_PROMPT_CHIP_KEY
  = Some (SystemPromptChipSchema.mk DEFAULT_SYSTEM_PROMPT_CHIP_KEY s (length (meta_objs h))).
Proof.
  unfold chip_at, default_chips, default_heap. cbn [cs_chips chip_objs].
  rewrite lookup_singleton_eq. by rewrite lookup_app_r, Nat.sub_diag.
Qed.

Lemma default_ignore_at s h :
  ignore_at (default_heap s h) (default_chips h) DEFAULT_SYSTEM_PROMPT_CHIP_KEY = Some false.
Proof.
  unfold ignore_at. rewrite default_chip_at. unfold default_heap.
  cbn [chip_metadata meta_objs]. by rewrite lookup_app_r, Nat.sub_diag.
Qed.

Lemma default_to_str s h :
  SystemPromptChipsSchema.to_str (default_chips h) (default_heap s h)
  = (Return s, default_heap s h).
Proof.
  assert (Hl : cs_chips (default_chips h) !! DEFAULT_SYSTEM_PROMPT_CHIP_KEY
               = Some (length (chip_objs h))) by apply lookup_singleton_eq.
  assert (Hc : chip_objs (default_heap s h) !! length (chip_objs h)
               = Some (SystemPromptChipSchema.mk DEFAULT_SYSTEM_PROMPT_CHIP_KEY s
                         (length (meta_objs h)))).
  { unfold default_heap. cbn [chip_objs]. by rewrite lookup_app_r, Nat.sub_diag. }
  assert (Hm : meta_objs (default_heap s h) !! length (meta_objs h)
               = Some SystemPromptChipMetadataSchema.default).
  { unfold default_heap. cbn [meta_objs]. by rewrite lookup_app_r, Nat.sub_diag. }
  unfold SystemPromptChipsSchema.to_str, bind.
  change (cs_order (default_chips h)) with [DEFAULT_SYSTEM_PROMPT_CHIP_KEY].
  cbn [SystemPromptChipsSchema.to_str_parts]. rewrite Hl.
  unfold bind, read_chip, read_metadata. rewrite Hc. cbn [chip_metadata].
  rewrite Hm. reflexivity.
Qed.

(** ** First occurrences *)

Lemma filter_filter_comm {A} (P Q : A → bool) (l : list A) :
  List.filter P (List.filter Q l) = List.filter Q (List.filter P l).
Proof.
  induction l as [|x l IH]; [done|]. cbn [List.filter].
  destruct (P x) eqn:HP, (Q x) eqn:HQ; cbn [List.filter];
    rewrite ?HP, ?HQ, ?IH; done.
Qed.

Lemma filter_filter_absorb {A} (P Q : A → bool) (l : list A) :
  (∀ x, Q x = false → P x = false) →
  List.filter P (List.filter Q l) = List.filter P l.
Proof.
  intros H. induction l as [|x l IH]; [done|]. cbn [List.filter].
  destruct (Q x) eqn:HQ; cbn [List.filter].
  - by rewrite IH.
  - by rewrite (H x HQ).
Qed.

Lemma first_occurrences_filter (P : string → bool) (l : list string) :
  first_occurrences (List.filter P l) = List.filter P (first_occurrences l).
Proof.
  induction l as [|x l IH]; [done|]. cbn [List.filter first_occurrences].
  destruct (P x) eqn:HP; cbn [first_occurrences List.filter].
  - rewrite IH. f_equal. apply filter_filter_comm.
  - rewrite IH. symmetry. apply filter_filter_absorb.
    intros y Hy. apply negb_false_iff, String.eqb_eq in Hy. by subst.
Qed.

Lemma elem_of_filter_bool (P : string → bool) (l : list string) x :
  x ∈ List.filter P l ↔ x ∈ l ∧ P x = true.
Proof. rewrite !list_elem_of_In. apply filter_In. Qed.

Lemma elem_of_first_occurrences x l : x ∈ first_occurrences l ↔ x ∈ l.
Proof.
  induction l as [|y l IH]; [done|]. cbn [first_occurrences].
  rewrite !elem_of_cons, elem_of_filter_bool, IH. cbn beta.
  rewrite negb_true_iff, String.eqb_neq.
  destruct (decide (x = y)) as [->|Hne]; [by split; auto|].
  split; [by intros [?|[? ?]]; auto|by intros [?|?]; auto].
Qed.

Lemma NoDup_filter_bool (P : string → bool) (l : list string) :
  NoDup l → NoDup (List.filter P l).
Proof.
  induction 1 as [|x l Hx Hl IH]; cbn [List.filter]; [constructor|].
  destruct (P x); [|done]. constructor; [|done].
  rewrite elem_of_filter_bool. by intros [? _].
Qed.

Lemma NoDup_first_occurrences l : NoDup (first_occurrences l).
Proof.
  induction l as [|x l IH]; cbn [first_occurrences]; constructor.
  - rewrite elem_of_filter_bool, String.eqb_refl. by intros [_ ?].
  - by apply NoDup_filter_bool.
Qed.

Lemma filter_all_true (P : string → bool) (l : list string) :
  (∀ x, x ∈ l → P x = true) → List.filter P l = l.
Proof.
  induction l as [|x l IH]; intros H; [done|]. cbn [List.filter].
  rewrite (H x) by left. f_equal. apply IH. intros y Hy. apply H. by right.
Qed.

Lemma first_occurrences_NoDup l : NoDup l → first_occurrences l = l.
Proof.
  induction 1 as [|x l Hx Hl IH]; [done|]. cbn [first_occurrences].
  rewrite IH. f_equal. apply filter_all_true.
  intros y Hy. apply negb_true_iff, String.eqb_neq. by intros ->.
Qed.

(** ** Metadata objects and [ignore] *)

Lemma NoDup_omap_inj {A B} (f : A → option B) (l : list A) x y b :
  NoDup (omap f l) → x ∈ l → y ∈ l → f x = Some b → f y = Some b → x = y.
Proof.
  induction l as [|z l IH]; intros Hnd Hx Hy Hfx Hfy; [by apply elem_of_nil in Hx|].
  cbn in Hnd.
  apply elem_of_cons in Hx as [->|Hx], Hy as [->|Hy]; [done| | |].
  - rewrite Hfx in Hnd. apply NoDup_cons in Hnd as [Hnot _].
    destruct Hnot. apply list_elem_of_omap. eauto.
  - rewrite Hfy in Hnd. apply NoDup_cons in Hnd as [Hnot _].
    destruct Hnot. apply list_elem_of_omap. eauto.
  - destruct (f z); [apply NoDup_cons in Hnd as [_ Hnd]|]; eauto.
Qed.

Lemma unshared_spec h cs key1 key2 m :
  unshared h cs = true →
  meta_at h cs key1 = Some m → meta_at h cs key2 = Some m → key1 = key2.
Proof.
  unfold unshared, meta_at, chip_at. intros Hnd%bool_decide_eq_true H1 H2.
  destruct (cs_chips cs !! key1) as [l1|] eqn:Hl1; [|done].
  destruct (cs_chips cs !! key2) as [l2|] eqn:Hl2; [|done].
  apply elem_of_map_to_list in Hl1, Hl2.
  by pose proof (NoDup_omap_inj _ _ (key1, l1) (key2, l2) m Hnd Hl1 Hl2 H1 H2) as [= ->].
Qed.

Lemma read_ignore_run h l c m :
  chip_objs h !! l = Some c → meta_objs h !! chip_metadata c = Some m →
  SystemPrompt.read_ignore l h = (Return (meta_ignore m), h).
Proof.
  intros Hc Hm. unfold SystemPrompt.read_ignore, bind, read_chip, read_metadata, ret.
  by rewrite Hc, Hm.
Qed.

Lemma assign_ignore_run h l c m b :
  chip_objs h !! l = Some c → meta_objs h !! chip_metadata c = Some m →
  SystemPrompt.assign_ignore l b h
  = (Return tt, assigned (chip_metadata c) b m h).
Proof.
  intros Hc Hm. unfold SystemPrompt.assign_ignore, bind, read_chip, write_ignore.
  by rewrite Hc, Hm.
Qed.

Lemma assigned_heap_ok l b m h : heap_ok h = true → heap_ok (assigned l b m h) = true.
Proof.
  intros Hh. apply heap_ok_intro. unfold assigned. cbn [chip_objs meta_objs].
  intros l' c Hc. rewrite length_insert. eauto using heap_ok_lookup.
Qed.

Lemma assigned_chip_at l b m h cs key : chip_at (assigned l b m h) cs key = chip_at h cs key.
Proof. done. Qed.

Lemma assigned_ignore_at l b m h cs key :
  meta_objs h !! l = Some m →
  ignore_at (assigned l b m h) cs key
  = if bool_decide (meta_at h cs key = Some l) then Some b else ignore_at h cs key.
Proof.
  intros Hm. unfold ignore_at, meta_at. rewrite assigned_chip_at.
  destruct (chip_at h cs key) as [c|]; [|by rewrite bool_decide_eq_false_2].
  unfold assigned. cbn [meta_objs fmap option_fmap option_map].
  case_bool_decide as Heq.
  - injection Heq as ->. rewrite list_lookup_insert_eq; [done|].
    by apply lookup_lt_Some in Hm.
  - rewrite list_lookup_insert_ne; [done|]. intros Hl. apply Heq. by rewrite Hl.
Qed.

Lemma ignore_at_lookup h cs key l c m :
  cs_chips cs !! key = Some l → chip_objs h !! l = Some c →
  meta_objs h !! chip_metadata c = Some m →
  ignore_at h cs key = Some (meta_ignore m) ∧ meta_at h cs key = Some (chip_metadata c).
Proof.
  intros Hl Hc Hm. unfold ignore_at, meta_at, chip_at. rewrite Hl, Hc. cbn. by rewrite Hm.
Qed.

Lemma ignored_missing h cs key : cs_chips cs !! key = None → ignored h cs key = false.
Proof. intros H. unfold ignored, ignore_at, chip_at. by rewrite H. Qed.

Lemma filter_andb_bool {A} (P Q : A → bool) (l : list A) :
  List.filter (λ x, P x && Q x) l = List.filter P (List.filter Q l).
Proof.
  induction l as [|x l IH]; [done|]. cbn [List.filter].
  destruct (Q x) eqn:HQ; cbn [List.filter]; rewrite ?andb_false_r, ?andb_true_r, IH; [|done].
  by destruct (P x).
Qed.

Lemma wakeup_all_loop_spec me keys :
  ∀ h waked,
    heap_ok h = true → chips_ok h (SystemPrompt.chips me) = true →
    unshared h (SystemPrompt.chips me) = true →
    ∃ h',
      SystemPrompt.wakeup_all_loop keys waked {| st_heap := h; st_self := me |}
      = (Return (waked ++ first_occurrences
                             (List.filter (ignored h (SystemPrompt.chips me)) keys)),
         {| st_heap := h'; st_self := me |})
      ∧ chip_objs h' = chip_objs h
      ∧ length (meta_objs h') = length (meta_objs h)
      ∧ ∀ key, ignore_at h' (SystemPrompt.chips me) key
               = if ignored h (SystemPrompt.chips me) key && list_contains key keys
                 then Some false
                 else ignore_at h (SystemPrompt.chips me) key.
Proof.
  set (cs := SystemPrompt.chips me).
  induction keys as [|key rest IH]; intros h waked Hh Hc Hu.
  - exists h. cbn [SystemPrompt.wakeup_all_loop List.filter first_occurrences].
    rewrite app_nil_r. split; [done|]. split; [done|]. split; [done|].
    intros key. by rewrite andb_false_r.
  - cbn [SystemPrompt.wakeup_all_loop].
    unfold bind at 1, SystemPrompt.the_chips at 1, gets at 1.
    cbn [st_self]. fold cs.
    destruct (cs_chips cs !! key) as [l|] eqn:Hl.
    + destruct (chips_ok_chip _ _ _ _ Hc Hl) as [c Hchip].
      destruct (heap_ok_meta _ _ _ Hh Hchip) as [m Hm].
      destruct (ignore_at_lookup _ _ _ _ _ _ Hl Hchip Hm) as [Hig Hmeta].
      unfold bind at 1, SystemPrompt.on_heap at 1. cbn [st_heap st_self].
      rewrite (read_ignore_run _ _ _ _ Hchip Hm).
      assert (Hkey : ignored h cs key = meta_ignore m).
      { unfold ignored. rewrite Hig. by destruct (meta_ignore m). }
      cbn [List.filter]. rewrite Hkey.
      destruct (meta_ignore m) eqn:Hm_ig.
      * unfold bind at 1, SystemPrompt.on_heap at 1. cbn [st_heap st_self].
        rewrite (assign_ignore_run _ _ _ _ false Hchip Hm).
        set (h1 := assigned (chip_metadata c) false m h).
        assert (Hstep : ∀ key', ignore_at h1 cs key'
                  = if bool_decide (key' = key) then Some false else ignore_at h cs key').
        { intros key'. unfold h1. rewrite assigned_ignore_at by done.
          destruct (bool_decide (key' = key)) eqn:Hk.
          - apply bool_decide_eq_true in Hk as ->. by rewrite bool_decide_eq_true_2.
          - apply bool_decide_eq_false in Hk. rewrite bool_decide_eq_false_2; [done|].
            intros Hshare. apply Hk. eauto using unshared_spec. }
        destruct (IH h1 (waked ++ [key])) as (h' & Hrun & Hco & Hlen & Hafter).
        { by apply assigned_heap_ok. }
        { done. }
        { done. }
        exists h'. split; [|split; [|split]].
        -- rewrite Hrun. f_equal. f_equal. rewrite <- app_assoc. cbn [app]. f_equal.
           cbn [first_occurrences]. f_equal.
           rewrite <- first_occurrences_filter, <- filter_andb_bool. f_equal.
           apply filter_ext. intros x. unfold ignored. rewrite Hstep.
           destruct (bool_decide (x = key)) eqn:Hx.
           ++ apply bool_decide_eq_true in Hx as ->. by rewrite String.eqb_refl.
           ++ apply bool_decide_eq_false, String.eqb_neq in Hx. by rewrite Hx.
        -- by rewrite Hco.
        -- rewrite Hlen. unfold h1, assigned. cbn [meta_objs]. apply length_insert.
        -- intros key'. rewrite Hafter. unfold ignored. rewrite !Hstep.
           unfold list_contains. cbn [existsb].
           destruct (bool_decide (key' = key)) eqn:Hk.
           ++ apply bool_decide_eq_true in Hk as ->. rewrite Hig, String.eqb_refl. done.
           ++ apply bool_decide_eq_false, String.eqb_neq in Hk. rewrite Hk. done.
      * destruct (IH h waked Hh Hc Hu) as (h' & Hrun & Hco & Hlen & Hafter).
        exists h'. split; [done|]. split; [done|]. split; [done|].
        intros key'. rewrite Hafter. unfold list_contains. cbn [existsb].
        destruct (String.eqb key' key) eqn:Hk; [|done].
        apply String.eqb_eq in Hk as ->. rewrite Hkey. cbn [andb orb].
        destruct (ignored h cs key && existsb (String.eqb key) rest) eqn:Hb; [|done].
        by rewrite Hkey in Hb.
    + destruct (IH h waked Hh Hc Hu) as (h' & Hrun & Hco & Hlen & Hafter).
      cbn [List.filter]. rewrite (ignored_missing _ _ _ Hl).
      exists h'. split; [done|]. split; [done|]. split; [done|].
      intros key'. rewrite Hafter. unfold list_contains. cbn [existsb].
      destruct (String.eqb key' key) eqn:Hk; [|done].
      apply String.eqb_eq in Hk as ->. by rewrite (ignored_missing _ _ _ Hl).
Qed.

(** ** Names follow keys *)

Lemma names_ok_named_map h cs : names_ok h cs = true ↔ named_map (cs_chips cs) h.
Proof.
  unfold names_ok, named_map, named_at. rewrite forallb_forall. split.
  - intros Hall key l Hl. apply elem_of_map_to_list, list_elem_of_In, Hall in Hl.
    cbn in Hl. destruct (chip_objs h !! l) as [c|]; [|done].
    exists c. split; [done|]. by apply String.eqb_eq.
  - intros Hm [key l] Hkl. apply list_elem_of_In, elem_of_map_to_list, Hm in Hkl
      as (c & Hc & Hn). cbn. rewrite Hc. by apply String.eqb_eq.
Qed.




Lemma heap_ok_same_shape h h' :
  chip_objs h' = chip_objs h → length (meta_objs h') = length (meta_objs h) →
  heap_ok h = true → heap_ok h' = true.
Proof.
  intros Hc Hm Hh. apply heap_ok_intro. rewrite Hc, Hm. eauto using heap_ok_lookup.
Qed.









(** Assignments to [ignore] leave chip objects alone. *)
Lemma assign_ignore_shape l b h r h' :
  SystemPrompt.assign_ignore l b h = (r, h') →
  chip_objs h' = chip_objs h ∧ length (meta_objs h') = length (meta_objs h).
Proof.
  unfold SystemPrompt.assign_ignore, bind, read_chip, write_ignore.
  repeat case_match; intros [= <- <-]; simplify_eq; simpl;
    rewrite ?length_insert; done.
Qed.

Lemma read_ignore_shape l h r h' : SystemPrompt.read_ignore l h = (r, h') → h' = h.
Proof.
  unfold SystemPrompt.read_ignore, bind, ret, read_chip, read_metadata.
  repeat case_match; intros [= <- <-]; simplify_eq; done.
Qed.

Lemma same_shape_refl st : same_shape st st.
Proof. by repeat split. Qed.

Lemma same_shape_trans st1 st2 st3 :
  same_shape st1 st2 → same_shape st2 st3 → same_shape st1 st3.
Proof. intros (?&?&?) (?&?&?). repeat split; congruence. Qed.


Lemma on_heap_assign_shape l b st r st' :
  SystemPrompt.on_heap (SystemPrompt.assign_ignore l b) st = (r, st') → same_shape st st'.
Proof.
  unfold SystemPrompt.on_heap.
  destruct (SystemPrompt.assign_ignore l b (st_heap st)) as [r0 h'] eqn:Hrun.
  intros [= <- <-]. destruct (assign_ignore_shape _ _ _ _ _ Hrun). by repeat split.
Qed.

Lemma on_heap_read_shape l st r st' :
  SystemPrompt.on_heap (SystemPrompt.read_ignore l) st = (r, st') → st' = st.
Proof.
  unfold SystemPrompt.on_heap.
  destruct (SystemPrompt.read_ignore l (st_heap st)) as [r0 h'] eqn:Hrun.
  intros [= <- <-]. apply read_ignore_shape in Hrun as ->. by destruct st.
Qed.

Lemma ignore_shape key st r st' :
  SystemPrompt.ignore key st = (r, st') → same_shape st st'.
Proof.
  unfold SystemPrompt.ignore, SystemPrompt.get, SystemPrompt.the_chips, bind at 1 2,
    gets, ret at 1. cbn beta iota.
  destruct (st_map st !! key) as [l|]; [|intros [= <- <-]; apply same_shape_refl].
  unfold bind.
  destruct (SystemPrompt.on_heap (SystemPrompt.assign_ignore l true) st)
    as [[[]|e] st1] eqn:Hrun; intros [= <- <-]; eauto using on_heap_assign_shape.
Qed.

Lemma wakeup_shape key st r st' :
  SystemPrompt.wakeup key st = (r, st') → same_shape st st'.
Proof.
  unfold SystemPrompt.wakeup, SystemPrompt.get, SystemPrompt.the_chips, bind at 1 2,
    gets, ret at 1. cbn beta iota.
  destruct (st_map st !! key) as [l|]; [|intros [= <- <-]; apply same_shape_refl].
  unfold bind.
  destruct (SystemPrompt.on_heap (SystemPrompt.assign_ignore l false) st)
    as [[[]|e] st1] eqn:Hrun; intros [= <- <-]; eauto using on_heap_assign_shape.
Qed.

Lemma toggle_shape key st r st' :
  SystemPrompt.toggle key st = (r, st') → same_shape st st'.
Proof.
  unfold SystemPrompt.toggle, SystemPrompt.get, SystemPrompt.the_chips, bind at 1 2,
    gets, ret at 1. cbn beta iota.
  destruct (st_map st !! key) as [l|]; [|intros [= <- <-]; apply same_shape_refl].
  unfold bind.
  destruct (SystemPrompt.on_heap (SystemPrompt.read_ignore l) st)
    as [[ig|e] st1] eqn:Hread; apply on_heap_read_shape in Hread as ->;
    [|intros [= <- <-]; apply same_shape_refl].
  destruct (SystemPrompt.on_heap (SystemPrompt.assign_ignore l (negb ig)) st)
    as [[[]|e] st1] eqn:Hrun; intros [= <- <-]; eauto using on_heap_assign_shape.
Qed.

Lemma wakeup_all_loop_shape keys :
  ∀ waked st r st',
    SystemPrompt.wakeup_all_loop keys waked st = (r, st') → same_shape st st'.
Proof.
  induction keys as [|key rest IH]; intros waked st r st'.
  - intros [= <- <-]. apply same_shape_refl.
  - cbn [SystemPrompt.wakeup_all_loop].
    unfold bind at 1, SystemPrompt.the_chips at 1, gets at 1.
    destruct (st_map st !! key) as [l|]; [|apply IH].
    unfold bind at 1.
    destruct (SystemPrompt.on_heap (SystemPrompt.read_ignore l) st)
      as [[ig|e] st1] eqn:Hread; apply on_heap_read_shape in Hread as ->;
      [|intros [= <- <-]; apply same_shape_refl].
    destruct ig; [|apply IH].
    unfold bind at 1.
    destruct (SystemPrompt.on_heap (SystemPrompt.assign_ignore l false) st)
      as [[[]|e] st1] eqn:Hrun; apply on_heap_assign_shape in Hrun.
    + intros Hloop. apply IH in Hloop. eauto using same_shape_trans.
    + by intros [= <- <-].
Qed.

Lemma wakeup_all_shape st r st' :
  SystemPrompt.wakeup_all st = (r, st') → same_shape st st'.
Proof.
  unfold SystemPrompt.wakeup_all, bind, SystemPrompt.the_order, gets.
  apply wakeup_all_loop_shape.
Qed.

Lemma triple_chips_of_content content :
  heap_triple (λ h, trusted h content = true) (SystemPrompt.chips_of_content content)
    (λ cs h, named_map (cs_chips cs) h).
Proof.
  destruct content as [s|d|cs|]; unfold SystemPrompt.chips_of_content.
  - eapply triple_weaken; [apply triple_chips_default|done|done].
  - eapply triple_weaken; [apply triple_from_dict|done|]. by intros cs h _ [? _].
  - eapply triple_weaken;
      [apply (triple_ret cs (λ cs h, named_map (cs_chips cs) h))| |done].
    simpl. intros h _ Hn. by apply names_ok_named_map.
  - apply triple_raise_schema.
Qed.



(** A call whose result is dropped leaves the state of the call. *)
Lemma drop_result_run {A} (c : M SystemPrompt.state A) st r st' :
  (c ;;; ret tt) st = (r, st') → ∃ r0, c st = (r0, st').
Proof.
  unfold bind, ret. destruct (c st) as [[a|e] st1]; intros [= <- <-]; eauto.
Qed.



(** * The claims *)

(** C1. Flat-text rendering walks [order], drops the keys without a chip
    and the keys of ignored chips, and joins the contents left with
    [splitter].  A key without a chip changes nothing, wherever it stands
    in [order] and however often: the output is that of [order] without it.
    An ignored first chip contributes nothing, so [a, b] with [a] ignored
    renders as the content of [b] alone.  When nothing is left the result
    is the empty string, returned, not raised. *)
Theorem C1_to_str_skips_and_joins (h : Heap) (self : SystemPromptChipsSchema.t) :
  heap_ok h = true → chips_ok h self = true →
  SystemPromptChipsSchema.to_str self h
  = (Return (str_join (cs_splitter self) (omap (rendered h self) (cs_order self))), h)
  ∧ (∀ key o1 o2,
       cs_order self = o1 ++ key :: o2 → cs_chips self !! key = None →
       SystemPromptChipsSchema.to_str self h
       = SystemPromptChipsSchema.to_str (with_order (o1 ++ o2) self) h)
  ∧ (∀ key,
       cs_chips self !! key = None →
       SystemPromptChipsSchema.to_str self h
       = SystemPromptChipsSchema.to_str
           (with_order (List.filter (λ k, negb (String.eqb k key)) (cs_order self)) self) h)
  ∧ (∀ a rest,
       cs_order self = a :: rest → ignore_at h self a = Some true →
       SystemPromptChipsSchema.to_str self h
       = SystemPromptChipsSchema.to_str (with_order rest self) h)
  ∧ (∀ a b cb,
       cs_order self = [a; b] → ignore_at h self a = Some true →
       chip_at h self b = Some cb → ignore_at h self b = Some false →
       SystemPromptChipsSchema.to_str self h = (Return (chip_content cb), h))
  ∧ ((∀ key, key ∈ cs_order self → rendered h self key = None) →
       SystemPromptChipsSchema.to_str self h = (Return EmptyString, h)).
Proof.
  intros Hh Hc.
  assert (Hw : ∀ o, SystemPromptChipsSchema.to_str (with_order o self) h
    = (Return (str_join (cs_splitter self) (omap (rendered h self) o)), h)).
  { intros o. by rewrite to_str_spec. }
  rewrite to_str_spec by done.
  split; [done|]. split; [|split; [|split; [|split]]].
  - intros key o1 o2 Ho Hk. rewrite Hw, Ho, !omap_app. simpl.
    by rewrite (rendered_missing _ _ _ Hk).
  - intros key Hk. rewrite Hw, omap_filter_none; [done|].
    intros x Hx. apply negb_false_iff, String.eqb_eq in Hx as ->.
    by apply rendered_missing.
  - intros a rest Ho Ha. rewrite Hw, Ho. simpl.
    by rewrite (rendered_ignored _ _ _ Ha).
  - intros a b cb Ho Ha Hb Hib. rewrite Ho. simpl.
    rewrite (rendered_ignored _ _ _ Ha). unfold rendered. by rewrite Hb, Hib.
  - intros Hall. by rewrite omap_all_none.
Qed.

Lemma C1_to_str_skips_and_joins_witness :
  heap_ok sample_heap = true ∧ chips_ok sample_heap sample_chips = true
  ∧ SystemPromptChipsSchema.to_str sample_chips sample_heap = (Return "B", sample_heap)
  ∧ SystemPromptChipsSchema.to_str sample_chips sample_heap
    = SystemPromptChipsSchema.to_str (with_order ["a"; "b"] sample_chips) sample_heap
  ∧ SystemPromptChipsSchema.to_str (with_order ["a"; "ghost"] sample_chips) sample_heap
    = (Return EmptyString, sample_heap).
Proof.
  split; [reflexivity|]. split; [reflexivity|].
  destruct (C1_to_str_skips_and_joins sample_heap sample_chips eq_refl eq_refl)
    as (Hmain & Hdangling & _).
  split; [rewrite Hmain; reflexivity|].
  split; [exact (Hdangling "ghost" ["a"] ["b"] eq_refl eq_refl)|].
  destruct (C1_to_str_skips_and_joins sample_heap
              (with_order ["a"; "ghost"] sample_chips) eq_refl eq_refl)
    as (_ & _ & _ & _ & _ & Hempty).
  apply Hempty. intros key Hkey.
  apply list_elem_of_In in Hkey. simpl in Hkey.
  destruct Hkey as [<-|[<-|[]]]; reflexivity.
Defined.

(** C2. The scenario: built from the record with order [a, b], the composer
    has order [a, x, b] after [insert("x", "X", 1)], order [x, a, b] after
    the following [move("x", 0)], and then renders, in flat text, as
    X, two newlines, A, two newlines, B. *)
Theorem C2_insert_move_render_scenario :
  ∃ st0 st1 st2 chip,
    constructed (SystemPrompt.ContentDict scenario_data) None None empty_heap = Some st0
    ∧ SystemPrompt.insert "x" (VStr "X") 1 st0 = (Return chip, st1)
    ∧ st_order st1 = ["a"; "x"; "b"]
    ∧ SystemPrompt.move "x" 0 st1 = (Return tt, st2)
    ∧ st_order st2 = ["x"; "a"; "b"]
    ∧ SystemPrompt.get_system_prompt SystemPrompt.TypeNone st2
      = (Return ("X" +:+ NL +:+ NL +:+ "A" +:+ NL +:+ NL +:+ "B"), st2).
Proof.
  exists scenario_built, scenario_inserted, scenario_moved, 2.
  repeat split; vm_compute; reflexivity.
Qed.

(** C3. With [key] absent from [chips], [insert(key, content, index)] needs
    [0 <= index <= len(order)]: inside the range a call that returns has
    made [order] one longer (and a call with a string content does return),
    outside it raises [IndexRangeError].  With [key'] in [chips] and in
    [order], [move(key', index)] needs [0 <= index <= len(order) - 1]:
    inside the range it returns and leaves the length of [order] as it was,
    outside it raises [IndexRangeError].  The upper bounds differ by one: at
    [index = len(order)] the insertion is accepted and the move refused. *)
Theorem C3_insert_move_index_ranges
    (st : SystemPrompt.state) (key key' : string) (content : ChipValue) (index : Z) :
  let n := Z.of_nat (length (st_order st)) in
  (st_map st !! key = None →
   (if (0 <=? index)%Z && (index <=? n)%Z
    then match SystemPrompt.insert key content index st with
         | (Return _, st') => length (st_order st') = S (length (st_order st))
         | (Raise e, _) => benign e
         end
         ∧ ∀ s, ∃ chip st',
             SystemPrompt.insert key (VStr s) index st = (Return chip, st')
             ∧ length (st_order st') = S (length (st_order st))
    else SystemPrompt.insert key content index st = (Raise IndexRangeError, st))
   ∧ (∃ chip st', SystemPrompt.insert key (VStr EmptyString) n st = (Return chip, st'))
   ∧ SystemPrompt.insert key content (n + 1) st = (Raise IndexRangeError, st))
  ∧ (is_Some (st_map st !! key') → key' ∈ st_order st →
     (if (0 <=? index)%Z && (index <=? n - 1)%Z
      then ∃ st', SystemPrompt.move key' index st = (Return tt, st')
                  ∧ length (st_order st') = length (st_order st)
      else SystemPrompt.move key' index st = (Raise IndexRangeError, st))
     ∧ (∃ st', SystemPrompt.move key' (n - 1) st = (Return tt, st'))
     ∧ SystemPrompt.move key' n st = (Raise IndexRangeError, st)).
Proof.
  intros n. split.
  - intros Hkey.
    assert (Hins : ∀ c i, SystemPrompt.insert key c i st
      = if (i <? 0)%Z || (n <? i)%Z then (Raise IndexRangeError, st)
        else match SystemPrompt.chip_of_content key c (st_heap st) with
             | (Return l, h') =>
                 (Return l, updated h' (<[key := l]> (st_map st))
                              (list_insert_at i key (st_order st)) st)
             | (Raise e, h') => (Raise e, {| st_heap := h'; st_self := st_self st |})
             end).
    { intros c i. rewrite insert_run. case_bool_decide as Hd; [|done].
      rewrite Hkey in Hd. by destruct Hd. }
    split; [|split].
    + rewrite !Hins.
      destruct ((0 <=? index)%Z && (index <=? n)%Z) eqn:Hr.
      * apply andb_true_iff in Hr as [H0 Hn%Z.leb_le]. apply Z.leb_le in H0.
        assert ((index <? 0)%Z || (n <? index)%Z = false) as Hb.
        { apply orb_false_iff. split; apply Z.ltb_ge; lia. }
        split.
        -- rewrite Hb.
           destruct (SystemPrompt.chip_of_content key content (st_heap st))
             as [[l|e] h'] eqn:Hc.
           ++ simpl. apply list_insert_at_length.
           ++ eauto using chip_of_content_raise.
        -- intros s. rewrite Hins, Hb, chip_of_content_str. eexists _, _.
           split; [reflexivity|]. simpl. apply list_insert_at_length.
      * assert ((index <? 0)%Z || (n <? index)%Z = true) as ->; [|done].
        apply andb_false_iff in Hr as [Hr|Hr]; apply Z.leb_gt in Hr;
          apply orb_true_iff; [left|right]; apply Z.ltb_lt; lia.
    + rewrite Hins, chip_of_content_str.
      assert ((n <? 0)%Z || (n <? n)%Z = false) as ->; [|by eexists _, _].
      apply orb_false_iff. split; apply Z.ltb_ge; lia.
    + rewrite Hins.
      assert ((n + 1 <? 0)%Z || (n <? n + 1)%Z = true) as ->; [|done].
      apply orb_true_iff. right. apply Z.ltb_lt. lia.
  - intros Hkey' Hin.
    assert (Hpos : (1 ≤ n)%Z).
    { subst n. destruct (st_order st); [by apply elem_of_nil in Hin|simpl; lia]. }
    apply list_contains_elem_of in Hin.
    destruct (list_remove_first_contains _ _ Hin) as [o' Ho'].
    assert (Hmov : ∀ i, SystemPrompt.move key' i st
      = if (i <? 0)%Z || (n <=? i)%Z then (Raise IndexRangeError, st)
        else (Return tt, updated (st_heap st) (st_map st) (list_insert_at i key' o') st)).
    { intros i. rewrite move_run. rewrite bool_decide_eq_true_2 by done. simpl.
      by rewrite Hin, Ho'. }
    assert (Hlen : ∀ i, length (list_insert_at i key' o') = length (st_order st)).
    { intros i. rewrite list_insert_at_length. symmetry.
      by apply (list_remove_first_length key'). }
    split; [|split].
    + rewrite Hmov.
      destruct ((0 <=? index)%Z && (index <=? n - 1)%Z) eqn:Hr.
      * apply andb_true_iff in Hr as [H0 Hn%Z.leb_le]. apply Z.leb_le in H0.
        assert ((index <? 0)%Z || (n <=? index)%Z = false) as ->.
        { apply orb_false_iff. split; [apply Z.ltb_ge|apply Z.leb_gt]; lia. }
        eexists. split; [reflexivity|]. simpl. apply Hlen.
      * assert ((index <? 0)%Z || (n <=? index)%Z = true) as ->; [|done].
        apply andb_false_iff in Hr as [Hr|Hr]; apply Z.leb_gt in Hr;
          apply orb_true_iff; [left|right]; [apply Z.ltb_lt|apply Z.leb_le]; lia.
    + rewrite Hmov.
      assert ((n - 1 <? 0)%Z || (n <=? n - 1)%Z = false) as ->; [|by eexists].
      apply orb_false_iff. split; [apply Z.ltb_ge|apply Z.leb_gt]; lia.
    + rewrite Hmov.
      assert ((n <? 0)%Z || (n <=? n)%Z = true) as ->; [|done].
      apply orb_true_iff. right. apply Z.leb_le. lia.
Qed.

Lemma C3_insert_move_index_ranges_witness :
  st_map sample_state !! "x" = None
  ∧ is_Some (st_map sample_state !! "b") ∧ "b" ∈ st_order sample_state
  ∧ (∃ chip st', SystemPrompt.insert "x" (VStr "X") 3 sample_state = (Return chip, st')
                 ∧ length (st_order st') = 4)
  ∧ SystemPrompt.insert "x" (VStr "X") 4 sample_state = (Raise IndexRangeError, sample_state)
  ∧ (∃ st', SystemPrompt.move "b" 2 sample_state = (Return tt, st')
            ∧ length (st_order st') = 3)
  ∧ SystemPrompt.move "b" 3 sample_state = (Raise IndexRangeError, sample_state).
Proof.
  assert (Hx : st_map sample_state !! "x" = None) by reflexivity.
  assert (Hb : is_Some (st_map sample_state !! "b")) by (by eexists).
  assert (Ho : "b" ∈ st_order sample_state) by (by apply list_contains_elem_of).
  split; [exact Hx|]. split; [exact Hb|]. split; [exact Ho|].
  destruct (C3_insert_move_index_ranges sample_state "x" "b" (VStr "X") 3)
    as [Hins3 Hmov3].
  destruct (Hins3 Hx) as ((_ & Hins3') & _ & Hins4).
  destruct (Hmov3 Hb Ho) as (_ & _ & Hmov3').
  destruct (C3_insert_move_index_ranges sample_state "x" "b" (VStr "X") 2)
    as [_ Hmov2].
  destruct (Hmov2 Hb Ho) as (Hmov2' & _).
  split; [exact (Hins3' "X")|]. split; [exact Hins4|]. split; [exact Hmov2'|exact Hmov3'].
Defined.

(** C4. When [chips] already holds [key], [add(key, content)] and
    [insert(key, content, index)] raise [DuplicateKeyError], whatever the
    content and the index, and the state at the raise is the state before
    the call: store, chip mapping and order are untouched. *)
Theorem C4_duplicate_key_rejected_untouched
    (st : SystemPrompt.state) (key : string) (content : ChipValue) (index : Z) :
  is_Some (st_map st !! key) →
  SystemPrompt.add key content st = (Raise DuplicateKeyError, st)
  ∧ SystemPrompt.insert key content index st = (Raise DuplicateKeyError, st).
Proof.
  intros Hkey. rewrite add_run, insert_run.
  by rewrite bool_decide_eq_true_2 by done.
Qed.

Lemma C4_duplicate_key_rejected_untouched_witness :
  is_Some (st_map sample_state !! "a")
  ∧ SystemPrompt.add "a" (VStr "dup") sample_state = (Raise DuplicateKeyError, sample_state)
  ∧ SystemPrompt.insert "a" (VStr "dup") 0 sample_state
    = (Raise DuplicateKeyError, sample_state).
Proof.
  assert (Ha : is_Some (st_map sample_state !! "a")) by (by eexists).
  split; [exact Ha|].
  exact (C4_duplicate_key_rejected_untouched sample_state "a" (VStr "dup") 0 Ha).
Defined.




(** C6, as stated, fails on a state with a dangling entry: [k] has no chip
    and stands first in [order]; [update("K", "k")] returns and leaves
    [order] as it was, instead of appending [k] to its end. *)
Lemma C6_counterexample :
  st_map dangling_state !! "k" = None
  ∧ ∃ st', SystemPrompt.update (VStr "K") "k" dangling_state = (Return tt, st')
           ∧ st_order st' = ["k"; "b"]
           ∧ st_order st' ≠ st_order dangling_state ++ ["k"].
Proof.
  split; [reflexivity|]. eexists. split; [reflexivity|]. split; [reflexivity|].
  simpl. discriminate.
Qed.

(** C6, amended.  [update(content, key)] never fails for a missing key: its
    only failures are those of building the chip from [content], whether
    [key] is there or not.  When the chip is built, it is stored under
    [key], replacing whatever was there, and it is the chip [insert] would
    store for the same content.  What happens to [order] depends on [order]
    alone: a key that occurs in it keeps its place and is not appended
    again, a key that does not is appended at the end.  A string content
    always succeeds and leaves under [key] a chip named [key], with that
    content and not ignored. *)
Theorem C6_update_upserts_by_order
    (st : SystemPrompt.state) (content : ChipValue) (key : string) :
  match SystemPrompt.chip_of_content key content (st_heap st) with
  | (Return chip, h') =>
      ∃ order',
        SystemPrompt.update content key st
        = (Return tt, updated h' (<[key := chip]> (st_map st)) order' st)
        ∧ (key ∈ st_order st → order' = st_order st)
        ∧ (key ∉ st_order st → order' = st_order st ++ [key])
        ∧ (∀ index, st_map st !! key = None →
             (0 ≤ index ≤ Z.of_nat (length (st_order st)))%Z →
             SystemPrompt.insert key content index st
             = (Return chip,
                updated h' (<[key := chip]> (st_map st))
                  (list_insert_at index key (st_order st)) st))
  | (Raise e, h') =>
      SystemPrompt.update content key st
      = (Raise e, {| st_heap := h'; st_self := st_self st |})
      ∧ benign e
  end
  ∧ ∀ s, ∃ st',
      SystemPrompt.update (VStr s) key st = (Return tt, st')
      ∧ chip_at (st_heap st') (st_chips st') key
        = Some (SystemPromptChipSchema.mk key s (length (meta_objs (st_heap st))))
      ∧ ignore_at (st_heap st') (st_chips st') key = Some false.
Proof.
  split.
  - rewrite update_run.
    destruct (SystemPrompt.chip_of_content key content (st_heap st))
      as [[chip|e] h'] eqn:Hchip.
    + eexists. split; [reflexivity|]. split; [|split].
      * intros Hin. apply list_contains_elem_of in Hin. by rewrite Hin.
      * intros Hout. apply list_contains_not_elem_of in Hout. by rewrite Hout.
      * intros index Hkey Hrange. rewrite insert_run, Hchip.
        rewrite bool_decide_eq_false_2 by (rewrite Hkey; by intros []).
        assert ((index <? 0)%Z || (Z.of_nat (length (st_order st)) <? index)%Z = false)
          as ->; [|done].
        apply orb_false_iff. split; apply Z.ltb_ge; lia.
    + split; [done|]. eauto using chip_of_content_raise.
  - intros s. rewrite update_run, chip_of_content_str. eexists. split; [reflexivity|].
    assert (Hc : chip_at
      (st_heap (updated
         {| chip_objs := chip_objs (st_heap st)
              ++ [SystemPromptChipSchema.mk key s (length (meta_objs (st_heap st)))];
            meta_objs := meta_objs (st_heap st) ++ [SystemPromptChipMetadataSchema.default] |}
         (<[key := length (chip_objs (st_heap st))]> (st_map st))
         (if list_contains key (st_order st) then st_order st else st_order st ++ [key]) st))
      (st_chips (updated
         {| chip_objs := chip_objs (st_heap st)
              ++ [SystemPromptChipSchema.mk key s (length (meta_objs (st_heap st)))];
            meta_objs := meta_objs (st_heap st) ++ [SystemPromptChipMetadataSchema.default] |}
         (<[key := length (chip_objs (st_heap st))]> (st_map st))
         (if list_contains key (st_order st) then st_order st else st_order st ++ [key]) st))
      key
      = Some (SystemPromptChipSchema.mk key s (length (meta_objs (st_heap st))))).
    { unfold chip_at, updated. cbn [st_heap st_self SystemPrompt.chips cs_chips chip_objs].
      rewrite lookup_insert_eq. by rewrite lookup_app_r, Nat.sub_diag. }
    split; [exact Hc|]. unfold ignore_at. rewrite Hc.
    unfold updated. cbn [st_heap chip_metadata meta_objs].
    by rewrite lookup_app_r, Nat.sub_diag.
Qed.

Lemma C6_update_upserts_by_order_witness :
  (∃ st', SystemPrompt.update (VStr "K") "k" dangling_state = (Return tt, st')
          ∧ st_order st' = ["k"; "b"]
          ∧ chip_at (st_heap st') (st_chips st') "k" = Some (SystemPromptChipSchema.mk "k" "K" 1))
  ∧ (∃ st', SystemPrompt.update (VStr "new") "default" dangling_state = (Return tt, st')
            ∧ st_order st' = ["k"; "b"; "default"]).
Proof.
  destruct (C6_update_upserts_by_order dangling_state (VStr "K") "k") as [_ Hstr].
  destruct (Hstr "K") as (st' & Hrun & Hchip & _).
  pose proof (C6_update_upserts_by_order dangling_state (VStr "new") "default") as [Hnew _].
  rewrite chip_of_content_str in Hnew. destruct Hnew as (order' & Hrun' & _ & Hout & _).
  split.
  - exists st'. split; [exact Hrun|]. split; [|exact Hchip].
    assert (Hst : (Return tt, st')
              = SystemPrompt.update (VStr "K") "k" dangling_state) by (by rewrite Hrun).
    by injection Hst as ->.
  - eexists. split; [exact Hrun'|]. simpl. apply Hout. by apply list_contains_not_elem_of.
Defined.

(** C7, as stated, fails when two chips share a metadata object.  A caller
    builds one chip instance and adds it under [a] and under [b]: the
    second [add] stores a renamed shallow copy, whose metadata is the
    metadata of the first.  After [ignore("a")] both chips are ignored, and
    [wakeup_all] returns [a] alone, although [b] is in [order] with a chip
    that was ignored when the call started. *)
Lemma C7_counterexample :
  ∃ st0 st1 st2 st3 st4 c1 c2 k,
    constructed (SystemPrompt.ContentDict empty_data) None None caller_heap = Some st0
    ∧ SystemPrompt.add "a" (VChip 0) st0 = (Return c1, st1)
    ∧ SystemPrompt.add "b" (VChip 0) st1 = (Return c2, st2)
    ∧ SystemPrompt.ignore "a" st2 = (Return k, st3)
    ∧ state_ok st3 = true
    ∧ unshared (st_heap st3) (st_chips st3) = false
    ∧ st_order st3 = ["a"; "b"]
    ∧ ignore_at (st_heap st3) (st_chips st3) "a" = Some true
    ∧ ignore_at (st_heap st3) (st_chips st3) "b" = Some true
    ∧ SystemPrompt.wakeup_all st3 = (Return ["a"], st4)
    ∧ "b" ∉ ["a"].
Proof.
  exists shared_built, shared_added_a, shared_added_b, shared_ignored,
    (SystemPrompt.wakeup_all shared_ignored).2, 0, 1, "a".
  split; [vm_compute; reflexivity|]. split; [vm_compute; reflexivity|].
  split; [vm_compute; reflexivity|]. split; [vm_compute; reflexivity|].
  split; [vm_compute; reflexivity|]. split; [vm_compute; reflexivity|].
  split; [vm_compute; reflexivity|]. split; [vm_compute; reflexivity|].
  split; [vm_compute; reflexivity|]. split; [vm_compute; reflexivity|].
  by apply list_contains_not_elem_of.
Qed.

(** C7, amended.  In a state whose references are valid and where no two
    keys hold chips with the same metadata object, [wakeup_all] returns,
    and returns the keys of [order] whose chip exists and was ignored when
    the call started, each once, in the sequence of their first positions
    in [order] (which is [order] filtered when [order] has no repetition).
    It changes nothing but [ignore]: the chips of the returned keys are
    awake afterwards, every other key has the [ignore] it had.  With [a]
    and [b] ignored, [c] awake and order [a, b, c] it returns [a, b], and
    all three chips are awake afterwards. *)
Theorem C7_wakeup_all_without_sharing :
  (∃ st', SystemPrompt.wakeup_all wake_state = (Return ["a"; "b"], st')
          ∧ ignore_at (st_heap st') (st_chips st') "a" = Some false
          ∧ ignore_at (st_heap st') (st_chips st') "b" = Some false
          ∧ ignore_at (st_heap st') (st_chips st') "c" = Some false)
  ∧ ∀ st,
      state_ok st = true → unshared (st_heap st) (st_chips st) = true →
      ∃ waked h',
        SystemPrompt.wakeup_all st
        = (Return waked, {| st_heap := h'; st_self := st_self st |})
        ∧ waked = first_occurrences
                    (List.filter (ignored (st_heap st) (st_chips st)) (st_order st))
        ∧ NoDup waked
        ∧ (∀ key, key ∈ waked
                  ↔ key ∈ st_order st
                    ∧ ignore_at (st_heap st) (st_chips st) key = Some true)
        ∧ (NoDup (st_order st) →
             waked = List.filter (ignored (st_heap st) (st_chips st)) (st_order st))
        ∧ chip_objs h' = chip_objs (st_heap st)
        ∧ ∀ key, ignore_at h' (st_chips st) key
                 = if bool_decide (key ∈ waked) then Some false
                   else ignore_at (st_heap st) (st_chips st) key.
Proof.
  split.
  { eexists. split; [reflexivity|]. split; [reflexivity|]. split; reflexivity. }
  intros [h me] [Hh Hc]%state_ok_split Hu. cbn [st_heap st_self] in *.
  destruct (wakeup_all_loop_spec me (cs_order (SystemPrompt.chips me)) h [] Hh Hc Hu)
    as (h' & Hrun & Hco & _ & Hafter).
  assert (Hmem : ∀ key,
    key ∈ first_occurrences
            (List.filter (ignored h (SystemPrompt.chips me)) (cs_order (SystemPrompt.chips me)))
    ↔ key ∈ cs_order (SystemPrompt.chips me)
      ∧ ignore_at h (SystemPrompt.chips me) key = Some true).
  { intros key. rewrite elem_of_first_occurrences, elem_of_filter_bool.
    unfold ignored. destruct (ignore_at h (SystemPrompt.chips me) key) as [[|]|];
      split; intros [? ?]; done. }
  eexists _, h'. split; [exact Hrun|]. cbn [app].
  split; [done|]. split; [apply NoDup_first_occurrences|]. split; [exact Hmem|].
  split; [|split; [exact Hco|]].
  - intros Hnd. apply first_occurrences_NoDup. by apply NoDup_filter_bool.
  - intros key. rewrite Hafter. case_bool_decide as Hk.
    + apply Hmem in Hk as [Hin Hig]. apply list_contains_elem_of in Hin.
      unfold ignored. by rewrite Hig, Hin.
    + destruct (ignored h (SystemPrompt.chips me) key
                && list_contains key (cs_order (SystemPrompt.chips me))) eqn:Hb; [|done].
      apply andb_true_iff in Hb as [Hig Hin]. destruct Hk. apply Hmem.
      split; [by apply list_contains_elem_of|].
      unfold ignored in Hig.
      by destruct (ignore_at h (SystemPrompt.chips me) key) as [[|]|].
Qed.

Lemma C7_wakeup_all_without_sharing_witness :
  state_ok wake_state = true
  ∧ unshared (st_heap wake_state) (st_chips wake_state) = true
  ∧ ∃ st', SystemPrompt.wakeup_all wake_state = (Return ["a"; "b"], st').
Proof.
  split; [reflexivity|]. split; [reflexivity|].
  destruct C7_wakeup_all_without_sharing as [_ Hgeneral].
  destruct (Hgeneral wake_state eq_refl eq_refl) as (waked & h' & Hrun & -> & _).
  eexists. exact Hrun.
Defined.

(** C8. Round trip.  Built from a string [s] alone, on any store, the
    composer holds one chip, stored under the default key, named after it
    and with content [s]; its order is [[default]] and its splitter is two
    newlines.  Flat-text rendering with the default renderer then returns
    [s] itself, for each way of asking for flat text. *)
Theorem C8_single_string_round_trip
    (s : string) (h : Heap) (to_xml : option SystemPrompt.Renderer) :
  ∃ st,
    constructed (SystemPrompt.ContentStr s) None to_xml h = Some st
    ∧ st_order st = [DEFAULT_SYSTEM_PROMPT_CHIP_KEY]
    ∧ cs_splitter (st_chips st) = NL +:+ NL
    ∧ st_map st = {[ DEFAULT_SYSTEM_PROMPT_CHIP_KEY := length (chip_objs h) ]}
    ∧ chip_at (st_heap st) (st_chips st) DEFAULT_SYSTEM_PROMPT_CHIP_KEY
      = Some (SystemPromptChipSchema.mk DEFAULT_SYSTEM_PROMPT_CHIP_KEY s
                (length (meta_objs h)))
    ∧ ignore_at (st_heap st) (st_chips st) DEFAULT_SYSTEM_PROMPT_CHIP_KEY = Some false
    ∧ SystemPrompt.get_system_prompt SystemPrompt.TypeNone st = (Return s, st)
    ∧ SystemPrompt.get_system_prompt (SystemPrompt.TypeEnum SystemPrompt.STR) st
      = (Return s, st)
    ∧ SystemPrompt.get_system_prompt (SystemPrompt.TypeLiteral "str") st = (Return s, st).
Proof.
  exists {| st_heap := default_heap s h;
            st_self := {| SystemPrompt.chips := default_chips h;
                          SystemPrompt.to_str := None;
                          SystemPrompt.to_xml := to_xml |} |}.
  split; [reflexivity|]. split; [reflexivity|]. split; [reflexivity|].
  split; [reflexivity|]. split; [apply default_chip_at|].
  split; [apply default_ignore_at|].
  unfold SystemPrompt.get_system_prompt, bind, gets, SystemPrompt.on_heap.
  cbn [SystemPrompt.type_is_none SystemPrompt.type_is orb String.eqb Ascii.eqb Bool.eqb
       st_self st_heap SystemPrompt.to_str SystemPrompt.chips].
  rewrite default_to_str. done.
Qed.

(** C9. [get_system_prompt(type)] renders flat text when [type] is left
    out, is [PromptType.STR] or is the string "str"; it renders tagged
    markup when [type] is [PromptType.XML] or the string "xml"; for any
    other value it raises [InvalidModeError] and changes nothing.  Each of
    the two renderings goes through the function given at construction
    when there is one, and through the default renderer otherwise:
    [__init__], whatever the content it builds the collection from,
    stores the two functions it is given (or their absence) as they are,
    and a composer it returns dispatches to exactly those. *)
Theorem C9_get_system_prompt_dispatch (st : SystemPrompt.state) :
  let flat :=
    render_with (SystemPrompt.to_str (st_self st)) SystemPromptChipsSchema.to_str st in
  let tagged :=
    render_with (SystemPrompt.to_xml (st_self st)) SystemPromptChipsSchema.to_xml st in
  (SystemPrompt.get_system_prompt SystemPrompt.TypeNone st = flat
   ∧ SystemPrompt.get_system_prompt (SystemPrompt.TypeEnum SystemPrompt.STR) st = flat
   ∧ SystemPrompt.get_system_prompt (SystemPrompt.TypeLiteral "str") st = flat)
  ∧ (SystemPrompt.get_system_prompt (SystemPrompt.TypeEnum SystemPrompt.XML) st = tagged
     ∧ SystemPrompt.get_system_prompt (SystemPrompt.TypeLiteral "xml") st = tagged)
  ∧ (SystemPrompt.get_system_prompt SystemPrompt.TypeOther st = (Raise InvalidModeError, st)
     ∧ ∀ s, s ≠ "str" → s ≠ "xml" →
         SystemPrompt.get_system_prompt (SystemPrompt.TypeLiteral s) st
         = (Raise InvalidModeError, st))
  ∧ (∀ f, SystemPrompt.to_str (st_self st) = Some f →
       flat = SystemPrompt.on_heap (f (st_chips st)) st)
  ∧ (SystemPrompt.to_str (st_self st) = None →
       flat = SystemPrompt.on_heap (SystemPromptChipsSchema.to_str (st_chips st)) st)
  ∧ (∀ f, SystemPrompt.to_xml (st_self st) = Some f →
       tagged = SystemPrompt.on_heap (f (st_chips st)) st)
  ∧ (SystemPrompt.to_xml (st_self st) = None →
       tagged = SystemPrompt.on_heap (SystemPromptChipsSchema.to_xml (st_chips st)) st)
  ∧ (∀ s f g h, is_Some (constructed (SystemPrompt.ContentStr s) f g h))
  ∧ (∀ content f g h st0,
       constructed content f g h = Some st0 →
       SystemPrompt.to_str (st_self st0) = f
       ∧ SystemPrompt.to_xml (st_self st0) = g
       ∧ (SystemPrompt.get_system_prompt SystemPrompt.TypeNone st0
          = render_with f SystemPromptChipsSchema.to_str st0
          ∧ SystemPrompt.get_system_prompt (SystemPrompt.TypeEnum SystemPrompt.STR) st0
            = render_with f SystemPromptChipsSchema.to_str st0
          ∧ SystemPrompt.get_system_prompt (SystemPrompt.TypeLiteral "str") st0
            = render_with f SystemPromptChipsSchema.to_str st0)
       ∧ (SystemPrompt.get_system_prompt (SystemPrompt.TypeEnum SystemPrompt.XML) st0
          = render_with g SystemPromptChipsSchema.to_xml st0
          ∧ SystemPrompt.get_system_prompt (SystemPrompt.TypeLiteral "xml") st0
            = render_with g SystemPromptChipsSchema.to_xml st0)
       ∧ (∀ r, f = Some r →
            SystemPrompt.get_system_prompt SystemPrompt.TypeNone st0
            = SystemPrompt.on_heap (r (st_chips st0)) st0)
       ∧ (∀ r, g = Some r →
            SystemPrompt.get_system_prompt (SystemPrompt.TypeEnum SystemPrompt.XML) st0
            = SystemPrompt.on_heap (r (st_chips st0)) st0)).
Proof.
  intros flat tagged. subst flat tagged.
  assert (Hbuilt : ∀ content f g h st0,
            constructed content f g h = Some st0 →
            ∃ cs h', st0 = {| st_heap := h';
                              st_self := {| SystemPrompt.chips := cs;
                                            SystemPrompt.to_str := f;
                                            SystemPrompt.to_xml := g |} |}).
  { intros content f g h st0. unfold constructed, SystemPrompt.init, bind, ret.
    destruct (SystemPrompt.chips_of_content content h) as [[cs|e] h']; [|done].
    intros [= <-]. by exists cs, h'. }
  unfold SystemPrompt.get_system_prompt, render_with, bind, gets, raise.
  destruct st as [h [cs ts tx]].
  cbn [st_self SystemPrompt.to_str SystemPrompt.to_xml SystemPrompt.chips].
  split; [by destruct ts|]. split; [by destruct tx|].
  split; [split; [reflexivity|]|].
  - intros s Hstr Hxml. cbn [SystemPrompt.type_is_none SystemPrompt.type_is orb].
    apply String.eqb_neq in Hstr, Hxml. by rewrite Hstr, Hxml.
  - split; [by intros f ->|]. split; [by intros ->|].
    split; [by intros f ->|]. split; [by intros ->|].
    split; [intros s f g h0; by eexists|].
    intros content f g h0 st0 Hc.
    destruct (Hbuilt _ _ _ _ _ Hc) as (cs0 & h' & ->).
    cbn [st_self SystemPrompt.to_str SystemPrompt.to_xml SystemPrompt.chips].
    split; [done|]. split; [done|].
    split; [by destruct f|]. split; [by destruct g|].
    split; by intros r ->.
Qed.

Lemma C9_get_system_prompt_dispatch_witness :
  SystemPrompt.get_system_prompt (SystemPrompt.TypeLiteral "XML") overridden_state
  = (Raise InvalidModeError, overridden_state)
  ∧ SystemPrompt.get_system_prompt SystemPrompt.TypeNone overridden_state
    = (Return "flat", overridden_state)
  ∧ SystemPrompt.get_system_prompt (SystemPrompt.TypeLiteral "xml") overridden_state
    = (Return "tagged", overridden_state)
  ∧ SystemPrompt.get_system_prompt SystemPrompt.TypeNone sample_state
    = (Return "B", sample_state)
  ∧ ∃ st0,
      constructed (SystemPrompt.ContentStr "s") (Some (constant_renderer "flat")) None
        empty_heap = Some st0
      ∧ SystemPrompt.get_system_prompt SystemPrompt.TypeNone st0 = (Return "flat", st0)
      ∧ SystemPrompt.to_xml (st_self st0) = None.
Proof.
  destruct (C9_get_system_prompt_dispatch overridden_state)
    as ((Hnone & _) & (_ & Hxml) & (_ & Hother) & Hstr & _ & Htag & _ & Hsome & Hcons).
  destruct (C9_get_system_prompt_dispatch sample_state)
    as ((Hnone' & _) & _ & _ & _ & Hdefault & _).
  split; [by apply Hother|].
  split; [rewrite Hnone; exact (Hstr _ eq_refl)|].
  split; [rewrite Hxml; exact (Htag _ eq_refl)|].
  split; [rewrite Hnone'; exact (Hdefault eq_refl)|].
  destruct (Hsome "s" (Some (constant_renderer "flat")) None empty_heap) as [st0 Hc].
  destruct (Hcons _ _ _ _ _ Hc) as (_ & Hg & _ & _ & Hover & _).
  exists st0. split; [exact Hc|]. split; [|exact Hg].
  rewrite (Hover _ eq_refl). by destruct st0.
Defined.

(** C10. When [key] has no chip but already stands in [order], an
    [insert(key, content, index)] with an index in range and a content a
    chip can be built from returns, and puts [key] into [order] at
    [index] without looking for it there: [key] then occurs once more than
    before, so at least twice.  [add] on the same state leaves [order] as
    it was. *)
Theorem C10_insert_duplicates_dangling_key
    (st : SystemPrompt.state) (key : string) (content : ChipValue) (index : Z)
    (chip : loc) (h' : Heap) :
  st_map st !! key = None → key ∈ st_order st →
  (0 ≤ index ≤ Z.of_nat (length (st_order st)))%Z →
  SystemPrompt.chip_of_content key content (st_heap st) = (Return chip, h') →
  let order' := take (Z.to_nat index) (st_order st)
                ++ key :: drop (Z.to_nat index) (st_order st) in
  SystemPrompt.insert key content index st
  = (Return chip, updated h' (<[key := chip]> (st_map st)) order' st)
  ∧ order' !! Z.to_nat index = Some key
  ∧ occurrences key order' = S (occurrences key (st_order st))
  ∧ 2 ≤ occurrences key order'
  ∧ SystemPrompt.add key content st
    = (Return chip, updated h' (<[key := chip]> (st_map st)) (st_order st) st).
Proof.
  intros Hkey Hin Hrange Hchip order'.
  assert (Hd : bool_decide (is_Some (st_map st !! key)) = false).
  { apply bool_decide_eq_false_2. rewrite Hkey. by intros []. }
  assert (Hocc : occurrences key order' = S (occurrences key (st_order st))).
  { subst order'. rewrite <- (list_insert_at_in_range index) by done.
    apply occurrences_insert_at. }
  split.
  { rewrite insert_run, Hd, Hchip.
    assert ((index <? 0)%Z || (Z.of_nat (length (st_order st)) <? index)%Z = false) as ->.
    { apply orb_false_iff. split; apply Z.ltb_ge; lia. }
    by rewrite list_insert_at_in_range. }
  split.
  { subst order'. rewrite lookup_app_r by (rewrite length_take; lia).
    rewrite length_take, Nat.min_l by lia. by rewrite Nat.sub_diag. }
  split; [exact Hocc|]. split.
  { rewrite Hocc. apply occurrences_elem_of in Hin. lia. }
  rewrite add_run, Hd, Hchip.
  apply list_contains_elem_of in Hin. by rewrite Hin.
Qed.

Lemma C10_insert_duplicates_dangling_key_witness :
  st_map dangling_state !! "k" = None ∧ "k" ∈ st_order dangling_state
  ∧ ∃ st', SystemPrompt.insert "k" (VStr "K") 2 dangling_state = (Return 1, st')
           ∧ st_order st' = ["k"; "b"; "k"].
Proof.
  assert (Hk : st_map dangling_state !! "k" = None) by reflexivity.
  assert (Ho : "k" ∈ st_order dangling_state) by (by apply list_contains_elem_of).
  split; [exact Hk|]. split; [exact Ho|].
  destruct (C10_insert_duplicates_dangling_key dangling_state "k" (VStr "K") 2 _ _
              Hk Ho ltac:(simpl; lia) (chip_of_content_str _ _ _)) as (Hins & _).
  eexists. split; [exact Hins|reflexivity].
Defined.

(** ** Tagged rendering *)

Lemma to_xml_parts_spec h self keys parts :
  heap_ok h = true → chips_ok h self = true →
  SystemPromptChipsSchema.to_xml_parts self keys parts h
  = (Return (parts ++ omap (tagged h self) keys), h).
Proof.
  intros Hh Hc. revert parts.
  induction keys as [|key rest IH]; intros parts; simpl.
  - by rewrite app_nil_r.
  - unfold tagged, rendered, ignore_at, chip_at.
    destruct (cs_chips self !! key) as [l|] eqn:Hk; [|apply IH].
    destruct (chips_ok_chip _ _ _ _ Hc Hk) as [c Hl].
    destruct (heap_ok_meta _ _ _ Hh Hl) as [m Hm].
    unfold bind, read_chip, read_metadata. rewrite Hl, Hm. simpl.
    destruct (meta_ignore m); simpl; [apply IH|].
    rewrite IH. by rewrite <- app_assoc.
Qed.

Lemma to_xml_spec h self :
  heap_ok h = true → chips_ok h self = true →
  SystemPromptChipsSchema.to_xml self h
  = (Return (str_join NL (omap (tagged h self) (cs_order self))), h).
Proof.
  intros Hh Hc. unfold SystemPromptChipsSchema.to_xml, bind.
  by rewrite to_xml_parts_spec.
Qed.

Lemma omap_fmap_length {A B C} (f : A → option B) (g : A → B → C) (l : list A) :
  length (omap (λ x, g x <$> f x) l) = length (omap f l).
Proof.
  induction l as [|x l IH]; [done|]. cbn. destruct (f x); cbn; by rewrite IH.
Qed.

(** ** Chips from dicts *)

Lemma lookup_snoc {A} (l : list A) (x : A) : (l ++ [x]) !! length l = Some x.
Proof. by apply list_lookup_middle. Qed.

(** ** Collections from records *)

Lemma from_dict_items_keys items :
  ∀ m h m' h',
    SystemPromptChipsSchema.from_dict_items items m h = (Return m', h') →
    ∀ key, is_Some (m' !! key) ↔ is_Some (m !! key) ∨ key ∈ items.*1.
Proof.
  induction items as [|[k v] rest IH]; intros m h m' h'; cbn [SystemPromptChipsSchema.from_dict_items].
  - intros [= <- <-] key. cbn. rewrite elem_of_nil. tauto.
  - unfold bind.
    destruct (SystemPromptChipsSchema._normalize_chip k v h) as [[c|e] h1]; [|done].
    intros Hrest key. rewrite (IH _ _ _ _ Hrest key). cbn. rewrite elem_of_cons.
    rewrite lookup_insert_is_Some. destruct (decide (k = key)) as [->|Hne]; [tauto|].
    split; [intros [[?|[_ ?]]|?]|intros [?|[?|?]]]; auto; congruence.
Qed.

Lemma from_dict_items_refuses_str items key s :
  (key, VStr s) ∈ items →
  ∀ m h, ∃ e h', SystemPromptChipsSchema.from_dict_items items m h = (Raise e, h').
Proof.
  induction items as [|[k v] rest IH]; intros Hin m h; [by apply elem_of_nil in Hin|].
  cbn [SystemPromptChipsSchema.from_dict_items]. unfold bind.
  apply elem_of_cons in Hin as [[= <- <-]|Hin].
  - eexists _, _. reflexivity.
  - destruct (SystemPromptChipsSchema._normalize_chip k v h) as [[c|e] h1]; [|by eexists _, _].
    by apply IH.
Qed.

(** ** Observations across allocation *)

Lemma chip_at_frame h h' cs cs' key :
  alloc_only h h' → chips_ok h cs = true →
  cs_chips cs' !! key = cs_chips cs !! key →
  chip_at h' cs' key = chip_at h cs key.
Proof.
  intros Hext Hc Hk. unfold chip_at. rewrite Hk.
  destruct (cs_chips cs !! key) as [l|] eqn:Hl; [|done].
  destruct (chips_ok_chip _ _ _ _ Hc Hl) as [c Hchip].
  rewrite Hchip. eauto using alloc_only_chip.
Qed.

Lemma ignore_at_frame h h' cs cs' key :
  alloc_only h h' → heap_ok h = true → chips_ok h cs = true →
  cs_chips cs' !! key = cs_chips cs !! key →
  ignore_at h' cs' key = ignore_at h cs key.
Proof.
  intros Hext Hh Hc Hk. unfold ignore_at. rewrite (chip_at_frame h h' cs cs') by done.
  destruct (chip_at h cs key) as [c|] eqn:Hchip; [|done].
  unfold chip_at in Hchip. destruct (cs_chips cs !! key) as [l|]; [|done].
  destruct (heap_ok_meta _ _ _ Hh Hchip) as [m Hm].
  rewrite Hm. by rewrite (alloc_only_meta _ _ _ _ Hext Hm).
Qed.

Lemma rendered_frame h h' cs cs' key :
  alloc_only h h' → heap_ok h = true → chips_ok h cs = true →
  cs_chips cs' !! key = cs_chips cs !! key →
  rendered h' cs' key = rendered h cs key.
Proof.
  intros Hext Hh Hc Hk. unfold rendered.
  by rewrite (chip_at_frame h h' cs cs'), (ignore_at_frame h h' cs cs').
Qed.

Lemma omap_ext_in {A B} (f g : A → option B) (l : list A) :
  (∀ x, x ∈ l → f x = g x) → omap f l = omap g l.
Proof.
  induction l as [|x l IH]; intros H; [done|]. cbn.
  rewrite (H x) by left. rewrite IH; [done|]. intros y Hy. apply H. by right.
Qed.

Lemma alloc_only_chips_ok h h' cs :
  alloc_only h h' → chips_ok h cs = true → chips_ok h' cs = true.
Proof.
  intros [Hp _] Hok. apply chips_ok_intro. intros key l Hl.
  pose proof (chips_ok_lookup _ _ _ _ Hok Hl). apply prefix_length in Hp. lia.
Qed.

(** ** More run equations *)

Lemma remove_run key st :
  SystemPrompt.remove key st
  = if bool_decide (is_Some (st_map st !! key))
    then (Return true,
          updated (st_heap st) (delete key (st_map st))
            (List.filter (λ chip_key, negb (String.eqb chip_key key)) (st_order st)) st)
    else (Return false, st).
Proof.
  unfold SystemPrompt.remove, SystemPrompt.the_chips, SystemPrompt.the_order,
    SystemPrompt.set_chip_map, SystemPrompt.set_order, SystemPrompt.set_chips,
    updated, bind, ret, gets, modify. simpl.
  by case_bool_decide.
Qed.

Lemma get_run key st : SystemPrompt.get key st = (Return (st_map st !! key), st).
Proof. reflexivity. Qed.

Lemma flag_run key b st l c m :
  st_map st !! key = Some l → chip_objs (st_heap st) !! l = Some c →
  meta_objs (st_heap st) !! chip_metadata c = Some m →
  SystemPrompt.on_heap (SystemPrompt.assign_ignore l b) st = (Return tt, flagged key b st).
Proof.
  intros Hl Hc Hm. unfold SystemPrompt.on_heap, flagged, chip_at.
  rewrite (assign_ignore_run _ _ _ _ b Hc Hm). by rewrite Hl, Hc, Hm.
Qed.

Lemma ignore_run key st :
  state_ok st = true →
  SystemPrompt.ignore key st
  = match st_map st !! key with
    | Some _ => (Return key, flagged key true st)
    | None => (Raise KeyNotFoundError, st)
    end.
Proof.
  intros [Hh Hc]%state_ok_split.
  unfold SystemPrompt.ignore, bind. rewrite get_run.
  destruct (st_map st !! key) as [l|] eqn:Hl; [|done].
  destruct (chips_ok_chip _ _ _ _ Hc Hl) as [c Hchip].
  destruct (heap_ok_meta _ _ _ Hh Hchip) as [m Hm].
  by rewrite (flag_run key true st l c m).
Qed.

Lemma wakeup_run key st :
  state_ok st = true →
  SystemPrompt.wakeup key st
  = match st_map st !! key with
    | Some _ => (Return key, flagged key false st)
    | None => (Raise KeyNotFoundError, st)
    end.
Proof.
  intros [Hh Hc]%state_ok_split.
  unfold SystemPrompt.wakeup, bind. rewrite get_run.
  destruct (st_map st !! key) as [l|] eqn:Hl; [|done].
  destruct (chips_ok_chip _ _ _ _ Hc Hl) as [c Hchip].
  destruct (heap_ok_meta _ _ _ Hh Hchip) as [m Hm].
  by rewrite (flag_run key false st l c m).
Qed.

Lemma toggle_run key st :
  state_ok st = true →
  SystemPrompt.toggle key st
  = match ignore_at (st_heap st) (st_chips st) key with
    | Some ig => (Return key, flagged key (negb ig) st)
    | None => (Raise KeyNotFoundError, st)
    end.
Proof.
  intros [Hh Hc]%state_ok_split. destruct st as [h me]. cbn [st_heap st_self] in *.
  unfold SystemPrompt.toggle, bind. rewrite get_run.
  unfold ignore_at, chip_at. cbn [st_heap st_self].
  destruct (cs_chips (SystemPrompt.chips me) !! key) as [l|] eqn:Hl; [|done].
  destruct (chips_ok_chip _ _ _ _ Hc Hl) as [c Hchip].
  destruct (heap_ok_meta _ _ _ Hh Hchip) as [m Hm].
  rewrite Hchip, Hm. cbn [fmap option_fmap option_map].
  unfold SystemPrompt.on_heap at 1. cbn [st_heap st_self].
  rewrite (read_ignore_run _ _ _ _ Hchip Hm).
  by rewrite (flag_run key (negb (meta_ignore m)) _ l c m).
Qed.

(** ** Setting the [ignore] flag of a key *)

Lemma flagged_self key b st : st_self (flagged key b st) = st_self st.
Proof. unfold flagged. by repeat case_match. Qed.

Lemma flagged_chip_objs key b st :
  chip_objs (st_heap (flagged key b st)) = chip_objs (st_heap st).
Proof. unfold flagged. by repeat case_match. Qed.

Lemma flagged_meta_length key b st :
  length (meta_objs (st_heap (flagged key b st))) = length (meta_objs (st_heap st)).
Proof.
  unfold flagged. repeat case_match; try done. cbn. apply length_insert.
Qed.

Lemma flagged_state_ok key b st : state_ok st = true → state_ok (flagged key b st) = true.
Proof.
  intros [Hh Hc]%state_ok_split. unfold state_ok. apply andb_true_iff. split.
  - apply (heap_ok_same_shape (st_heap st));
      auto using flagged_chip_objs, flagged_meta_length.
  - rewrite flagged_self. apply chips_ok_intro. rewrite flagged_chip_objs.
    eauto using chips_ok_lookup.
Qed.

Lemma flagged_chip_at key b st key' :
  chip_at (st_heap (flagged key b st)) (st_chips (flagged key b st)) key'
  = chip_at (st_heap st) (st_chips st) key'.
Proof. unfold chip_at. by rewrite flagged_self, flagged_chip_objs. Qed.

Lemma flagged_ignore_at key b st key' :
  state_ok st = true → is_Some (st_map st !! key) →
  ignore_at (st_heap (flagged key b st)) (st_chips (flagged key b st)) key'
  = if bool_decide (meta_at (st_heap st) (st_chips st) key'
                    = meta_at (st_heap st) (st_chips st) key)
    then Some b
    else ignore_at (st_heap st) (st_chips st) key'.
Proof.
  intros [Hh Hc]%state_ok_split [l Hl].
  destruct (chips_ok_chip _ _ _ _ Hc Hl) as [c Hchip].
  destruct (heap_ok_meta _ _ _ Hh Hchip) as [m Hm].
  assert (Hat : chip_at (st_heap st) (st_chips st) key = Some c).
  { unfold chip_at. by rewrite Hl. }
  assert (Hmeta : meta_at (st_heap st) (st_chips st) key = Some (chip_metadata c)).
  { unfold meta_at. by rewrite Hat. }
  assert (Hflag : flagged key b st
                  = {| st_heap := assigned (chip_metadata c) b m (st_heap st);
                       st_self := st_self st |}).
  { unfold flagged. by rewrite Hat, Hm. }
  rewrite Hflag. cbn [st_heap st_self].
  rewrite (assigned_ignore_at _ b m _ _ key' Hm).
  case_bool_decide as H1; case_bool_decide as H2; try done; congruence.
Qed.

Lemma flagged_ignore_at_eq key b st :
  state_ok st = true → is_Some (st_map st !! key) →
  ignore_at (st_heap (flagged key b st)) (st_chips (flagged key b st)) key = Some b.
Proof.
  intros Hok Hkey. rewrite flagged_ignore_at by done. by rewrite bool_decide_eq_true_2.
Qed.

Lemma flagged_ignore_at_ne key b st key' :
  state_ok st = true → unshared (st_heap st) (st_chips st) = true →
  is_Some (st_map st !! key) → key' ≠ key →
  ignore_at (st_heap (flagged key b st)) (st_chips (flagged key b st)) key'
  = ignore_at (st_heap st) (st_chips st) key'.
Proof.
  intros Hok Hu Hkey Hne. rewrite flagged_ignore_at by done.
  case_bool_decide as Heq; [|done].
  destruct (state_ok_split _ Hok) as [_ Hc]. destruct Hkey as [l Hl].
  destruct (chips_ok_chip _ _ _ _ Hc Hl) as [c Hchip].
  assert (Hm : meta_at (st_heap st) (st_chips st) key = Some (chip_metadata c)).
  { unfold meta_at, chip_at. by rewrite Hl, Hchip. }
  rewrite Hm in Heq. destruct Hne. eauto using unshared_spec.
Qed.

Lemma flagged_same key b st :
  ignore_at (st_heap st) (st_chips st) key = Some b → flagged key b st = st.
Proof.
  unfold ignore_at, flagged.
  destruct (chip_at (st_heap st) (st_chips st) key) as [c|]; [|done].
  destruct (meta_objs (st_heap st) !! chip_metadata c) as [m|] eqn:Hm; [|done].
  intros [= <-]. destruct st as [[co mo] me], m as [ig ex]. cbn in *.
  unfold assigned, SystemPromptChipMetadataSchema.set_ignore. cbn.
  by rewrite list_insert_id.
Qed.

Lemma flagged_missing key b st :
  chip_at (st_heap st) (st_chips st) key = None → flagged key b st = st.
Proof. intros H. unfold flagged. by rewrite H. Qed.

Lemma flagged_flagged key b1 b2 st :
  state_ok st = true → flagged key b2 (flagged key b1 st) = flagged key b2 st.
Proof.
  intros [Hh Hc]%state_ok_split.
  destruct (chip_at (st_heap st) (st_chips st) key) as [c|] eqn:Hat;
    [|by rewrite (flagged_missing key b1 st Hat)].
  assert (Hchip : ∃ l, chip_objs (st_heap st) !! l = Some c).
  { unfold chip_at in Hat. destruct (st_map st !! key) as [l|]; [eauto|done]. }
  destruct Hchip as [l Hchip]. destruct (heap_ok_meta _ _ _ Hh Hchip) as [m Hm].
  assert (Hflag : ∀ b, flagged key b st
                  = {| st_heap := assigned (chip_metadata c) b m (st_heap st);
                       st_self := st_self st |}).
  { intros b. unfold flagged. by rewrite Hat, Hm. }
  rewrite (Hflag b1), (Hflag b2). unfold flagged. cbn [st_heap st_self].
  change (chip_at (assigned (chip_metadata c) b1 m (st_heap st)) (st_chips st) key)
    with (chip_at (st_heap st) (st_chips st) key).
  rewrite Hat. unfold assigned at 1. cbn [meta_objs].
  rewrite list_lookup_insert_eq by (by apply lookup_lt_Some in Hm).
  unfold assigned. cbn [chip_objs meta_objs]. by rewrite list_insert_insert_eq.
Qed.

Lemma rendered_ignore_at h cs key c b :
  chip_at h cs key = Some c → ignore_at h cs key = Some b →
  rendered h cs key = if b then None else Some (chip_content c).
Proof. intros Hc Hi. unfold rendered. rewrite Hc, Hi. by destruct b. Qed.

Lemma omap_filter_bool {A B} (f g : A → option B) (P : A → bool) (l : list A) :
  (∀ x, x ∈ l → P x = false → g x = None) →
  (∀ x, x ∈ l → P x = true → g x = f x) →
  omap g l = omap f (List.filter P l).
Proof.
  induction l as [|x l IH]; intros Hn Hy; [done|]. cbn [List.filter].
  assert (IH' : omap g l = omap f (List.filter P l)).
  { apply IH; intros y Hin; [apply Hn|apply Hy]; by right. }
  destruct (P x) eqn:HP; cbn.
  - rewrite (Hy x) by (done || left). by rewrite IH'.
  - rewrite (Hn x) by (done || left). exact IH'.
Qed.

Lemma chip_at_is_Some st key c :
  chip_at (st_heap st) (st_chips st) key = Some c → is_Some (st_map st !! key).
Proof. unfold chip_at. destruct (st_map st !! key); [by eexists|done]. Qed.

Lemma ignore_at_is_Some st key b :
  ignore_at (st_heap st) (st_chips st) key = Some b → is_Some (st_map st !! key).
Proof.
  unfold ignore_at. destruct (chip_at (st_heap st) (st_chips st) key) eqn:Hc; [|done].
  intros _. by eapply chip_at_is_Some.
Qed.

(** ** Storing a chip built from a string *)

Lemma chip_of_content_text key s h :
  SystemPrompt.chip_of_content key (VStr s) h
  = (Return (length (chip_objs h)), text_heap key s h).
Proof. reflexivity. Qed.

Lemma text_heap_alloc_only key s h : alloc_only h (text_heap key s h).
Proof. split; by apply prefix_app_r. Qed.

Lemma text_heap_ok key s h : heap_ok h = true → heap_ok (text_heap key s h) = true.
Proof.
  intros Hh. destruct h as [co mo]. unfold text_heap. cbn [chip_objs meta_objs].
  apply heap_ok_new_chip; [by apply heap_ok_new_meta|].
  cbn. rewrite length_app. cbn. lia.
Qed.

Lemma text_state_ok key s o st :
  state_ok st = true →
  state_ok (updated (text_heap key s (st_heap st))
              (<[key := length (chip_objs (st_heap st))]> (st_map st)) o st) = true.
Proof.
  intros [Hh Hc]%state_ok_split. unfold state_ok. apply andb_true_iff.
  cbn [updated st_heap st_self SystemPrompt.chips]. split; [by apply text_heap_ok|].
  apply chips_ok_intro. cbn [cs_chips text_heap chip_objs]. intros k l Hk.
  rewrite length_app. cbn. rewrite lookup_insert in Hk. case_decide; simplify_eq; [lia|].
  pose proof (chips_ok_lookup _ _ _ _ Hc Hk). lia.
Qed.

Lemma text_chip_at key s o st :
  chip_at (text_heap key s (st_heap st))
    (st_chips (updated (text_heap key s (st_heap st))
                 (<[key := length (chip_objs (st_heap st))]> (st_map st)) o st)) key
  = Some (SystemPromptChipSchema.mk key s (length (meta_objs (st_heap st)))).
Proof.
  unfold chip_at. cbn [updated st_self SystemPrompt.chips cs_chips text_heap chip_objs].
  rewrite lookup_insert_eq. apply lookup_snoc.
Qed.

Lemma text_ignore_at key s o st :
  ignore_at (text_heap key s (st_heap st))
    (st_chips (updated (text_heap key s (st_heap st))
                 (<[key := length (chip_objs (st_heap st))]> (st_map st)) o st)) key
  = Some false.
Proof.
  unfold ignore_at. rewrite text_chip_at. cbn [chip_metadata text_heap meta_objs].
  by rewrite lookup_snoc.
Qed.

Lemma text_rendered key s o st k :
  state_ok st = true →
  rendered (text_heap key s (st_heap st))
    (st_chips (updated (text_heap key s (st_heap st))
                 (<[key := length (chip_objs (st_heap st))]> (st_map st)) o st)) k
  = if bool_decide (k = key) then Some s else rendered (st_heap st) (st_chips st) k.
Proof.
  intros [Hh Hc]%state_ok_split. case_bool_decide as Hk.
  - subst k. unfold rendered. by rewrite text_chip_at, text_ignore_at.
  - apply rendered_frame; [apply text_heap_alloc_only|done|done|].
    cbn [updated st_self SystemPrompt.chips cs_chips]. by rewrite lookup_insert_ne.
Qed.

Lemma text_others key s o st k :
  state_ok st = true → k ≠ key →
  chip_at (text_heap key s (st_heap st))
    (st_chips (updated (text_heap key s (st_heap st))
                 (<[key := length (chip_objs (st_heap st))]> (st_map st)) o st)) k
  = chip_at (st_heap st) (st_chips st) k
  ∧ ignore_at (text_heap key s (st_heap st))
      (st_chips (updated (text_heap key s (st_heap st))
                   (<[key := length (chip_objs (st_heap st))]> (st_map st)) o st)) k
    = ignore_at (st_heap st) (st_chips st) k.
Proof.
  intros [Hh Hc]%state_ok_split Hk.
  assert (Hm : cs_chips (st_chips (updated (text_heap key s (st_heap st))
                 (<[key := length (chip_objs (st_heap st))]> (st_map st)) o st)) !! k
               = st_map st !! k).
  { cbn [updated st_self SystemPrompt.chips cs_chips]. by rewrite lookup_insert_ne. }
  split; [apply chip_at_frame|apply ignore_at_frame]; auto using text_heap_alloc_only.
Qed.

Lemma omap_not_in {A} `{EqDecision A} {B} (f g : A → option B) (x : A) (l : list A) :
  x ∉ l → (∀ y, y ≠ x → g y = f y) → omap g l = omap f l.
Proof.
  intros Hx Hg. apply omap_ext_in. intros y Hy. apply Hg. by intros ->.
Qed.

(** ** Removing a key *)

Lemma removed_state_ok key o st :
  state_ok st = true →
  state_ok (updated (st_heap st) (delete key (st_map st)) o st) = true.
Proof.
  intros [Hh Hc]%state_ok_split. unfold state_ok. apply andb_true_iff.
  split; [done|]. apply chips_ok_intro. cbn. intros k l Hk.
  apply lookup_delete_Some in Hk as [_ Hk]. eauto using chips_ok_lookup.
Qed.

Lemma removed_rendered key o st k :
  k ≠ key →
  rendered (st_heap st) (st_chips (updated (st_heap st) (delete key (st_map st)) o st)) k
  = rendered (st_heap st) (st_chips st) k.
Proof.
  intros Hk. unfold rendered, ignore_at, chip_at. cbn [updated st_self SystemPrompt.chips cs_chips].
  by rewrite lookup_delete_ne.
Qed.

Lemma not_elem_of_filter_ne key (l : list string) :
  key ∉ List.filter (λ k, negb (String.eqb k key)) l.
Proof. rewrite elem_of_filter_bool, String.eqb_refl. by intros [_ ?]. Qed.

Lemma occurrences_filter_ne key k (l : list string) :
  k ≠ key →
  occurrences k (List.filter (λ x, negb (String.eqb x key)) l) = occurrences k l.
Proof.
  intros Hk. unfold occurrences. f_equal.
  apply filter_filter_absorb. intros x Hx.
  apply negb_false_iff, String.eqb_eq in Hx as ->. by apply String.eqb_neq.
Qed.

Lemma filter_ne_not_in key (l : list string) :
  key ∉ l → List.filter (λ k, negb (String.eqb k key)) l = l.
Proof.
  intros Hout. apply filter_all_true. intros x Hx.
  apply negb_true_iff, String.eqb_neq. by intros ->.
Qed.

(** ** Positions in [order] *)

Lemma list_insert_at_perm {A} (index : Z) (x : A) (l : list A) :
  list_insert_at index x l ≡ₚ x :: l.
Proof.
  unfold list_insert_at. rewrite <- Permutation_middle. by rewrite take_drop.
Qed.

Lemma list_insert_at_lookup {A} (index : Z) (x : A) (l : list A) :
  (0 ≤ index ≤ Z.of_nat (length l))%Z →
  list_insert_at index x l !! Z.to_nat index = Some x.
Proof.
  intros Hr. rewrite list_insert_at_in_range by done.
  apply list_lookup_middle. rewrite length_take. lia.
Qed.

Lemma filter_ne_insert_at key index (l : list string) :
  List.filter (λ k, negb (String.eqb k key)) (list_insert_at index key l)
  = List.filter (λ k, negb (String.eqb k key)) l.
Proof.
  unfold list_insert_at. rewrite List.filter_app. cbn [List.filter].
  rewrite String.eqb_refl. cbn [negb]. by rewrite <- List.filter_app, take_drop.
Qed.

Lemma list_remove_first_cons x y l :
  list_remove_first x (y :: l)
  = if String.eqb y x then Some l
    else match list_remove_first x l with
         | Some r => Some (y :: r)
         | None => None
         end.
Proof. reflexivity. Qed.

Lemma list_remove_first_perm x l l' :
  list_remove_first x l = Some l' → l ≡ₚ x :: l'.
Proof.
  revert l'. induction l as [|y l IH]; intros l'; [done|].
  rewrite list_remove_first_cons. destruct (String.eqb y x) eqn:Heq.
  - apply String.eqb_eq in Heq. intros Hl. by simplify_eq.
  - destruct (list_remove_first x l) as [r|]; [|done]. intros Hl.
    injection Hl as <-. rewrite (IH r eq_refl). apply Permutation_swap.
Qed.

Lemma filter_ne_remove_first key l l' :
  list_remove_first key l = Some l' →
  List.filter (λ k, negb (String.eqb k key)) l'
  = List.filter (λ k, negb (String.eqb k key)) l.
Proof.
  revert l'. induction l as [|y l IH]; intros l'; [done|].
  rewrite list_remove_first_cons. destruct (String.eqb y key) eqn:Heq.
  - intros Hl. injection Hl as <-. cbn [List.filter]. by rewrite Heq.
  - destruct (list_remove_first key l) as [r|]; [|done]. intros Hl.
    injection Hl as <-. cbn [List.filter]. rewrite Heq. cbn [negb].
    by rewrite (IH r eq_refl).
Qed.

Lemma list_remove_first_at x (l : list string) i :
  l !! i = Some x → x ∉ take i l →
  list_remove_first x l = Some (take i l ++ drop (S i) l).
Proof.
  revert i. induction l as [|y l IH]; intros i Hi Hout; [done|].
  rewrite list_remove_first_cons. destruct i as [|i].
  - injection Hi as ->. by rewrite String.eqb_refl.
  - cbn in Hi, Hout. apply not_elem_of_cons in Hout as [Hne Hout].
    apply not_eq_sym, String.eqb_neq in Hne. rewrite Hne.
    by rewrite (IH i Hi Hout).
Qed.

Lemma list_insert_at_back {A} (x : A) (l : list A) (i : nat) :
  l !! i = Some x →
  list_insert_at (Z.of_nat i) x (take i l ++ drop (S i) l) = l.
Proof.
  intros Hi. pose proof (lookup_lt_Some _ _ _ Hi) as Hlt.
  rewrite list_insert_at_in_range
    by (rewrite length_app, length_take, length_drop; lia).
  rewrite Nat2Z.id.
  rewrite take_app_length' by (rewrite length_take; lia).
  rewrite drop_app_length' by (rewrite length_take; lia).
  by apply take_drop_middle.
Qed.

Lemma updated_same st : updated (st_heap st) (st_map st) (st_order st) st = st.
Proof. by destruct st as [h [[o sp m] ts tx]]. Qed.

Lemma removed_parts st key :
  is_Some (st_map st !! key) → state_ok st = true →
  let st' := updated (st_heap st) (delete key (st_map st))
               (List.filter (λ k, negb (String.eqb k key)) (st_order st)) st in
  SystemPrompt.remove key st = (Return true, st')
  ∧ state_ok st' = true
  ∧ flat_parts st'
    = omap (rendered (st_heap st) (st_chips st))
        (List.filter (λ k, negb (String.eqb k key)) (st_order st))
  ∧ tagged_parts st'
    = omap (tagged (st_heap st) (st_chips st))
        (List.filter (λ k, negb (String.eqb k key)) (st_order st)).
Proof.
  intros Hkey Hok st'. split; [by rewrite remove_run, bool_decide_eq_true_2|].
  split; [by apply removed_state_ok|].
  unfold flat_parts, tagged_parts, st'.
  cbn [updated st_heap st_self SystemPrompt.chips cs_order].
  split; apply omap_ext_in; intros k Hin;
    apply elem_of_filter_bool in Hin as [_ Hk];
    apply negb_true_iff, String.eqb_neq in Hk.
  - by apply (removed_rendered key _ st k).
  - unfold tagged. f_equal. by apply (removed_rendered key _ st k).
Qed.

(** ** The collection of a single string *)

Lemma default_to_xml s h :
  SystemPromptChipsSchema.to_xml (default_chips h) (default_heap s h)
  = (Return (SystemPromptChipsSchema.xml_block DEFAULT_SYSTEM_PROMPT_CHIP_KEY s),
     default_heap s h).
Proof.
  assert (Hl : cs_chips (default_chips h) !! DEFAULT_SYSTEM_PROMPT_CHIP_KEY
               = Some (length (chip_objs h))) by apply lookup_singleton_eq.
  assert (Hc : chip_objs (default_heap s h) !! length (chip_objs h)
               = Some (SystemPromptChipSchema.mk DEFAULT_SYSTEM_PROMPT_CHIP_KEY s
                         (length (meta_objs h)))) by apply lookup_snoc.
  assert (Hm : meta_objs (default_heap s h) !! length (meta_objs h)
               = Some SystemPromptChipMetadataSchema.default) by apply lookup_snoc.
  unfold SystemPromptChipsSchema.to_xml, bind.
  change (cs_order (default_chips h)) with [DEFAULT_SYSTEM_PROMPT_CHIP_KEY].
  cbn [SystemPromptChipsSchema.to_xml_parts]. rewrite Hl.
  unfold bind, read_chip, read_metadata. rewrite Hc. cbn [chip_metadata].
  rewrite Hm. reflexivity.
Qed.

Lemma replace_chips_run content st :
  SystemPrompt.replace_chips content st
  = match SystemPrompt.chips_of_content content (st_heap st) with
    | (Return cs, h') =>
        (Return tt,
         {| st_heap := h';
            st_self := {| SystemPrompt.chips := cs;
                          SystemPrompt.to_str := SystemPrompt.to_str (st_self st);
                          SystemPrompt.to_xml := SystemPrompt.to_xml (st_self st) |} |})
    | (Raise e, h') => (Raise e, {| st_heap := h'; st_self := st_self st |})
    end.
Proof.
  unfold SystemPrompt.replace_chips, bind, SystemPrompt.on_heap, SystemPrompt.set_chips,
    modify.
  by destruct (SystemPrompt.chips_of_content content (st_heap st)) as [[cs|e] h'].
Qed.

(** ** [wakeup_all] on any store *)

Lemma ignored_false_iff h cs key :
  ignored h cs key = false ↔ ignore_at h cs key ≠ Some true.
Proof.
  unfold ignored. destruct (ignore_at h cs key) as [[|]|]; split; congruence.
Qed.

Lemma wakeup_all_loop_general me keys :
  ∀ h waked,
    heap_ok h = true → chips_ok h (SystemPrompt.chips me) = true →
    ∃ h' woken,
      SystemPrompt.wakeup_all_loop keys waked {| st_heap := h; st_self := me |}
      = (Return (waked ++ woken), {| st_heap := h'; st_self := me |})
      ∧ chip_objs h' = chip_objs h
      ∧ length (meta_objs h') = length (meta_objs h)
      ∧ woken `sublist_of` keys
      ∧ (∀ key, key ∈ woken → ignore_at h (SystemPrompt.chips me) key = Some true)
      ∧ (∀ key, ignore_at h (SystemPrompt.chips me) key = Some false →
           ignore_at h' (SystemPrompt.chips me) key = Some false)
      ∧ (∀ key, key ∈ keys → is_Some (cs_chips (SystemPrompt.chips me) !! key) →
           ignore_at h' (SystemPrompt.chips me) key = Some false)
      ∧ ((∀ key, key ∈ keys → ignored h (SystemPrompt.chips me) key = false) →
         h' = h ∧ woken = []).
Proof.
  set (cs := SystemPrompt.chips me).
  induction keys as [|key rest IH]; intros h waked Hh Hc.
  - exists h, []. cbn [SystemPrompt.wakeup_all_loop]. rewrite app_nil_r.
    split; [done|]. split; [done|]. split; [done|]. split; [done|].
    split; [by intros key Hin%elem_of_nil|]. split; [done|].
    split; [by intros key Hin%elem_of_nil|done].
  - cbn [SystemPrompt.wakeup_all_loop].
    unfold bind at 1, SystemPrompt.the_chips at 1, gets at 1.
    cbn [st_self]. fold cs.
    destruct (cs_chips cs !! key) as [l|] eqn:Hl.
    + destruct (chips_ok_chip _ _ _ _ Hc Hl) as [c Hchip].
      destruct (heap_ok_meta _ _ _ Hh Hchip) as [m Hm].
      destruct (ignore_at_lookup _ _ _ _ _ _ Hl Hchip Hm) as [Hig Hmeta].
      unfold bind at 1, SystemPrompt.on_heap at 1. cbn [st_heap st_self].
      rewrite (read_ignore_run _ _ _ _ Hchip Hm).
      destruct (meta_ignore m) eqn:Hm_ig.
      * unfold bind at 1, SystemPrompt.on_heap at 1. cbn [st_heap st_self].
        rewrite (assign_ignore_run _ _ _ _ false Hchip Hm).
        set (h1 := assigned (chip_metadata c) false m h).
        assert (Hstep : ∀ key', ignore_at h1 cs key'
                  = if bool_decide (meta_at h cs key' = Some (chip_metadata c))
                    then Some false else ignore_at h cs key').
        { intros key'. unfold h1. by rewrite assigned_ignore_at. }
        destruct (IH h1 (waked ++ [key])) as
          (h' & woken & Hrun & Hco & Hlen & Hsub & Hwere & Hkeep & Hall & Hnop).
        { by apply assigned_heap_ok. }
        { done. }
        exists h', (key :: woken).
        split; [|split; [|split; [|split; [|split; [|split; [|split]]]]]].
        -- rewrite Hrun. by rewrite <- app_assoc.
        -- by rewrite Hco.
        -- rewrite Hlen. unfold h1, assigned. cbn [meta_objs]. apply length_insert.
        -- by apply sublist_skip.
        -- intros key' [->|Hin]%elem_of_cons; [done|].
           specialize (Hwere key' Hin). rewrite Hstep in Hwere.
           by case_bool_decide.
        -- intros key' Hfalse. apply Hkeep. rewrite Hstep, Hfalse. by case_bool_decide.
        -- intros key' [->|Hin]%elem_of_cons Hsome; [|by apply Hall].
           apply Hkeep. rewrite Hstep, Hmeta. by rewrite bool_decide_eq_true_2.
        -- intros Hnone. specialize (Hnone key ltac:(left)).
           apply ignored_false_iff in Hnone. by rewrite Hig in Hnone.
      * destruct (IH h waked Hh Hc) as
          (h' & woken & Hrun & Hco & Hlen & Hsub & Hwere & Hkeep & Hall & Hnop).
        exists h', woken. split; [done|]. split; [done|]. split; [done|].
        split; [by apply sublist_cons|]. split; [done|]. split; [done|].
        split.
        -- intros key' [->|Hin]%elem_of_cons Hsome; [|by apply Hall].
           apply Hkeep. by rewrite Hig.
        -- intros Hnone. apply Hnop. intros key' Hin. apply Hnone. by right.
    + destruct (IH h waked Hh Hc) as
        (h' & woken & Hrun & Hco & Hlen & Hsub & Hwere & Hkeep & Hall & Hnop).
      exists h', woken. split; [done|]. split; [done|]. split; [done|].
      split; [by apply sublist_cons|]. split; [done|]. split; [done|].
      split.
      * intros key' [->|Hin]%elem_of_cons Hsome; [|by apply Hall].
        rewrite Hl in Hsome. by destruct Hsome.
      * intros Hnone. apply Hnop. intros key' Hin. apply Hnone. by right.
Qed.

(** ** Failed calls *)

Lemma frame_parts h h' cs :
  alloc_only h h' → heap_ok h = true → chips_ok h cs = true →
  omap (rendered h' cs) (cs_order cs) = omap (rendered h cs) (cs_order cs)
  ∧ omap (tagged h' cs) (cs_order cs) = omap (tagged h cs) (cs_order cs).
Proof.
  intros Hext Hh Hc.
  split; apply omap_ext_in; intros k _; unfold tagged;
    by rewrite (rendered_frame h h' cs cs).
Qed.

Lemma failed_build_frame st h' :
  state_ok st = true → heap_ok h' = true → alloc_only (st_heap st) h' →
  let st' := {| st_heap := h'; st_self := st_self st |} in
  state_ok st' = true ∧ flat_parts st' = flat_parts st
  ∧ tagged_parts st' = tagged_parts st.
Proof.
  intros [Hh Hc]%state_ok_split Hh' Hext st'. split.
  - unfold state_ok, st'. cbn [st_heap st_self]. rewrite Hh'.
    by rewrite (alloc_only_chips_ok _ _ _ Hext Hc).
  - by apply frame_parts.
Qed.

Lemma wakeup_all_returns st :
  state_ok st = true → ∃ waked st', SystemPrompt.wakeup_all st = (Return waked, st').
Proof.
  intros [Hh Hc]%state_ok_split. destruct st as [h me]. cbn [st_heap st_self] in *.
  unfold SystemPrompt.wakeup_all, bind at 1, SystemPrompt.the_order at 1, gets at 1.
  cbn [st_self].
  destruct (wakeup_all_loop_general me (cs_order (SystemPrompt.chips me)) h [] Hh Hc)
    as (h' & woken & Hrun & _). eauto.
Qed.

Lemma drop_result_raise {A} (c : M SystemPrompt.state A) st e st' :
  (c ;;; ret tt) st = (Raise e, st') → c st = (Raise e, st').
Proof.
  unfold bind, ret. destruct (c st) as [[a|e0] st1]; intros Hrun; [done|].
  by injection Hrun as <- <-.
Qed.

(** ** Order and chips in step *)

Lemma in_sync_spec cs :
  in_sync cs = true
  ↔ NoDup (cs_order cs) ∧ ∀ key, key ∈ cs_order cs ↔ is_Some (cs_chips cs !! key).
Proof.
  unfold in_sync. rewrite !andb_true_iff, bool_decide_eq_true, !forallb_forall. split.
  - intros [[Hnd Hin] Hout]. split; [done|]. intros key. split.
    + intros Hk. apply list_elem_of_In, Hin in Hk. by apply bool_decide_eq_true in Hk.
    + intros [l Hl]. apply elem_of_map_to_list, list_elem_of_In, Hout in Hl.
      by apply list_contains_elem_of in Hl.
  - intros [Hnd Hiff]. split; [split; [done|]|].
    + intros key Hk. apply bool_decide_eq_true, Hiff. by apply list_elem_of_In.
    + intros [key l] Hkl. apply list_elem_of_In, elem_of_map_to_list in Hkl.
      apply list_contains_elem_of, Hiff. by exists l.
Qed.

Lemma in_sync_stored o sp m key l :
  in_sync {| cs_order := o; cs_splitter := sp; cs_chips := m |} = true →
  ∀ o', o' ≡ₚ (if bool_decide (key ∈ o) then o else key :: o) →
  in_sync {| cs_order := o'; cs_splitter := sp; cs_chips := <[key := l]> m |} = true.
Proof.
  intros [Hnd Hiff]%in_sync_spec o' Hperm. apply in_sync_spec.
  cbn [cs_order cs_chips] in *. split.
  - rewrite Hperm. case_bool_decide; [done|]. by apply NoDup_cons.
  - intros k. rewrite Hperm. rewrite lookup_insert_is_Some, <- Hiff.
    case_bool_decide as Hin.
    + split; [intros Hk|intros [<-|[_ Hk]]]; try done.
      destruct (decide (key = k)); auto.
    + rewrite elem_of_cons. split.
      * intros [->|Hk]; [by left|]. destruct (decide (key = k)); auto.
      * intros [<-|[_ Hk]]; auto.
Qed.

(** ** Deep copies *)

Lemma memo_le_refl memo : memo_le memo memo.
Proof. by split. Qed.

Lemma memo_le_trans m1 m2 m3 : memo_le m1 m2 → memo_le m2 m3 → memo_le m1 m3.
Proof. intros [? ?] [? ?]. split; by etrans. Qed.

Lemma copies_empty h : heap_ok h = true → copies h h empty_memo.
Proof.
  intros Hh. split; [done|]. split; [apply alloc_only_refl|].
  unfold empty_memo. cbn [chip_memo meta_memo].
  split; [intros l l' Hl; by rewrite lookup_empty in Hl|].
  split; [intros l1 l2 l' Hl; by rewrite lookup_empty in Hl|].
  intros l l' Hl. by rewrite lookup_empty in Hl.
Qed.

Lemma deepcopy_metadata_spec h0 h memo l :
  copies h0 h memo → l < length (meta_objs h0) →
  ∃ l' h1 memo1,
    deepcopy_metadata memo l h = (Return (l', memo1), h1)
    ∧ copies h0 h1 memo1 ∧ memo_le memo memo1
    ∧ meta_memo memo1 !! l = Some l'.
Proof.
  intros (Hh & Hext & Hmeta & Hinj & Hchip) Hl. unfold deepcopy_metadata.
  destruct (meta_memo memo !! l) as [l'|] eqn:Hmemo.
  - exists l', h, memo. split; [done|]. split; [done|]. split; [apply memo_le_refl|done].
  - destruct (lookup_lt_is_Some_2 _ _ Hl) as [m Hm].
    pose proof (alloc_only_meta _ _ _ _ Hext Hm) as Hm'.
    unfold bind, read_metadata, new_metadata, ret. rewrite Hm'.
    eexists _, _, _. split; [reflexivity|].
    assert (Hlen : length (meta_objs h0) ≤ length (meta_objs h)).
    { destruct Hext as [_ Hp]. by apply prefix_length. }
    split; [|split; [split; [done|by apply insert_subseteq]|apply lookup_insert_eq]].
    split. { destruct h as [co mo]. by apply heap_ok_new_meta. }
    split. { destruct Hext as [Hc Hp]. split; [done|]. by apply prefix_app_r. }
    cbn [chip_memo meta_memo chip_objs meta_objs].
    split; [|split].
    + intros k k'. rewrite lookup_insert. case_decide as Hk.
      * intros [= <-]. subst k. split; [done|]. exists m. split; [done|apply lookup_snoc].
      * intros Hk'. destruct (Hmeta _ _ Hk') as (Hge & m0 & Hm0 & Hm0').
        split; [done|]. exists m0. split; [done|]. by apply lookup_app_l_Some.
    + intros k1 k2 k'. rewrite !lookup_insert.
      assert (Hfresh : ∀ k, meta_memo memo !! k = Some (length (meta_objs h)) → False).
      { intros k Hk. destruct (Hmeta _ _ Hk) as (_ & m0 & _ & Hm0).
        apply lookup_lt_Some in Hm0. lia. }
      repeat case_decide; intros H1 H2; simplify_eq; try done.
      * by destruct (Hfresh k2).
      * by destruct (Hfresh k1).
      * eauto.
    + intros k k' Hk. destruct (Hchip _ _ Hk) as (Hge & c & c' & Hc & Hc' & Hn & Hco & Hmm).
      split; [done|]. exists c, c'. split; [done|]. split; [done|]. split; [done|].
      split; [done|]. rewrite lookup_insert_ne; [done|].
      intros Heq. rewrite <- Heq in Hmm. by rewrite Hmemo in Hmm.
Qed.

Lemma deepcopy_chip_spec h0 h memo l :
  heap_ok h0 = true → copies h0 h memo → l < length (chip_objs h0) →
  ∃ l' h1 memo1,
    deepcopy_chip memo l h = (Return (l', memo1), h1)
    ∧ copies h0 h1 memo1 ∧ memo_le memo memo1
    ∧ chip_memo memo1 !! l = Some l'.
Proof.
  intros Hh0 Hcopies Hl. unfold deepcopy_chip.
  destruct (chip_memo memo !! l) as [l'|] eqn:Hmemo.
  - exists l', h, memo. split; [done|]. split; [done|]. split; [apply memo_le_refl|done].
  - destruct (lookup_lt_is_Some_2 _ _ Hl) as [c Hc].
    pose proof Hcopies as (Hh & Hext & _).
    pose proof (alloc_only_chip _ _ _ _ Hext Hc) as Hc'.
    unfold bind at 1, read_chip at 1. rewrite Hc'.
    destruct (deepcopy_metadata_spec h0 h memo (chip_metadata c) Hcopies
                (heap_ok_lookup _ _ _ Hh0 Hc))
      as (lm & h1 & memo1 & Hrun & Hcopies1 & [Hle_c Hle_m] & Hlm).
    unfold bind at 1. rewrite Hrun. cbn [fst snd].
    destruct Hcopies1 as (Hh1 & Hext1 & Hmeta1 & Hinj1 & Hchip1).
    unfold bind, new_chip, ret.
    eexists _, _, _. split; [reflexivity|].
    assert (Hfresh : chip_memo memo1 !! l = None).
    { destruct (chip_memo memo1 !! l) as [k|] eqn:Hk; [|done].
      (* the metadata copy adds no chip entry *)
      exfalso. revert Hrun Hk. unfold deepcopy_metadata.
      destruct (meta_memo memo !! chip_metadata c).
      - intros [= _ <- _]. by rewrite Hmemo.
      - unfold bind, read_metadata, new_metadata, ret.
        destruct (meta_objs h !! chip_metadata c); [|done].
        intros [= _ <- _]. cbn [chip_memo]. by rewrite Hmemo. }
    destruct (Hmeta1 _ _ Hlm) as (Hge_m & m & Hm & Hm1).
    split; [|split].
    + split.
      { destruct h1 as [co mo]. apply heap_ok_new_chip; [done|].
        cbn [chip_metadata meta_objs] in *. by apply lookup_lt_Some in Hm1. }
      split. { destruct Hext1 as [Hp Hq]. split; [|done]. by apply prefix_app_r. }
      cbn [chip_memo meta_memo chip_objs meta_objs].
      split; [done|]. split; [done|].
      intros k k'. rewrite lookup_insert. case_decide as Hk.
      * intros [= <-]. subst k. split.
        { destruct Hext1 as [Hp _]. by apply prefix_length. }
        eexists c, _. split; [done|]. split; [apply lookup_snoc|]. done.
      * intros Hk'. destruct (Hchip1 _ _ Hk') as (Hge & c0 & c0' & ? & ? & ? & ? & ?).
        split; [done|]. exists c0, c0'. split; [done|].
        split; [by apply lookup_app_l_Some|done].
    + split; cbn [chip_memo meta_memo]; [|done].
      etrans; [exact Hle_c|]. by apply insert_subseteq.
    + cbn [chip_memo]. apply lookup_insert_eq.
Qed.

Lemma deepcopy_chips_spec h0 items :
  heap_ok h0 = true →
  (∀ key l, (key, l) ∈ items → l < length (chip_objs h0)) →
  ∀ memo copy h,
    copies h0 h memo →
    ∃ m h1 memo1,
      SystemPromptChipsSchema.deepcopy_chips items memo copy h = (Return m, h1)
      ∧ copies h0 h1 memo1 ∧ memo_le memo memo1
      ∧ (∀ key, key ∉ items.*1 → m !! key = copy !! key)
      ∧ (NoDup items.*1 → ∀ key l, (key, l) ∈ items →
           ∃ l', m !! key = Some l' ∧ chip_memo memo1 !! l = Some l').
Proof.
  intros Hh0. induction items as [|[key l] rest IH]; intros Hin memo copy h Hcopies.
  - exists copy, h, memo. split; [done|]. split; [done|]. split; [apply memo_le_refl|].
    split; [done|]. intros _ k l' Hk. by apply elem_of_nil in Hk.
  - cbn [SystemPromptChipsSchema.deepcopy_chips].
    destruct (deepcopy_chip_spec h0 h memo l Hh0 Hcopies (Hin key l ltac:(left)))
      as (l' & h1 & memo1 & Hrun & Hcopies1 & Hle1 & Hl').
    unfold bind at 1. rewrite Hrun. cbn [fst snd].
    destruct (IH (λ k l0 Hk, Hin k l0 ltac:(by right)) memo1 (<[key := l']> copy) h1 Hcopies1)
      as (m & h2 & memo2 & Hloop & Hcopies2 & Hle2 & Hout & Hall).
    exists m, h2, memo2. split; [done|]. split; [done|].
    split; [by eapply memo_le_trans|]. split.
    + intros k Hk. cbn [fmap list_fmap fst] in Hk. apply not_elem_of_cons in Hk as [Hne Hk].
      rewrite (Hout k Hk). by rewrite lookup_insert_ne.
    + intros Hnd k l0 Hk. cbn [fmap list_fmap fst] in Hnd.
      apply NoDup_cons in Hnd as [Hfirst Hnd].
      apply elem_of_cons in Hk as [Heq|Hk].
      * injection Heq as -> ->. exists l'. split.
        -- rewrite (Hout key Hfirst). apply lookup_insert_eq.
        -- destruct Hle2 as [Hle2 _]. by eapply lookup_weaken.
      * by apply Hall.
Qed.

Lemma model_copy_deep_spec h cs :
  heap_ok h = true → chips_ok h cs = true →
  ∃ copy h' memo,
    SystemPromptChipsSchema.model_copy_deep cs h = (Return copy, h')
    ∧ copies h h' memo
    ∧ cs_order copy = cs_order cs ∧ cs_splitter copy = cs_splitter cs
    ∧ (∀ key, cs_chips cs !! key = None → cs_chips copy !! key = None)
    ∧ (∀ key l, cs_chips cs !! key = Some l →
         ∃ l', cs_chips copy !! key = Some l' ∧ chip_memo memo !! l = Some l').
Proof.
  intros Hh Hc. unfold SystemPromptChipsSchema.model_copy_deep.
  destruct (deepcopy_chips_spec h (map_to_list (cs_chips cs)) Hh) with
    (memo := empty_memo) (copy := (∅ : gmap string loc)) (h := h)
    as (m & h' & memo & Hrun & Hcopies & _ & Hout & Hall).
  { intros key l Hin%elem_of_map_to_list. eauto using chips_ok_lookup. }
  { by apply copies_empty. }
  unfold bind, ret. rewrite Hrun.
  exists {| cs_order := cs_order cs; cs_splitter := cs_splitter cs; cs_chips := m |},
    h', memo.
  split; [reflexivity|]. split; [done|]. split; [done|]. split; [done|].
  cbn [cs_chips]. split.
  - intros key Hkey. rewrite Hout; [apply lookup_empty|].
    intros ((k & l) & -> & Hin%elem_of_map_to_list)%list_elem_of_fmap.
    cbn in Hkey. by rewrite Hin in Hkey.
  - intros key l Hl. apply Hall; [apply NoDup_fst_map_to_list|].
    by apply elem_of_map_to_list.
Qed.

Lemma copies_chip_at h h' memo cs copy key :
  copies h h' memo →
  (∀ key, cs_chips cs !! key = None → cs_chips copy !! key = None) →
  (∀ key l, cs_chips cs !! key = Some l →
     ∃ l', cs_chips copy !! key = Some l' ∧ chip_memo memo !! l = Some l') →
  match cs_chips cs !! key with
  | None => chip_at h cs key = None ∧ chip_at h' copy key = None
  | Some l =>
      ∃ l' c c' m,
        cs_chips copy !! key = Some l' ∧ length (chip_objs h) ≤ l'
        ∧ chip_at h cs key = Some c ∧ chip_at h' copy key = Some c'
        ∧ chip_name c' = chip_name c ∧ chip_content c' = chip_content c
        ∧ meta_memo memo !! chip_metadata c = Some (chip_metadata c')
        ∧ length (meta_objs h) ≤ chip_metadata c'
        ∧ meta_objs h !! chip_metadata c = Some m
        ∧ meta_objs h' !! chip_metadata c' = Some m
  end.
Proof.
  intros (Hh' & Hext & Hmeta & Hinj & Hchip) Hnone Hsome.
  destruct (cs_chips cs !! key) as [l|] eqn:Hl.
  - destruct (Hsome key l Hl) as (l' & Hl' & Hmemo).
    destruct (Hchip _ _ Hmemo) as (Hge & c & c' & Hc & Hc' & Hn & Hco & Hmm).
    destruct (Hmeta _ _ Hmm) as (Hgem & m & Hm & Hm').
    exists l', c, c', m. unfold chip_at. rewrite Hl, Hl'. done.
  - unfold chip_at. by rewrite Hl, (Hnone key Hl).
Qed.

(** ** The last position wins *)

Lemma list_remove_first_app_r x l1 l2 :
  x ∉ l1 → list_remove_first x (l1 ++ x :: l2) = Some (l1 ++ l2).
Proof.
  induction l1 as [|y l1 IH]; intros Hout; cbn [app].
  - by rewrite list_remove_first_cons, String.eqb_refl.
  - apply not_elem_of_cons in Hout as [Hne Hout].
    rewrite list_remove_first_cons.
    apply not_eq_sym, String.eqb_neq in Hne. rewrite Hne. by rewrite IH.
Qed.

Lemma list_remove_first_insert_at x index l :
  x ∉ l → list_remove_first x (list_insert_at index x l) = Some l.
Proof.
  intros Hout. unfold list_insert_at. rewrite list_remove_first_app_r.
  - by rewrite take_drop.
  - intros Hin. apply Hout. by apply (subseteq_take _ _ _ Hin).
Qed.

Lemma list_remove_first_NoDup x l l' :
  NoDup l → list_remove_first x l = Some l' → x ∉ l'.
Proof.
  intros Hnd Hrm. pose proof (list_remove_first_perm _ _ _ Hrm) as Hperm.
  rewrite Hperm in Hnd. by apply NoDup_cons in Hnd as [? _].
Qed.

Lemma list_insert_at_end {A} (x : A) (l : list A) :
  list_insert_at (Z.of_nat (length l)) x l = l ++ [x].
Proof.
  rewrite list_insert_at_in_range by lia. rewrite Nat2Z.id.
  by rewrite firstn_all, drop_all.
Qed.
(** * Rendering, mutation and copying: further properties *)

(** X1. Tagged rendering walks [order] as flat text does and keeps the same
    keys: a key contributes the block [<key>], newline, content, newline,
    [</key>] when its chip exists and is not ignored, and nothing
    otherwise.  The blocks are joined by one newline, whatever the
    splitter of the collection is; a key without a chip can be dropped
    from [order] without changing the output, and the result is the empty
    string when no chip is left. *)
Theorem X1_to_xml_blocks (h : Heap) (self : SystemPromptChipsSchema.t) :
  heap_ok h = true → chips_ok h self = true →
  SystemPromptChipsSchema.to_xml self h
  = (Return (str_join NL (omap (tagged h self) (cs_order self))), h)
  ∧ length (omap (tagged h self) (cs_order self))
    = length (omap (rendered h self) (cs_order self))
  ∧ (∀ sp, SystemPromptChipsSchema.to_xml (with_splitter sp self) h
           = SystemPromptChipsSchema.to_xml self h)
  ∧ (∀ key,
       cs_chips self !! key = None →
       SystemPromptChipsSchema.to_xml self h
       = SystemPromptChipsSchema.to_xml
           (with_order (List.filter (λ k, negb (String.eqb k key)) (cs_order self)) self) h)
  ∧ ((∀ key, key ∈ cs_order self → rendered h self key = None) →
       SystemPromptChipsSchema.to_xml self h = (Return EmptyString, h)).
Proof.
  intros Hh Hc. rewrite to_xml_spec by done.
  split; [done|]. split; [|split; [|split]].
  - apply (omap_fmap_length (rendered h self) SystemPromptChipsSchema.xml_block).
  - intros sp. by rewrite to_xml_spec.
  - intros key Hk. rewrite to_xml_spec by done. cbn [cs_order with_order].
    change (tagged h (with_order ?o self)) with (tagged h self).
    rewrite omap_filter_none; [done|].
    intros x Hx. apply negb_false_iff, String.eqb_eq in Hx as ->.
    unfold tagged. by rewrite rendered_missing.
  - intros Hall. rewrite omap_all_none; [done|].
    intros key Hkey. unfold tagged. by rewrite Hall.
Qed.

Lemma X1_to_xml_blocks_witness :
  heap_ok sample_heap = true ∧ chips_ok sample_heap sample_chips = true
  ∧ SystemPromptChipsSchema.to_xml sample_chips sample_heap
    = (Return ("<b>" +:+ NL +:+ "B" +:+ NL +:+ "</b>"), sample_heap).
Proof.
  split; [reflexivity|]. split; [reflexivity|].
  destruct (X1_to_xml_blocks sample_heap sample_chips eq_refl eq_refl) as (Hmain & _).
  rewrite Hmain. reflexivity.
Defined.

(** X2. [from_dict(data)] raises when [data] has no dict under [chips], and
    when an entry of that dict is a plain string (which [add] would accept):
    entries must be chip dicts or chip instances.  When it returns, [order]
    and [splitter] are those of [data], or the empty list and two newlines
    when left out, and [order] is taken as it is, not checked against the
    chips; the keys of the collection are exactly the keys of the dict, and
    each holds a chip named after it.  The store only grows. *)
Theorem X2_from_dict_shape (data : ChipsDict) (h : Heap) :
  heap_ok h = true →
  (d_chips data = None →
   SystemPromptChipsSchema.from_dict data h = (Raise SchemaError, h))
  ∧ (∀ items key s,
       d_chips data = Some items → (key, VStr s) ∈ items →
       ∃ e h', SystemPromptChipsSchema.from_dict data h = (Raise e, h'))
  ∧ (∀ cs h',
       SystemPromptChipsSchema.from_dict data h = (Return cs, h') →
       ∃ items,
         d_chips data = Some items
         ∧ cs_order cs = default [] (d_order data)
         ∧ cs_splitter cs = default (NL +:+ NL) (d_splitter data)
         ∧ (∀ key, is_Some (cs_chips cs !! key) ↔ key ∈ items.*1)
         ∧ named_map (cs_chips cs) h'
         ∧ heap_ok h' = true ∧ alloc_only h h').
Proof.
  intros Hh. split; [|split].
  - intros Hnone. unfold SystemPromptChipsSchema.from_dict. by rewrite Hnone.
  - intros items key s Hitems Hin. unfold SystemPromptChipsSchema.from_dict, bind.
    rewrite Hitems.
    destruct (from_dict_items_refuses_str _ _ _ Hin ∅ h) as (e & h' & ->). by eexists _, _.
  - intros cs h' Hrun.
    destruct (triple_from_dict data _ _ _ Hh I Hrun) as (Hh' & Hext & Hn & Ho & Hs).
    unfold SystemPromptChipsSchema.from_dict, bind, ret in Hrun.
    destruct (d_chips data) as [items|]; [|done].
    destruct (SystemPromptChipsSchema.from_dict_items items ∅ h) as [[m|e] h1] eqn:Hitems;
      [|done].
    injection Hrun as <- <-. exists items. split; [done|]. split; [done|]. split; [done|].
    split; [|done]. intros key. cbn [cs_chips].
    rewrite (from_dict_items_keys _ _ _ _ _ Hitems key), lookup_empty.
    split; [intros [[? ?]|?]; done|auto].
Qed.

Lemma X2_from_dict_shape_witness :
  heap_ok empty_heap = true
  ∧ (∃ cs h', SystemPromptChipsSchema.from_dict scenario_data empty_heap = (Return cs, h')
              ∧ cs_order cs = ["a"; "b"]
              ∧ ∀ key, is_Some (cs_chips cs !! key) ↔ key ∈ ["a"; "b"])
  ∧ ∃ e h', SystemPromptChipsSchema.from_dict
              {| d_order := None; d_splitter := None; d_chips := Some [("a", VStr "A")] |}
              empty_heap = (Raise e, h').
Proof.
  split; [reflexivity|]. split.
  - destruct (SystemPromptChipsSchema.from_dict scenario_data empty_heap) as [[cs|e] h'] eqn:Hrun;
      [|by vm_compute in Hrun].
    destruct (X2_from_dict_shape scenario_data empty_heap eq_refl) as (_ & _ & Hshape).
    destruct (Hshape cs h' Hrun) as (items & [= <-] & Ho & _ & Hkeys & _).
    exists cs, h'. split; [done|]. split; [exact Ho|exact Hkeys].
  - destruct (X2_from_dict_shape
                {| d_order := None; d_splitter := None; d_chips := Some [("a", VStr "A")] |}
                empty_heap eq_refl) as (_ & Hstr & _).
    apply (Hstr _ "a" "A" eq_refl). by left.
Defined.

(** X3. [_normalize_chip(key, value)] on a dict with a [content] and no
    unknown key returns a chip whose name is [key], whatever [name] the
    dict carries or omits, whose content is the dict's and whose [ignore]
    is the one its [metadata] entry asks for ([False] without one); a
    metadata instance given in the dict is shared, not copied.  Nothing
    that was in the store changes.  A dict without [content], or with a
    key other than [name], [content] and [metadata], is refused. *)
Theorem X3_normalize_chip_dict (key : string) (p : ChipPayload) (h : Heap) :
  (∀ content ig,
     p_unknown p = [] → p_content p = Some content → payload_ignore h p = Some ig →
     ∃ l m h',
       SystemPromptChipsSchema._normalize_chip key (VDict p) h = (Return l, h')
       ∧ chip_objs h' !! l = Some (SystemPromptChipSchema.mk key content m)
       ∧ meta_ignore <$> meta_objs h' !! m = Some ig
       ∧ (∀ l0, p_metadata p = Some (MetadataInstance l0) → m = l0)
       ∧ alloc_only h h')
  ∧ (p_unknown p ≠ [] ∨ p_content p = None →
     SystemPromptChipsSchema._normalize_chip key (VDict p) h = (Raise SchemaError, h)).
Proof.
  destruct p as [pn pc pm pu]. split.
  - intros content ig. cbn [p_unknown p_content]. intros -> ->.
    unfold payload_ignore. cbn [p_metadata]. intros Hig.
    unfold SystemPromptChipsSchema._normalize_chip, SystemPromptChipSchema_of_payload,
      setdefault_name, model_copy_with_name.
    cbn [p_unknown p_name p_content p_metadata].
    set (name := default key pn).
    destruct pm as [[ig0 ex|l0]|].
    + injection Hig as <-.
      unfold bind, ret, new_metadata, new_chip, read_chip.
      cbn [chip_objs meta_objs chip_name chip_content chip_metadata].
      rewrite lookup_snoc. cbn [chip_name chip_content chip_metadata].
      destruct (String.eqb name key) eqn:Hname; cbn [negb].
      * apply String.eqb_eq in Hname as ->. eexists _, _, _. split; [reflexivity|].
        cbn [chip_objs meta_objs]. rewrite !lookup_snoc. split; [done|]. split; [done|].
        split; [done|]. split; by apply prefix_app_r.
      * eexists _, _, _. split; [reflexivity|].
        cbn [chip_objs meta_objs]. rewrite !lookup_snoc. split; [done|]. split; [done|].
        split; [done|]. split; [rewrite <- app_assoc|]; by apply prefix_app_r.
    + destruct (meta_objs h !! l0) as [m0|] eqn:Hm0; [|done]. injection Hig as <-.
      unfold bind, ret, new_metadata, new_chip, read_chip, read_metadata.
      rewrite Hm0. cbn [chip_objs meta_objs chip_name chip_content chip_metadata].
      rewrite lookup_snoc. cbn [chip_name chip_content chip_metadata].
      destruct (String.eqb name key) eqn:Hname; cbn [negb].
      * apply String.eqb_eq in Hname as ->. eexists _, _, _. split; [reflexivity|].
        cbn [chip_objs meta_objs]. rewrite lookup_snoc, Hm0. split; [done|].
        split; [done|]. split; [by intros ? [= ->]|]. split; [by apply prefix_app_r|done].
      * eexists _, _, _. split; [reflexivity|].
        cbn [chip_objs meta_objs]. rewrite lookup_snoc, Hm0. split; [done|]. split; [done|].
        split; [by intros ? [= ->]|].
        split; [rewrite <- app_assoc; by apply prefix_app_r|done].
    + injection Hig as <-.
      unfold bind, ret, new_metadata, new_chip, read_chip.
      cbn [chip_objs meta_objs chip_name chip_content chip_metadata].
      rewrite lookup_snoc. cbn [chip_name chip_content chip_metadata].
      destruct (String.eqb name key) eqn:Hname; cbn [negb].
      * apply String.eqb_eq in Hname as ->. eexists _, _, _. split; [reflexivity|].
        cbn [chip_objs meta_objs]. rewrite !lookup_snoc. split; [done|]. split; [done|].
        split; [done|]. split; by apply prefix_app_r.
      * eexists _, _, _. split; [reflexivity|].
        cbn [chip_objs meta_objs]. rewrite !lookup_snoc. split; [done|]. split; [done|].
        split; [done|]. split; [rewrite <- app_assoc|]; by apply prefix_app_r.
  - cbn [p_unknown p_content].
    unfold SystemPromptChipsSchema._normalize_chip, SystemPromptChipSchema_of_payload,
      setdefault_name, bind, raise.
    cbn [p_unknown p_name p_content p_metadata].
    intros [Hu| ->]; [by destruct pu|]. by destruct pu.
Qed.

Lemma X3_normalize_chip_dict_witness :
  p_unknown (mkPayload (Some "other") (Some "K") None []) = []
  ∧ payload_ignore empty_heap (mkPayload (Some "other") (Some "K") None []) = Some false
  ∧ ∃ l m h',
      SystemPromptChipsSchema._normalize_chip "k"
        (VDict (mkPayload (Some "other") (Some "K") None [])) empty_heap
      = (Return l, h')
      ∧ chip_objs h' !! l = Some (SystemPromptChipSchema.mk "k" "K" m).
Proof.
  split; [reflexivity|]. split; [reflexivity|].
  destruct (X3_normalize_chip_dict "k" (mkPayload (Some "other") (Some "K") None [])
              empty_heap) as [Hbuilt _].
  destruct (Hbuilt "K" false eq_refl eq_refl eq_refl) as (l & m & h' & Hrun & Hchip & _).
  exists l, m, h'. split; [exact Hrun|exact Hchip].
Defined.

(** X4. Adding a text under a key that is neither in [chips] nor in
    [order] returns the new chip; [get(key)] then finds it, named [key],
    with that text and awake; every other key has the chip and the flag it
    had; [key] is appended to [order]; and both renderings gain the new
    chip at their end: the flat text is the join of the old parts followed
    by the text, the tagged text the old blocks followed by the block of
    [key]. *)
Theorem X4_add_appends_text (st : SystemPrompt.state) (key s : string) :
  state_ok st = true → st_map st !! key = None → key ∉ st_order st →
  ∃ chip st',
    SystemPrompt.add key (VStr s) st = (Return chip, st')
    ∧ state_ok st' = true
    ∧ SystemPrompt.get key st' = (Return (Some chip), st')
    ∧ chip_at (st_heap st') (st_chips st') key
      = Some (SystemPromptChipSchema.mk key s (length (meta_objs (st_heap st))))
    ∧ ignore_at (st_heap st') (st_chips st') key = Some false
    ∧ (∀ k, k ≠ key →
         chip_at (st_heap st') (st_chips st') k = chip_at (st_heap st) (st_chips st) k
         ∧ ignore_at (st_heap st') (st_chips st') k
           = ignore_at (st_heap st) (st_chips st) k)
    ∧ st_order st' = st_order st ++ [key]
    ∧ SystemPromptChipsSchema.to_str (st_chips st') (st_heap st')
      = (Return (str_join (cs_splitter (st_chips st)) (flat_parts st ++ [s])), st_heap st')
    ∧ SystemPromptChipsSchema.to_xml (st_chips st') (st_heap st')
      = (Return (str_join NL (tagged_parts st
                                ++ [SystemPromptChipsSchema.xml_block key s])),
         st_heap st').
Proof.
  intros Hok Hkey Hout.
  rewrite add_run, chip_of_content_text.
  rewrite bool_decide_eq_false_2 by (rewrite Hkey; by intros []).
  apply list_contains_not_elem_of in Hout as Hc. rewrite Hc.
  set (st' := updated (text_heap key s (st_heap st))
                (<[key := length (chip_objs (st_heap st))]> (st_map st))
                (st_order st ++ [key]) st).
  exists (length (chip_objs (st_heap st))), st'. split; [reflexivity|].
  pose proof (text_state_ok key s (st_order st ++ [key]) st Hok) as Hok'. fold st' in Hok'.
  destruct (state_ok_split _ Hok') as [Hh' Hc'].
  split; [exact Hok'|]. split; [by rewrite get_run; cbn; rewrite lookup_insert_eq|].
  split; [apply text_chip_at|]. split; [apply text_ignore_at|].
  split; [intros k Hk; by apply text_others|]. split; [done|].
  assert (Hparts : ∀ k, rendered (st_heap st') (st_chips st') k
    = if bool_decide (k = key) then Some s else rendered (st_heap st) (st_chips st) k).
  { intros k. by apply text_rendered. }
  assert (Hold : ∀ (g : string → option string) (f : string → option string),
            (∀ k, k ≠ key → g k = f k) → omap g (st_order st) = omap f (st_order st)).
  { intros g f Hg. by apply (omap_not_in _ _ key). }
  split.
  - rewrite to_str_spec by done.
    change (st_order st') with (st_order st ++ [key]).
    change (cs_splitter (st_chips st')) with (cs_splitter (st_chips st)).
    rewrite omap_app. unfold flat_parts.
    rewrite (Hold _ (rendered (st_heap st) (st_chips st))).
    + cbn [omap list_omap]. rewrite (Hparts key). by rewrite bool_decide_eq_true_2.
    + intros k Hk. rewrite (Hparts k). by rewrite bool_decide_eq_false_2.
  - rewrite to_xml_spec by done.
    change (st_order st') with (st_order st ++ [key]).
    rewrite omap_app. unfold tagged_parts.
    rewrite (Hold _ (tagged (st_heap st) (st_chips st))).
    + cbn [omap list_omap]. unfold tagged at 2. rewrite (Hparts key).
      by rewrite bool_decide_eq_true_2.
    + intros k Hk. unfold tagged. rewrite (Hparts k). by rewrite bool_decide_eq_false_2.
Qed.

Lemma X4_add_appends_text_witness :
  state_ok sample_state = true ∧ st_map sample_state !! "z" = None
  ∧ ("z" ∉ st_order sample_state)
  ∧ ∃ chip st',
      SystemPrompt.add "z" (VStr "Z") sample_state = (Return chip, st')
      ∧ SystemPromptChipsSchema.to_str (st_chips st') (st_heap st')
        = (Return ("B" +:+ NL +:+ NL +:+ "Z"), st_heap st').
Proof.
  assert (Ho : "z" ∉ st_order sample_state) by (by apply list_contains_not_elem_of).
  split; [reflexivity|]. split; [reflexivity|]. split; [exact Ho|].
  destruct (X4_add_appends_text sample_state "z" "Z" eq_refl eq_refl Ho)
    as (chip & st' & Hadd & _ & _ & _ & _ & _ & _ & Hflat & _).
  exists chip, st'. split; [exact Hadd|]. rewrite Hflat. reflexivity.
Defined.

(** X5. [remove(key)] on a key without a chip returns [False] and changes
    nothing, not even an entry of [key] left in [order].  On a key with a
    chip it returns [True], takes the key out of [chips] and every
    occurrence of it out of [order], keeps the other keys, their chips and
    their order, and leaves the store alone; a second [remove(key)]
    returns [False].  Both renderings are then those of the keys of
    [order] other than [key]. *)
Theorem X5_remove_effect (st : SystemPrompt.state) (key : string) :
  (st_map st !! key = None → SystemPrompt.remove key st = (Return false, st))
  ∧ (is_Some (st_map st !! key) →
     ∃ st',
       SystemPrompt.remove key st = (Return true, st')
       ∧ st_heap st' = st_heap st
       ∧ st_map st' !! key = None
       ∧ (∀ k, k ≠ key → st_map st' !! k = st_map st !! k)
       ∧ (key ∉ st_order st')
       ∧ (∀ k, k ≠ key → occurrences k (st_order st') = occurrences k (st_order st))
       ∧ st_order st' = List.filter (λ k, negb (String.eqb k key)) (st_order st)
       ∧ SystemPrompt.remove key st' = (Return false, st')
       ∧ (state_ok st = true →
          state_ok st' = true
          ∧ flat_parts st'
            = omap (rendered (st_heap st) (st_chips st))
                (List.filter (λ k, negb (String.eqb k key)) (st_order st))
          ∧ tagged_parts st'
            = omap (tagged (st_heap st) (st_chips st))
                (List.filter (λ k, negb (String.eqb k key)) (st_order st)))).
Proof.
  split.
  - intros Hkey. rewrite remove_run.
    rewrite bool_decide_eq_false_2; [done|]. rewrite Hkey. by intros [].
  - intros Hkey. rewrite remove_run, bool_decide_eq_true_2 by done.
    eexists. split; [reflexivity|]. split; [done|].
    split; [apply lookup_delete_eq|].
    split; [intros k Hk; by apply lookup_delete_ne|].
    split; [apply not_elem_of_filter_ne|].
    split; [intros k Hk; by apply occurrences_filter_ne|]. split; [done|].
    split.
    + rewrite remove_run. rewrite bool_decide_eq_false_2; [done|].
      cbn [updated st_self SystemPrompt.chips cs_chips]. rewrite lookup_delete_eq.
      by intros [].
    + intros Hok. split; [by apply removed_state_ok|].
      unfold flat_parts, tagged_parts. cbn [updated st_heap st_self SystemPrompt.chips cs_order].
      split; apply omap_ext_in; intros k Hin;
        apply elem_of_filter_bool in Hin as [_ Hk];
        apply negb_true_iff, String.eqb_neq in Hk.
      * by apply (removed_rendered key _ st k).
      * unfold tagged. f_equal. by apply (removed_rendered key _ st k).
Qed.

Lemma X5_remove_effect_witness :
  st_map dangling_state !! "k" = None
  ∧ SystemPrompt.remove "k" dangling_state = (Return false, dangling_state)
  ∧ "k" ∈ st_order dangling_state
  ∧ is_Some (st_map dangling_state !! "b")
  ∧ ∃ st', SystemPrompt.remove "b" dangling_state = (Return true, st')
           ∧ st_order st' = ["k"].
Proof.
  assert (Hb : is_Some (st_map dangling_state !! "b")) by (by eexists).
  destruct (X5_remove_effect dangling_state "k") as [Hmiss _].
  destruct (X5_remove_effect dangling_state "b") as [_ Hhit].
  destruct (Hhit Hb) as (st' & Hrun & _ & _ & _ & _ & _ & Horder & _).
  split; [reflexivity|]. split; [exact (Hmiss eq_refl)|].
  split; [by apply list_contains_elem_of|]. split; [exact Hb|].
  exists st'. split; [exact Hrun|]. rewrite Horder. reflexivity.
Defined.

(** X6. Round trip.  On a state where [key] is neither in [chips] nor in
    [order], an [add(key, content)] that returns followed by
    [remove(key)] gives back the composer as it was: the same chips under
    the same keys, the same order, the same splitter and renderers. *)
Theorem X6_add_then_remove (st st1 : SystemPrompt.state) (key : string)
    (content : ChipValue) (chip : loc) :
  st_map st !! key = None → key ∉ st_order st →
  SystemPrompt.add key content st = (Return chip, st1) →
  ∃ st2, SystemPrompt.remove key st1 = (Return true, st2)
         ∧ st_self st2 = st_self st
         ∧ st_heap st2 = st_heap st1.
Proof.
  intros Hkey Hout. rewrite add_run.
  rewrite bool_decide_eq_false_2 by (rewrite Hkey; by intros []).
  destruct (SystemPrompt.chip_of_content key content (st_heap st)) as [[l|e] h']; [|done].
  apply list_contains_not_elem_of in Hout as Hc. rewrite Hc.
  intros [= <- <-]. rewrite remove_run.
  cbn [updated st_heap st_self SystemPrompt.chips cs_chips cs_order cs_splitter
       SystemPrompt.to_str SystemPrompt.to_xml].
  rewrite bool_decide_eq_true_2 by (rewrite lookup_insert_eq; by eexists).
  eexists. split; [reflexivity|]. split; [|done].
  cbn [updated st_heap st_self SystemPrompt.chips cs_chips cs_order cs_splitter
       SystemPrompt.to_str SystemPrompt.to_xml].
  rewrite delete_insert_id by done.
  rewrite List.filter_app. cbn [List.filter]. rewrite String.eqb_refl. cbn [negb].
  rewrite app_nil_r, filter_ne_not_in by done.
  by destruct st as [h [[o sp m] ts tx]].
Qed.

Lemma X6_add_then_remove_witness :
  st_map sample_state !! "z" = None ∧ ("z" ∉ st_order sample_state)
  ∧ ∃ chip st1 st2,
      SystemPrompt.add "z" (VStr "Z") sample_state = (Return chip, st1)
      ∧ SystemPrompt.remove "z" st1 = (Return true, st2)
      ∧ st_self st2 = st_self sample_state.
Proof.
  assert (Ho : "z" ∉ st_order sample_state) by (by apply list_contains_not_elem_of).
  split; [reflexivity|]. split; [exact Ho|].
  destruct (SystemPrompt.add "z" (VStr "Z") sample_state) as [[chip|e] st1] eqn:Hadd;
    [|by vm_compute in Hadd].
  destruct (X6_add_then_remove sample_state st1 "z" (VStr "Z") chip eq_refl Ho Hadd)
    as (st2 & Hrem & Hself & _).
  by exists chip, st1, st2.
Defined.

(** X7. [ignore], [wakeup] and [toggle] on a key without a chip raise
    [KeyNotFoundError] and change nothing.  On a key with a chip, [ignore]
    and [wakeup] return the key and touch nothing but the flag: the
    composer and the chip objects are as before, the chip of the key is
    ignored after [ignore] (and contributes nothing to a rendering) and
    awake after [wakeup] (and contributes its content); when no two chips
    share a metadata object, every other key keeps its flag. *)
Theorem X7_ignore_wakeup_effect (st : SystemPrompt.state) (key : string) :
  state_ok st = true →
  (st_map st !! key = None →
   SystemPrompt.ignore key st = (Raise KeyNotFoundError, st)
   ∧ SystemPrompt.wakeup key st = (Raise KeyNotFoundError, st)
   ∧ SystemPrompt.toggle key st = (Raise KeyNotFoundError, st))
  ∧ (∀ c,
       chip_at (st_heap st) (st_chips st) key = Some c →
       ∃ st_i st_w,
         SystemPrompt.ignore key st = (Return key, st_i)
         ∧ SystemPrompt.wakeup key st = (Return key, st_w)
         ∧ st_self st_i = st_self st ∧ st_self st_w = st_self st
         ∧ chip_objs (st_heap st_i) = chip_objs (st_heap st)
         ∧ chip_objs (st_heap st_w) = chip_objs (st_heap st)
         ∧ ignore_at (st_heap st_i) (st_chips st_i) key = Some true
         ∧ ignore_at (st_heap st_w) (st_chips st_w) key = Some false
         ∧ rendered (st_heap st_i) (st_chips st_i) key = None
         ∧ rendered (st_heap st_w) (st_chips st_w) key = Some (chip_content c)
         ∧ (unshared (st_heap st) (st_chips st) = true →
            ∀ k, k ≠ key →
              ignore_at (st_heap st_i) (st_chips st_i) k
              = ignore_at (st_heap st) (st_chips st) k
              ∧ ignore_at (st_heap st_w) (st_chips st_w) k
                = ignore_at (st_heap st) (st_chips st) k)).
Proof.
  intros Hok. split.
  - intros Hkey. rewrite ignore_run, wakeup_run, toggle_run by done.
    unfold ignore_at, chip_at. by rewrite Hkey.
  - intros c Hc. pose proof (chip_at_is_Some _ _ _ Hc) as Hkey.
    exists (flagged key true st), (flagged key false st).
    rewrite ignore_run, wakeup_run by done. destruct Hkey as [l Hl]. rewrite Hl.
    assert (Hkey : is_Some (st_map st !! key)) by (by eexists).
    split; [done|]. split; [done|].
    split; [apply flagged_self|]. split; [apply flagged_self|].
    split; [apply flagged_chip_objs|]. split; [apply flagged_chip_objs|].
    split; [by apply flagged_ignore_at_eq|]. split; [by apply flagged_ignore_at_eq|].
    split; [|split].
    + apply rendered_ignored. by apply flagged_ignore_at_eq.
    + rewrite (rendered_ignore_at _ _ _ c false); [done| |by apply flagged_ignore_at_eq].
      by rewrite flagged_chip_at.
    + intros Hu k Hk. split; by apply flagged_ignore_at_ne.
Qed.

Lemma X7_ignore_wakeup_effect_witness :
  state_ok sample_state = true
  ∧ SystemPrompt.ignore "ghost" sample_state = (Raise KeyNotFoundError, sample_state)
  ∧ ∃ st_i, SystemPrompt.ignore "b" sample_state = (Return "b", st_i)
            ∧ ignore_at (st_heap st_i) (st_chips st_i) "b" = Some true
            ∧ ignore_at (st_heap st_i) (st_chips st_i) "c" = Some false.
Proof.
  split; [reflexivity|].
  destruct (X7_ignore_wakeup_effect sample_state "ghost" eq_refl) as [Hmiss _].
  split; [exact (proj1 (Hmiss eq_refl))|].
  destruct (X7_ignore_wakeup_effect sample_state "b" eq_refl) as [_ Hhit].
  destruct (Hhit _ eq_refl) as (st_i & st_w & Hi & _ & _ & _ & _ & _ & Hflag & _ & _ & _ & Hother).
  exists st_i. split; [exact Hi|]. split; [exact Hflag|].
  rewrite (proj1 (Hother eq_refl "c" ltac:(discriminate))). reflexivity.
Defined.

(** X8. Waking a chip that is awake, and ignoring a chip that is ignored,
    return the key and leave the state exactly as it was.  After
    [ignore(key)] a second [ignore(key)] changes nothing, and
    [wakeup(key)] gives the state [wakeup(key)] would have given at the
    start: the state before the [ignore] when the chip was awake then. *)
Theorem X8_ignore_wakeup_idempotent (st : SystemPrompt.state) (key : string) :
  state_ok st = true → is_Some (st_map st !! key) →
  (ignore_at (st_heap st) (st_chips st) key = Some false →
   SystemPrompt.wakeup key st = (Return key, st))
  ∧ (ignore_at (st_heap st) (st_chips st) key = Some true →
     SystemPrompt.ignore key st = (Return key, st))
  ∧ ∃ st_i st_w,
      SystemPrompt.ignore key st = (Return key, st_i)
      ∧ SystemPrompt.wakeup key st = (Return key, st_w)
      ∧ SystemPrompt.ignore key st_i = (Return key, st_i)
      ∧ SystemPrompt.wakeup key st_w = (Return key, st_w)
      ∧ SystemPrompt.wakeup key st_i = (Return key, st_w)
      ∧ SystemPrompt.ignore key st_w = (Return key, st_i)
      ∧ (ignore_at (st_heap st) (st_chips st) key = Some false → st_w = st)
      ∧ (ignore_at (st_heap st) (st_chips st) key = Some true → st_i = st).
Proof.
  intros Hok [l Hl].
  assert (Hrun : ∀ (b : bool) (st0 : SystemPrompt.state),
            state_ok st0 = true → st_self st0 = st_self st →
            (if b then SystemPrompt.ignore key st0 else SystemPrompt.wakeup key st0)
            = (Return key, flagged key b st0)).
  { intros b st0 Hok0 Hself. destruct b; rewrite ?ignore_run, ?wakeup_run by done;
      by rewrite Hself, Hl. }
  pose proof (Hrun true st Hok eq_refl) as Hi. pose proof (Hrun false st Hok eq_refl) as Hw.
  cbn beta iota in Hi, Hw.
  split; [|split].
  - intros Hig. by rewrite Hw, flagged_same.
  - intros Hig. by rewrite Hi, flagged_same.
  - exists (flagged key true st), (flagged key false st).
    split; [done|]. split; [done|].
    pose proof (Hrun true (flagged key true st) (flagged_state_ok _ _ _ Hok)
                  (flagged_self _ _ _)) as H1.
    pose proof (Hrun false (flagged key false st) (flagged_state_ok _ _ _ Hok)
                  (flagged_self _ _ _)) as H2.
    pose proof (Hrun false (flagged key true st) (flagged_state_ok _ _ _ Hok)
                  (flagged_self _ _ _)) as H3.
    pose proof (Hrun true (flagged key false st) (flagged_state_ok _ _ _ Hok)
                  (flagged_self _ _ _)) as H4.
    cbn beta iota in H1, H2, H3, H4. rewrite flagged_flagged in H1, H2, H3, H4 by done.
    split; [done|]. split; [done|]. split; [done|]. split; [done|].
    split; intros Hig; by apply flagged_same.
Qed.

Lemma X8_ignore_wakeup_idempotent_witness :
  state_ok sample_state = true ∧ is_Some (st_map sample_state !! "b")
  ∧ SystemPrompt.wakeup "b" sample_state = (Return "b", sample_state)
  ∧ SystemPrompt.ignore "a" sample_state = (Return "a", sample_state).
Proof.
  assert (Hb : is_Some (st_map sample_state !! "b")) by (by eexists).
  assert (Ha : is_Some (st_map sample_state !! "a")) by (by eexists).
  split; [reflexivity|]. split; [exact Hb|].
  destruct (X8_ignore_wakeup_idempotent sample_state "b" eq_refl Hb) as (Hw & _).
  destruct (X8_ignore_wakeup_idempotent sample_state "a" eq_refl Ha) as (_ & Hi & _).
  split; [exact (Hw eq_refl)|exact (Hi eq_refl)].
Defined.

(** X9. [toggle(key)] on a key with a chip returns the key and inverts the
    flag of the chip: it does what [ignore] does when the chip is awake
    and what [wakeup] does when it is ignored.  A second [toggle(key)]
    gives back the state before the first. *)
Theorem X9_toggle_involution (st : SystemPrompt.state) (key : string) (ig : bool) :
  state_ok st = true → ignore_at (st_heap st) (st_chips st) key = Some ig →
  ∃ st',
    SystemPrompt.toggle key st = (Return key, st')
    ∧ ignore_at (st_heap st') (st_chips st') key = Some (negb ig)
    ∧ st_self st' = st_self st
    ∧ (if ig then SystemPrompt.wakeup key st else SystemPrompt.ignore key st)
      = (Return key, st')
    ∧ SystemPrompt.toggle key st' = (Return key, st).
Proof.
  intros Hok Hig. pose proof (ignore_at_is_Some _ _ _ Hig) as Hkey.
  exists (flagged key (negb ig) st). rewrite toggle_run, Hig by done.
  split; [done|]. split; [by apply flagged_ignore_at_eq|]. split; [apply flagged_self|].
  split.
  - destruct Hkey as [l Hl]. destruct ig; rewrite ?ignore_run, ?wakeup_run by done;
      by rewrite Hl.
  - rewrite toggle_run by (by apply flagged_state_ok).
    rewrite flagged_ignore_at_eq by done. rewrite flagged_flagged by done.
    rewrite negb_involutive. by rewrite flagged_same.
Qed.

Lemma X9_toggle_involution_witness :
  state_ok sample_state = true
  ∧ ignore_at (st_heap sample_state) (st_chips sample_state) "a" = Some true
  ∧ ∃ st', SystemPrompt.toggle "a" sample_state = (Return "a", st')
           ∧ SystemPrompt.toggle "a" st' = (Return "a", sample_state).
Proof.
  split; [reflexivity|]. split; [reflexivity|].
  destruct (X9_toggle_involution sample_state "a" true eq_refl eq_refl)
    as (st' & Ht & _ & _ & _ & Hback).
  exists st'. split; [exact Ht|exact Hback].
Defined.

(** X10. [move(key, index)], for a key in [chips] and in [order] and an
    index in range, touches [order] alone, and only rearranges it: the new
    order is a permutation of the old one, has [key] at position [index],
    and lists the other keys in the sequence they had.  Moving a key to
    the position where it first stands changes nothing at all. *)
Theorem X10_move_rearranges (st : SystemPrompt.state) (key : string) (index : Z) :
  is_Some (st_map st !! key) → key ∈ st_order st →
  (0 ≤ index < Z.of_nat (length (st_order st)))%Z →
  ∃ st',
    SystemPrompt.move key index st = (Return tt, st')
    ∧ st_heap st' = st_heap st ∧ st_map st' = st_map st
    ∧ st_order st' !! Z.to_nat index = Some key
    ∧ st_order st' ≡ₚ st_order st
    ∧ List.filter (λ k, negb (String.eqb k key)) (st_order st')
      = List.filter (λ k, negb (String.eqb k key)) (st_order st)
    ∧ (NoDup (st_order st) → NoDup (st_order st'))
    ∧ (st_order st !! Z.to_nat index = Some key →
       key ∉ take (Z.to_nat index) (st_order st) → st' = st).
Proof.
  intros Hkey Hin Hr. rewrite move_run.
  rewrite bool_decide_eq_true_2 by done. cbn [negb].
  apply list_contains_elem_of in Hin as Hc. rewrite Hc. cbn [negb].
  assert ((index <? 0)%Z || (Z.of_nat (length (st_order st)) <=? index)%Z = false) as ->.
  { apply orb_false_iff. split; [apply Z.ltb_ge|apply Z.leb_gt]; lia. }
  destruct (list_remove_first_contains _ _ Hc) as [o' Ho']. rewrite Ho'.
  pose proof (list_remove_first_length _ _ _ Ho') as Hlen.
  pose proof (list_remove_first_perm _ _ _ Ho') as Hperm.
  eexists. split; [reflexivity|].
  cbn [updated st_heap st_self SystemPrompt.chips cs_chips cs_order].
  split; [done|]. split; [done|].
  split; [apply list_insert_at_lookup; lia|].
  split; [by rewrite list_insert_at_perm, Hperm|].
  split; [by rewrite filter_ne_insert_at, (filter_ne_remove_first _ _ _ Ho')|].
  split; [intros Hnd; by rewrite list_insert_at_perm, <- Hperm|].
  intros Hat Hfirst. rewrite (list_remove_first_at _ _ _ Hat Hfirst) in Ho'.
  injection Ho' as <-. rewrite <- (Z2Nat.id index) at 1 by lia.
  rewrite (list_insert_at_back _ _ _ Hat). apply updated_same.
Qed.

Lemma X10_move_rearranges_witness :
  is_Some (st_map sample_state !! "b") ∧ ("b" ∈ st_order sample_state)
  ∧ ∃ st', SystemPrompt.move "b" 0 sample_state = (Return tt, st')
           ∧ st_order st' ≡ₚ ["a"; "ghost"; "b"]
           ∧ st_order st' !! 0 = Some "b".
Proof.
  assert (Hb : is_Some (st_map sample_state !! "b")) by (by eexists).
  assert (Ho : "b" ∈ st_order sample_state) by (by apply list_contains_elem_of).
  split; [exact Hb|]. split; [exact Ho|].
  destruct (X10_move_rearranges sample_state "b" 0 Hb Ho ltac:(cbn; lia))
    as (st' & Hrun & _ & _ & Hat & Hperm & _).
  exists st'. split; [exact Hrun|]. split; [exact Hperm|exact Hat].
Defined.

(** X11. Inserting a text at [index] under a key that is neither in
    [chips] nor in [order] puts the key at that position and the text at
    the matching place of the flat rendering: what the keys before
    [index] render, then the text, then what the keys from [index] on
    render.  The other keys keep their sequence, their chips and their
    flags, and [get(key)] finds the new chip. *)
Theorem X11_insert_places_text (st : SystemPrompt.state) (key s : string) (index : Z) :
  state_ok st = true → st_map st !! key = None → key ∉ st_order st →
  (0 ≤ index ≤ Z.of_nat (length (st_order st)))%Z →
  ∃ chip st',
    SystemPrompt.insert key (VStr s) index st = (Return chip, st')
    ∧ state_ok st' = true
    ∧ SystemPrompt.get key st' = (Return (Some chip), st')
    ∧ st_order st' !! Z.to_nat index = Some key
    ∧ List.filter (λ k, negb (String.eqb k key)) (st_order st') = st_order st
    ∧ (∀ k, k ≠ key →
         chip_at (st_heap st') (st_chips st') k = chip_at (st_heap st) (st_chips st) k
         ∧ ignore_at (st_heap st') (st_chips st') k
           = ignore_at (st_heap st) (st_chips st) k)
    ∧ SystemPromptChipsSchema.to_str (st_chips st') (st_heap st')
      = (Return (str_join (cs_splitter (st_chips st))
                   (omap (rendered (st_heap st) (st_chips st))
                      (take (Z.to_nat index) (st_order st))
                    ++ s :: omap (rendered (st_heap st) (st_chips st))
                              (drop (Z.to_nat index) (st_order st)))),
         st_heap st').
Proof.
  intros Hok Hkey Hout Hr.
  rewrite insert_run, chip_of_content_text.
  rewrite bool_decide_eq_false_2 by (rewrite Hkey; by intros []).
  assert ((index <? 0)%Z || (Z.of_nat (length (st_order st)) <? index)%Z = false) as ->.
  { apply orb_false_iff. split; apply Z.ltb_ge; lia. }
  set (st' := updated (text_heap key s (st_heap st))
                (<[key := length (chip_objs (st_heap st))]> (st_map st))
                (list_insert_at index key (st_order st)) st).
  exists (length (chip_objs (st_heap st))), st'. split; [reflexivity|].
  pose proof (text_state_ok key s (list_insert_at index key (st_order st)) st Hok) as Hok'.
  fold st' in Hok'. destruct (state_ok_split _ Hok') as [Hh' Hc'].
  split; [exact Hok'|]. split; [by rewrite get_run; cbn; rewrite lookup_insert_eq|].
  split; [by apply list_insert_at_lookup|].
  split; [cbn; by rewrite filter_ne_insert_at, filter_ne_not_in|].
  split; [intros k Hk; by apply text_others|].
  assert (Hparts : ∀ k, rendered (st_heap st') (st_chips st') k
    = if bool_decide (k = key) then Some s else rendered (st_heap st) (st_chips st) k).
  { intros k. by apply text_rendered. }
  rewrite to_str_spec by done.
  change (st_order st') with (list_insert_at index key (st_order st)).
  change (cs_splitter (st_chips st')) with (cs_splitter (st_chips st)).
  rewrite list_insert_at_in_range by done.
  rewrite omap_app. cbn [omap list_omap]. rewrite (Hparts key), bool_decide_eq_true_2 by done.
  assert (Hsame : ∀ l : list string, key ∉ l →
            omap (rendered (st_heap st') (st_chips st')) l
            = omap (rendered (st_heap st) (st_chips st)) l).
  { intros l Hl. apply (omap_not_in _ _ key); [done|]. intros k Hk.
    rewrite (Hparts k). by rewrite bool_decide_eq_false_2. }
  rewrite !Hsame; [done| |].
  - intros Hd. apply Hout. by apply (subseteq_drop _ _ _ Hd).
  - intros Ht. apply Hout. by apply (subseteq_take _ _ _ Ht).
Qed.

Lemma X11_insert_places_text_witness :
  state_ok sample_state = true ∧ st_map sample_state !! "z" = None
  ∧ ("z" ∉ st_order sample_state)
  ∧ ∃ chip st',
      SystemPrompt.insert "z" (VStr "Z") 0 sample_state = (Return chip, st')
      ∧ SystemPromptChipsSchema.to_str (st_chips st') (st_heap st')
        = (Return ("Z" +:+ NL +:+ NL +:+ "B"), st_heap st').
Proof.
  assert (Ho : "z" ∉ st_order sample_state) by (by apply list_contains_not_elem_of).
  split; [reflexivity|]. split; [reflexivity|]. split; [exact Ho|].
  destruct (X11_insert_places_text sample_state "z" "Z" 0 eq_refl eq_refl Ho
              ltac:(cbn; lia))
    as (chip & st' & Hins & _ & _ & _ & _ & _ & Hflat).
  exists chip, st'. split; [exact Hins|]. rewrite Hflat. reflexivity.
Defined.

(** X12. A soft delete reads like a delete.  When no two chips share a
    metadata object, [ignore(key)] and [remove(key)] of a key that has a
    chip lead to the same flat text and the same tagged text, although
    only [remove] takes the key out of [chips] and [order]. *)
Theorem X12_ignore_renders_as_remove (st : SystemPrompt.state) (key : string) :
  state_ok st = true → unshared (st_heap st) (st_chips st) = true →
  is_Some (st_map st !! key) →
  ∃ st_i st_r flat xml,
    SystemPrompt.ignore key st = (Return key, st_i)
    ∧ SystemPrompt.remove key st = (Return true, st_r)
    ∧ is_Some (st_map st_i !! key) ∧ st_map st_r !! key = None
    ∧ SystemPromptChipsSchema.to_str (st_chips st_i) (st_heap st_i)
      = (Return flat, st_heap st_i)
    ∧ SystemPromptChipsSchema.to_str (st_chips st_r) (st_heap st_r)
      = (Return flat, st_heap st_r)
    ∧ SystemPromptChipsSchema.to_xml (st_chips st_i) (st_heap st_i)
      = (Return xml, st_heap st_i)
    ∧ SystemPromptChipsSchema.to_xml (st_chips st_r) (st_heap st_r)
      = (Return xml, st_heap st_r).
Proof.
  intros Hok Hu Hkey.
  destruct (removed_parts st key Hkey Hok) as (Hrun & Hokr & Hfr & Hxr).
  set (st_r := updated (st_heap st) (delete key (st_map st))
                 (List.filter (λ k, negb (String.eqb k key)) (st_order st)) st) in *.
  pose proof (flagged_state_ok key true st Hok) as Hoki.
  destruct (state_ok_split _ Hoki) as [Hhi Hci].
  destruct (state_ok_split _ Hokr) as [Hhr Hcr].
  assert (Hparts : ∀ k, k ∈ st_order st →
            rendered (st_heap (flagged key true st)) (st_chips (flagged key true st)) k
            = if negb (String.eqb k key) then rendered (st_heap st) (st_chips st) k
              else None).
  { intros k _. unfold rendered at 1. rewrite flagged_chip_at.
    destruct (String.eqb k key) eqn:Heq; cbn [negb].
    - apply String.eqb_eq in Heq as ->. rewrite flagged_ignore_at_eq by done.
      by destruct (chip_at _ _ key).
    - apply String.eqb_neq in Heq. by rewrite flagged_ignore_at_ne. }
  assert (Hflat : flat_parts (flagged key true st) = flat_parts st_r).
  { rewrite Hfr. unfold flat_parts. rewrite (flagged_self key true st) at 2.
    apply omap_filter_bool.
    - intros k Hin HP. by rewrite (Hparts k Hin), HP.
    - intros k Hin HP. by rewrite (Hparts k Hin), HP. }
  assert (Hxml : tagged_parts (flagged key true st) = tagged_parts st_r).
  { rewrite Hxr. unfold tagged_parts. rewrite (flagged_self key true st) at 2.
    apply omap_filter_bool.
    - intros k Hin HP. unfold tagged. by rewrite (Hparts k Hin), HP.
    - intros k Hin HP. unfold tagged. by rewrite (Hparts k Hin), HP. }
  exists (flagged key true st), st_r,
    (str_join (cs_splitter (st_chips st)) (flat_parts st_r)),
    (str_join NL (tagged_parts st_r)).
  split. { rewrite ignore_run by done. by destruct Hkey as [l ->]. }
  split; [exact Hrun|].
  split; [by rewrite flagged_self|].
  split; [apply lookup_delete_eq|].
  rewrite !to_str_spec, !to_xml_spec by done.
  fold (flat_parts (flagged key true st)). fold (tagged_parts (flagged key true st)).
  fold (flat_parts st_r). fold (tagged_parts st_r).
  rewrite Hflat, Hxml, flagged_self. done.
Qed.

Lemma X12_ignore_renders_as_remove_witness :
  state_ok sample_state = true
  ∧ unshared (st_heap sample_state) (st_chips sample_state) = true
  ∧ is_Some (st_map sample_state !! "b")
  ∧ ∃ st_i st_r flat,
      SystemPrompt.ignore "b" sample_state = (Return "b", st_i)
      ∧ SystemPrompt.remove "b" sample_state = (Return true, st_r)
      ∧ SystemPromptChipsSchema.to_str (st_chips st_i) (st_heap st_i)
        = (Return flat, st_heap st_i)
      ∧ SystemPromptChipsSchema.to_str (st_chips st_r) (st_heap st_r)
        = (Return flat, st_heap st_r).
Proof.
  assert (Hb : is_Some (st_map sample_state !! "b")) by (by eexists).
  assert (Hu : unshared (st_heap sample_state) (st_chips sample_state) = true)
    by (vm_compute; reflexivity).
  split; [reflexivity|]. split; [exact Hu|]. split; [exact Hb|].
  destruct (X12_ignore_renders_as_remove sample_state "b" eq_refl Hu Hb)
    as (st_i & st_r & flat & xml & Hi & Hr & _ & _ & Hfi & Hfr & _).
  exists st_i, st_r, flat. done.
Defined.

(** X13. [replace_chips] swaps the whole collection and nothing else.
    Given a string, it never fails: the composer then holds the single
    default chip, every other key is gone, both default renderings show
    the string alone, and the rendering functions given at construction
    stay in place.  Given a collection, the composer holds that very
    collection.  Whenever it raises (an unsupported argument, a dict
    without a [chips] dict, a chip that cannot be built), the composer
    keeps the collection and the renderers it had. *)
Theorem X13_replace_chips_swaps (st : SystemPrompt.state) :
  (∀ s, ∃ st',
      SystemPrompt.replace_chips (SystemPrompt.ContentStr s) st = (Return tt, st')
      ∧ SystemPrompt.to_str (st_self st') = SystemPrompt.to_str (st_self st)
      ∧ SystemPrompt.to_xml (st_self st') = SystemPrompt.to_xml (st_self st)
      ∧ st_order st' = [DEFAULT_SYSTEM_PROMPT_CHIP_KEY]
      ∧ (∀ key, key ≠ DEFAULT_SYSTEM_PROMPT_CHIP_KEY →
           SystemPrompt.get key st' = (Return None, st'))
      ∧ alloc_only (st_heap st) (st_heap st')
      ∧ SystemPromptChipsSchema.to_str (st_chips st') (st_heap st')
        = (Return s, st_heap st')
      ∧ SystemPromptChipsSchema.to_xml (st_chips st') (st_heap st')
        = (Return (SystemPromptChipsSchema.xml_block DEFAULT_SYSTEM_PROMPT_CHIP_KEY s),
           st_heap st'))
  ∧ (∀ cs, ∃ st',
      SystemPrompt.replace_chips (SystemPrompt.ContentChips cs) st = (Return tt, st')
      ∧ st_chips st' = cs ∧ st_heap st' = st_heap st
      ∧ SystemPrompt.to_str (st_self st') = SystemPrompt.to_str (st_self st)
      ∧ SystemPrompt.to_xml (st_self st') = SystemPrompt.to_xml (st_self st))
  ∧ SystemPrompt.replace_chips SystemPrompt.ContentOther st = (Raise SchemaError, st)
  ∧ (∀ d, d_chips d = None →
       SystemPrompt.replace_chips (SystemPrompt.ContentDict d) st
       = (Raise SchemaError, st))
  ∧ (∀ content e st',
       SystemPrompt.replace_chips content st = (Raise e, st') →
       st_self st' = st_self st).
Proof.
  split; [|split; [|split; [|split]]].
  - intros s. rewrite replace_chips_run. unfold SystemPrompt.chips_of_content.
    rewrite chips_default_run. eexists. split; [reflexivity|].
    cbn [st_self st_heap SystemPrompt.to_str SystemPrompt.to_xml SystemPrompt.chips].
    split; [done|]. split; [done|]. split; [done|].
    split.
    { intros key Hkey. rewrite get_run.
      cbn [st_self SystemPrompt.chips default_chips cs_chips].
      by rewrite lookup_singleton_ne. }
    split; [split; by apply prefix_app_r|].
    split; [apply default_to_str|apply default_to_xml].
  - intros cs. rewrite replace_chips_run. unfold SystemPrompt.chips_of_content.
    eexists. split; [reflexivity|]. done.
  - rewrite replace_chips_run. unfold SystemPrompt.chips_of_content. by destruct st.
  - intros d Hd. rewrite replace_chips_run.
    unfold SystemPrompt.chips_of_content. unfold SystemPromptChipsSchema.from_dict.
    rewrite Hd. by destruct st.
  - intros content e st'. rewrite replace_chips_run.
    destruct (SystemPrompt.chips_of_content content (st_heap st)) as [[cs|e'] h'];
      intros Hrun; [done|]. by injection Hrun as _ <-.
Qed.

(** X14. [update(text, key)] for a key of [order] rewrites the text in
    place: [order] is unchanged, every occurrence of [key] now renders
    [text] (also when the key had no chip, or an ignored one), and every
    other key renders what it did.  The chip is replaced, not modified:
    the objects of the store, the old chip among them, are as they
    were. *)
Theorem X14_update_rewrites_in_place (st : SystemPrompt.state) (key s : string) :
  state_ok st = true → key ∈ st_order st →
  ∃ st',
    SystemPrompt.update (VStr s) key st = (Return tt, st')
    ∧ state_ok st' = true
    ∧ st_order st' = st_order st
    ∧ alloc_only (st_heap st) (st_heap st')
    ∧ flat_parts st'
      = omap (λ k, if bool_decide (k = key) then Some s
                   else rendered (st_heap st) (st_chips st) k) (st_order st)
    ∧ tagged_parts st'
      = omap (λ k, if bool_decide (k = key)
                   then Some (SystemPromptChipsSchema.xml_block key s)
                   else tagged (st_heap st) (st_chips st) k) (st_order st)
    ∧ SystemPromptChipsSchema.to_str (st_chips st') (st_heap st')
      = (Return (str_join (cs_splitter (st_chips st)) (flat_parts st')), st_heap st')
    ∧ SystemPromptChipsSchema.to_xml (st_chips st') (st_heap st')
      = (Return (str_join NL (tagged_parts st')), st_heap st').
Proof.
  intros Hok Hin. rewrite update_run, chip_of_content_text.
  apply list_contains_elem_of in Hin as Hc. rewrite Hc. cbn [negb].
  set (st' := updated (text_heap key s (st_heap st))
                (<[key := length (chip_objs (st_heap st))]> (st_map st))
                (st_order st) st).
  exists st'. split; [reflexivity|].
  pose proof (text_state_ok key s (st_order st) st Hok) as Hok'. fold st' in Hok'.
  destruct (state_ok_split _ Hok') as [Hh' Hc'].
  split; [exact Hok'|]. split; [done|]. split; [apply text_heap_alloc_only|].
  assert (Hparts : ∀ k, rendered (st_heap st') (st_chips st') k
    = if bool_decide (k = key) then Some s else rendered (st_heap st) (st_chips st) k).
  { intros k. by apply text_rendered. }
  split; [|split].
  - unfold flat_parts. change (st_order st') with (st_order st).
    apply omap_ext_in. intros k _. apply Hparts.
  - unfold tagged_parts. change (st_order st') with (st_order st).
    apply omap_ext_in. intros k _. unfold tagged. rewrite (Hparts k).
    case_bool_decide as Hk; [by subst k|done].
  - split; [by rewrite to_str_spec|by rewrite to_xml_spec].
Qed.

Lemma X14_update_rewrites_in_place_witness :
  state_ok sample_state = true ∧ ("a" ∈ st_order sample_state)
  ∧ SystemPromptChipsSchema.to_str (st_chips sample_state) (st_heap sample_state)
    = (Return "B", st_heap sample_state)
  ∧ ∃ st', SystemPrompt.update (VStr "A2") "a" sample_state = (Return tt, st')
           ∧ SystemPromptChipsSchema.to_str (st_chips st') (st_heap st')
             = (Return ("A2" +:+ NL +:+ NL +:+ "B"), st_heap st').
Proof.
  assert (Ho : "a" ∈ st_order sample_state) by (by apply list_contains_elem_of).
  split; [reflexivity|]. split; [exact Ho|]. split; [reflexivity|].
  destruct (X14_update_rewrites_in_place sample_state "a" "A2" eq_refl Ho)
    as (st' & Hrun & _ & _ & _ & Hflat & _ & Hstr & _).
  exists st'. split; [exact Hrun|]. rewrite Hstr, Hflat. reflexivity.
Defined.

Lemma X13_replace_chips_swaps_witness :
  d_chips (mkChipsDict (Some ["a"]) None None) = None
  ∧ SystemPrompt.replace_chips
      (SystemPrompt.ContentDict (mkChipsDict (Some ["a"]) None None)) sample_state
    = (Raise SchemaError, sample_state).
Proof.
  split; [reflexivity|].
  destruct (X13_replace_chips_swaps sample_state) as (_ & _ & _ & Hdict & _).
  exact (Hdict (mkChipsDict (Some ["a"]) None None) eq_refl).
Defined.

(** X15. [wakeup_all], on any composer with valid references and whether
    or not chips share metadata, returns and leaves every chip of [order]
    awake.  The keys it reports are keys of [order], in that sequence,
    whose chip was asleep; it puts no chip to sleep, changes no chip
    object and nothing of the collection; a second call right after
    reports nothing and changes nothing.  The flat text is then the
    contents of all chips of [order]. *)
Theorem X15_wakeup_all_wakes_order (st : SystemPrompt.state) :
  state_ok st = true →
  ∃ waked st',
    SystemPrompt.wakeup_all st = (Return waked, st')
    ∧ state_ok st' = true
    ∧ st_self st' = st_self st
    ∧ chip_objs (st_heap st') = chip_objs (st_heap st)
    ∧ waked `sublist_of` st_order st
    ∧ (∀ key, key ∈ waked → ignore_at (st_heap st) (st_chips st) key = Some true)
    ∧ (∀ key, ignore_at (st_heap st) (st_chips st) key = Some false →
         ignore_at (st_heap st') (st_chips st') key = Some false)
    ∧ (∀ key, key ∈ st_order st → is_Some (st_map st !! key) →
         ignore_at (st_heap st') (st_chips st') key = Some false)
    ∧ SystemPrompt.wakeup_all st' = (Return [], st')
    ∧ flat_parts st'
      = omap (λ key, chip_content <$> chip_at (st_heap st) (st_chips st) key)
          (st_order st).
Proof.
  intros Hok. destruct (state_ok_split _ Hok) as [Hh Hc].
  destruct st as [h me]. cbn [st_heap st_self] in *.
  unfold SystemPrompt.wakeup_all, bind at 1, SystemPrompt.the_order at 1, gets at 1.
  cbn [st_self].
  destruct (wakeup_all_loop_general me (cs_order (SystemPrompt.chips me)) h [] Hh Hc)
    as (h' & woken & Hrun & Hco & Hlen & Hsub & Hwere & Hkeep & Hall & _).
  assert (Hh' : heap_ok h' = true) by (by apply (heap_ok_same_shape h)).
  assert (Hc' : chips_ok h' (SystemPrompt.chips me) = true).
  { apply chips_ok_intro. rewrite Hco. eauto using chips_ok_lookup. }
  exists woken, {| st_heap := h'; st_self := me |}. cbn [st_heap st_self].
  split; [exact Hrun|].
  split; [unfold state_ok; cbn [st_heap st_self]; by rewrite Hh', Hc'|].
  split; [done|]. split; [done|]. split; [done|]. split; [done|].
  split; [done|]. split; [done|]. split.
  - unfold SystemPrompt.wakeup_all, bind at 1, SystemPrompt.the_order at 1, gets at 1.
    cbn [st_self].
    destruct (wakeup_all_loop_general me (cs_order (SystemPrompt.chips me)) h' [] Hh' Hc')
      as (h2 & woken2 & Hrun2 & _ & _ & _ & _ & _ & _ & Hnop).
    destruct Hnop as [-> ->]; [|exact Hrun2].
    intros key Hin. destruct (cs_chips (SystemPrompt.chips me) !! key) as [l|] eqn:Hl.
    + apply ignored_false_iff. rewrite (Hall key Hin); [done|]. by rewrite Hl.
    + by apply ignored_missing.
  - unfold flat_parts. cbn [st_heap st_self]. apply omap_ext_in. intros key Hin.
    unfold rendered, chip_at. rewrite Hco.
    destruct (cs_chips (SystemPrompt.chips me) !! key) as [l|] eqn:Hl; [|done].
    fold (chip_at h (SystemPrompt.chips me) key).
    assert (Hat : chip_at h (SystemPrompt.chips me) key = chip_objs h !! l)
      by (unfold chip_at; by rewrite Hl).
    rewrite (Hall key Hin) by (by rewrite Hl).
    by destruct (chip_objs h !! l).
Qed.

Lemma X15_wakeup_all_wakes_order_witness :
  state_ok shared_ignored = true
  ∧ ∃ waked st',
      SystemPrompt.wakeup_all shared_ignored = (Return waked, st')
      ∧ SystemPrompt.wakeup_all st' = (Return [], st')
      ∧ flat_parts st' = ["A"; "A"].
Proof.
  split; [vm_compute; reflexivity|].
  destruct (X15_wakeup_all_wakes_order shared_ignored)
    as (waked & st' & Hrun & _ & _ & _ & _ & _ & _ & _ & Hagain & Hflat);
    [vm_compute; reflexivity|].
  exists waked, st'. split; [exact Hrun|]. split; [exact Hagain|].
  rewrite Hflat. vm_compute. reflexivity.
Defined.

(** X16. A call that raises leaves the composer as it was.  On a composer
    with valid references, whatever the method and the reason of the
    failure (duplicate or missing key, index out of range, a chip or a
    collection that cannot be built), the order, the chips, the splitter
    and the renderers are those from before the call, no object of the
    store was modified, and both renderings give the parts they gave. *)
Theorem X16_failed_call_changes_nothing
    (call : Call) (st st' : SystemPrompt.state) (e : Error) :
  state_ok st = true →
  run call st = (Raise e, st') →
  st_self st' = st_self st
  ∧ state_ok st' = true
  ∧ alloc_only (st_heap st) (st_heap st')
  ∧ flat_parts st' = flat_parts st
  ∧ tagged_parts st' = tagged_parts st.
Proof.
  intros Hok. destruct (state_ok_split _ Hok) as [Hh Hc].
  assert (Hsame : st_self st = st_self st ∧ state_ok st = true
                  ∧ alloc_only (st_heap st) (st_heap st)
                  ∧ flat_parts st = flat_parts st ∧ tagged_parts st = tagged_parts st).
  { split; [done|]. split; [done|]. split; [apply alloc_only_refl|done]. }
  assert (Hbuild : ∀ key content h',
            SystemPrompt.chip_of_content key content (st_heap st) = (Raise e, h') →
            let st1 := {| st_heap := h'; st_self := st_self st |} in
            st_self st1 = st_self st ∧ state_ok st1 = true
            ∧ alloc_only (st_heap st) (st_heap st1)
            ∧ flat_parts st1 = flat_parts st ∧ tagged_parts st1 = tagged_parts st).
  { intros key content h' Hrun st1.
    destruct (triple_chip_of_content key content _ _ _ Hh I Hrun) as (Hh' & Hext & _).
    destruct (failed_build_frame st h' Hok Hh' Hext) as (? & ? & ?). done. }
  destruct call as [key content|key content index|key index|key|key|key| |key|content
                   |content key]; cbn [run];
    try (intros Hrun%drop_result_raise; revert Hrun).
  - rewrite add_run. case_bool_decide; [by intros [= <- <-]|].
    destruct (SystemPrompt.chip_of_content key content (st_heap st))
      as [[l|e'] h'] eqn:Hchip; intros Hrun; [done|].
    injection Hrun as -> <-. by eapply Hbuild.
  - rewrite insert_run. case_bool_decide; [by intros [= <- <-]|].
    destruct (_ || _); [by intros [= <- <-]|].
    destruct (SystemPrompt.chip_of_content key content (st_heap st))
      as [[l|e'] h'] eqn:Hchip; intros Hrun; [done|].
    injection Hrun as -> <-. by eapply Hbuild.
  - rewrite move_run. repeat (case_match; try by intros [= <- <-]); done.
  - rewrite remove_run. by case_bool_decide.
  - rewrite ignore_run by done. destruct (st_map st !! key); [done|by intros [= <- <-]].
  - rewrite wakeup_run by done. destruct (st_map st !! key); [done|by intros [= <- <-]].
  - intros Hrun. destruct (wakeup_all_returns st Hok) as (waked & st1 & Hret).
    by rewrite Hret in Hrun.
  - rewrite toggle_run by done.
    destruct (ignore_at (st_heap st) (st_chips st) key); [done|by intros [= <- <-]].
  - rewrite replace_chips_run.
    destruct (SystemPrompt.chips_of_content content (st_heap st))
      as [[cs|e'] h'] eqn:Hbuilt; intros Hrun; [done|].
    injection Hrun as -> <-.
    assert (Ht : trusted (st_heap st) content = true).
    { destruct content; try done; by unfold SystemPrompt.chips_of_content in Hbuilt. }
    destruct (triple_chips_of_content content _ _ _ Hh Ht Hbuilt) as (Hh' & Hext & _).
    destruct (failed_build_frame st h' Hok Hh' Hext) as (? & ? & ?). done.
  - rewrite update_run.
    destruct (SystemPrompt.chip_of_content key content (st_heap st))
      as [[l|e'] h'] eqn:Hchip; intros Hrun; [done|].
    injection Hrun as -> <-. by eapply Hbuild.
Qed.

Lemma X16_failed_call_changes_nothing_witness :
  state_ok sample_state = true
  ∧ ∃ st', run (CallAdd "z" (VDict (mkPayload None None None []))) sample_state
           = (Raise SchemaError, st')
           ∧ st_self st' = st_self sample_state
           ∧ flat_parts st' = flat_parts sample_state.
Proof.
  split; [reflexivity|].
  set (call := CallAdd "z" (VDict (mkPayload None None None []))).
  assert (Hrun : run call sample_state = (Raise SchemaError, (run call sample_state).2))
    by (vm_compute; reflexivity).
  destruct (X16_failed_call_changes_nothing call sample_state _ SchemaError eq_refl Hrun)
    as (Hself & _ & _ & Hflat & _).
  exists (run call sample_state).2. split; [exact Hrun|]. split; [exact Hself|exact Hflat].
Defined.

(** X17. No method of the mutation API touches the rendering functions
    given at construction, and only [replace_chips] can change the
    splitter: after any other call, returned or raised, flat text is
    joined with the splitter the collection had. *)
Theorem X17_calls_keep_settings
    (call : Call) (st st' : SystemPrompt.state) (r : Outcome unit) :
  run call st = (r, st') →
  SystemPrompt.to_str (st_self st') = SystemPrompt.to_str (st_self st)
  ∧ SystemPrompt.to_xml (st_self st') = SystemPrompt.to_xml (st_self st)
  ∧ (replaces call = false → cs_splitter (st_chips st') = cs_splitter (st_chips st)).
Proof.
  assert (Hshape : ∀ st1, same_shape st st1 →
            SystemPrompt.to_str (st_self st1) = SystemPrompt.to_str (st_self st)
            ∧ SystemPrompt.to_xml (st_self st1) = SystemPrompt.to_xml (st_self st)
            ∧ (true = false ∨ cs_splitter (st_chips st1) = cs_splitter (st_chips st))).
  { intros st1 (-> & _). auto. }
  destruct call as [key content|key content index|key index|key|key|key| |key|content
                   |content key]; cbn [run replaces];
    try (intros [r0 Hrun]%drop_result_run; revert Hrun).
  - rewrite add_run. repeat case_match; by intros [= <- <-].
  - rewrite insert_run. repeat case_match; by intros [= <- <-].
  - rewrite move_run. repeat case_match; by intros [= <- <-].
  - rewrite remove_run. repeat case_match; by intros [= <- <-].
  - intros Hrun%ignore_shape. destruct (Hshape _ Hrun) as (? & ? & [?|?]); done.
  - intros Hrun%wakeup_shape. destruct (Hshape _ Hrun) as (? & ? & [?|?]); done.
  - intros Hrun%wakeup_all_shape. destruct (Hshape _ Hrun) as (? & ? & [?|?]); done.
  - intros Hrun%toggle_shape. destruct (Hshape _ Hrun) as (? & ? & [?|?]); done.
  - rewrite replace_chips_run. repeat case_match; by intros [= <- <-].
  - rewrite update_run. repeat case_match; by intros [= <- <-].
Qed.

Lemma X17_calls_keep_settings_witness :
  ∃ st', run (CallUpdate (VStr "A2") "a") overridden_state = (Return tt, st')
         ∧ replaces (CallUpdate (VStr "A2") "a") = false
         ∧ SystemPrompt.to_str (st_self st') = SystemPrompt.to_str (st_self overridden_state)
         ∧ cs_splitter (st_chips st') = cs_splitter (st_chips overridden_state).
Proof.
  set (call := CallUpdate (VStr "A2") "a").
  assert (Hrun : run call overridden_state = (Return tt, (run call overridden_state).2))
    by (vm_compute; reflexivity).
  destruct (X17_calls_keep_settings call overridden_state _ _ Hrun) as (Hs & _ & Hsp).
  exists (run call overridden_state).2. split; [exact Hrun|]. split; [reflexivity|].
  split; [exact Hs|exact (Hsp eq_refl)].
Defined.

(** X18. Order and chips stay in step.  Say a collection is in step when
    [order] lists each key once and lists exactly the keys that have a
    chip.  Every method that builds the collection chip by chip or flag
    by flag ([add], [insert], [move], [remove], [ignore], [wakeup],
    [wakeup_all], [toggle], [update]) and [replace_chips] with a string
    keeps a collection in step, whether the call returns or raises; and
    the collection built from a string is in step.  Only a dict or a
    collection handed over whole can bring in an [order] that disagrees
    with the chips. *)
Theorem X18_order_and_chips_in_step
    (call : Call) (st st' : SystemPrompt.state) (r : Outcome unit) :
  in_sync (st_chips st) = true → hands_over call = false →
  run call st = (r, st') →
  in_sync (st_chips st') = true.
Proof.
  intros Hsync Hcall.
  assert (Hshape : ∀ st1, same_shape st st1 → in_sync (st_chips st1) = true).
  { by intros st1 (-> & _). }
  pose proof Hsync as [Hnd Hiff]%in_sync_spec.
  assert (Hstore : ∀ key l o' h',
            o' ≡ₚ (if bool_decide (key ∈ st_order st) then st_order st
                   else key :: st_order st) →
            in_sync (st_chips (updated h' (<[key := l]> (st_map st)) o' st)) = true).
  { intros key l o' h' Hperm. cbn [updated st_self SystemPrompt.chips].
    apply (in_sync_stored (st_order st)); [|done]. by destruct (st_chips st). }
  assert (Hmissing : ∀ key, ¬ is_Some (st_map st !! key) →
            bool_decide (key ∈ st_order st) = false).
  { intros key Hkey. apply bool_decide_eq_false. by rewrite Hiff. }
  destruct call as [key content|key content index|key index|key|key|key| |key|content
                   |content key]; cbn [run];
    try (intros [r0 Hrun]%drop_result_run; revert Hrun).
  - rewrite add_run. case_bool_decide as Hkey; [by intros [= <- <-]|].
    destruct (SystemPrompt.chip_of_content key content (st_heap st)) as [[l|e'] h'];
      [|by intros [= <- <-]].
    intros [= <- <-]. apply Hstore. rewrite (Hmissing key Hkey).
    assert (list_contains key (st_order st) = false) as ->.
    { apply list_contains_not_elem_of. by rewrite Hiff. }
    by rewrite Permutation_app_comm.
  - rewrite insert_run. case_bool_decide as Hkey; [by intros [= <- <-]|].
    destruct (_ || _); [by intros [= <- <-]|].
    destruct (SystemPrompt.chip_of_content key content (st_heap st)) as [[l|e'] h'];
      [|by intros [= <- <-]].
    intros [= <- <-]. apply Hstore. rewrite (Hmissing key Hkey).
    apply list_insert_at_perm.
  - rewrite move_run. case_bool_decide as Hkey; cbn [negb]; [|by intros [= <- <-]].
    destruct (list_contains key (st_order st)) eqn:Hin; cbn [negb];
      [|by intros [= <- <-]].
    destruct (_ || _); [by intros [= <- <-]|].
    destruct (list_remove_first key (st_order st)) as [o'|] eqn:Ho';
      intros [= <- <-]; [|done].
    apply in_sync_spec. cbn [updated st_self SystemPrompt.chips cs_order cs_chips].
    assert (Hperm : list_insert_at index key o' ≡ₚ st_order st).
    { by rewrite list_insert_at_perm, (list_remove_first_perm _ _ _ Ho'). }
    split; [by rewrite Hperm|]. intros k. by rewrite Hperm.
  - rewrite remove_run. case_bool_decide as Hkey; intros [= <- <-]; [|done].
    apply in_sync_spec. cbn [updated st_self SystemPrompt.chips cs_order cs_chips].
    split; [by apply NoDup_filter_bool|]. intros k.
    rewrite elem_of_filter_bool, lookup_delete_is_Some, Hiff, negb_true_iff.
    rewrite String.eqb_neq. split; intros [? ?]; split; done.
  - intros Hrun%ignore_shape. by apply Hshape.
  - intros Hrun%wakeup_shape. by apply Hshape.
  - intros Hrun%wakeup_all_shape. by apply Hshape.
  - intros Hrun%toggle_shape. by apply Hshape.
  - destruct content as [s|d|cs|]; try done;
      rewrite replace_chips_run; unfold SystemPrompt.chips_of_content.
    + rewrite chips_default_run. intros [= <- <-]. cbn [st_self SystemPrompt.chips].
      apply in_sync_spec. cbn [default_chips cs_order cs_chips].
      split; [apply NoDup_singleton|]. intros k.
      rewrite list_elem_of_singleton, lookup_singleton_is_Some. split; done.
    + by intros [= <- <-].
  - rewrite update_run.
    destruct (SystemPrompt.chip_of_content key content (st_heap st)) as [[l|e'] h'];
      [|by intros [= <- <-]].
    intros [= <- <-]. apply Hstore.
    destruct (list_contains key (st_order st)) eqn:Hin.
    + apply list_contains_elem_of in Hin. by rewrite bool_decide_eq_true_2.
    + apply list_contains_not_elem_of in Hin. rewrite bool_decide_eq_false_2 by done.
      by rewrite Permutation_app_comm.
Qed.

Lemma X18_order_and_chips_in_step_witness :
  in_sync (st_chips scenario_built) = true
  ∧ hands_over (CallInsert "x" (VStr "X") 1) = false
  ∧ ∃ st', run (CallInsert "x" (VStr "X") 1) scenario_built = (Return tt, st')
           ∧ in_sync (st_chips st') = true.
Proof.
  set (call := CallInsert "x" (VStr "X") 1).
  assert (Hsync : in_sync (st_chips scenario_built) = true) by (vm_compute; reflexivity).
  assert (Hrun : run call scenario_built = (Return tt, (run call scenario_built).2))
    by (vm_compute; reflexivity).
  split; [exact Hsync|]. split; [reflexivity|].
  exists (run call scenario_built).2. split; [exact Hrun|].
  exact (X18_order_and_chips_in_step call scenario_built _ _ Hsync eq_refl Hrun).
Defined.

(** X19. [get_chips] returns a collection of its own.  On a composer with
    valid references it returns, and changes neither the composer nor any
    object there was: the copy has the order, the splitter and the keys
    of the original, under each key a new chip object with the same name
    and content and a new metadata object with the same flag, so it
    renders the same flat and tagged text; two keys share a metadata
    object in the copy exactly when they do in the original.  Changing a
    flag through the copy ([ignore], [wakeup], [toggle] on a composer
    built around it) leaves what every key of the original renders as it
    was. *)
Theorem X19_get_chips_is_detached (st : SystemPrompt.state) :
  state_ok st = true →
  ∃ copy st',
    SystemPrompt.get_chips st = (Return copy, st')
    ∧ st_self st' = st_self st
    ∧ alloc_only (st_heap st) (st_heap st')
    ∧ state_ok (holding copy (st_heap st') st) = true
    ∧ cs_order copy = st_order st ∧ cs_splitter copy = cs_splitter (st_chips st)
    ∧ (∀ key, is_Some (cs_chips copy !! key) ↔ is_Some (st_map st !! key))
    ∧ (∀ key l, cs_chips copy !! key = Some l → length (chip_objs (st_heap st)) ≤ l)
    ∧ (∀ key,
         chip_name <$> chip_at (st_heap st') copy key
         = chip_name <$> chip_at (st_heap st) (st_chips st) key
         ∧ chip_content <$> chip_at (st_heap st') copy key
           = chip_content <$> chip_at (st_heap st) (st_chips st) key
         ∧ ignore_at (st_heap st') copy key = ignore_at (st_heap st) (st_chips st) key)
    ∧ (∀ k1 k2, is_Some (st_map st !! k1) → is_Some (st_map st !! k2) →
         meta_at (st_heap st') copy k1 = meta_at (st_heap st') copy k2
         ↔ meta_at (st_heap st) (st_chips st) k1 = meta_at (st_heap st) (st_chips st) k2)
    ∧ flat_parts (holding copy (st_heap st') st) = flat_parts st
    ∧ tagged_parts (holding copy (st_heap st') st) = tagged_parts st
    ∧ (∀ key r st2,
         SystemPrompt.ignore key (holding copy (st_heap st') st) = (r, st2)
         ∨ SystemPrompt.wakeup key (holding copy (st_heap st') st) = (r, st2)
         ∨ SystemPrompt.toggle key (holding copy (st_heap st') st) = (r, st2) →
         ∀ k, rendered (st_heap st2) (st_chips st) k
              = rendered (st_heap st) (st_chips st) k).
Proof.
  intros Hok. destruct (state_ok_split _ Hok) as [Hh Hc].
  destruct (model_copy_deep_spec _ _ Hh Hc)
    as (copy & h' & memo & Hrun & Hcopies & Horder & Hsplit & Hnone & Hsome).
  assert (Hat := λ key, copies_chip_at _ _ _ _ _ key Hcopies Hnone Hsome).
  pose proof Hcopies as (Hh' & Hext & Hmeta & Hinj & Hchip).
  exists copy, {| st_heap := h'; st_self := st_self st |}.
  cbn [st_heap st_self].
  assert (Hc' : chips_ok h' copy = true).
  { apply chips_ok_intro. intros key l' Hl'. specialize (Hat key).
    destruct (st_map st !! key) as [l|] eqn:Hl.
    - destruct Hat as (l1 & c & c' & m & Hl1 & _ & _ & Hc1 & _).
      unfold chip_at in Hc1. rewrite Hl' in Hc1. by apply lookup_lt_Some in Hc1.
    - by rewrite (Hnone key Hl) in Hl'. }
  assert (Hokc : state_ok (holding copy h' st) = true).
  { unfold state_ok, holding. cbn [st_heap st_self SystemPrompt.chips]. by rewrite Hh', Hc'. }
  assert (Hfields : ∀ key,
            chip_name <$> chip_at h' copy key
            = chip_name <$> chip_at (st_heap st) (st_chips st) key
            ∧ chip_content <$> chip_at h' copy key
              = chip_content <$> chip_at (st_heap st) (st_chips st) key
            ∧ ignore_at h' copy key = ignore_at (st_heap st) (st_chips st) key).
  { intros key. specialize (Hat key). unfold ignore_at.
    destruct (st_map st !! key) as [l|].
    - destruct Hat as (l' & c & c' & m & _ & _ & -> & -> & Hn & Hco & _ & _ & Hm & Hm').
      cbn. by rewrite Hn, Hco, Hm, Hm'.
    - by destruct Hat as [-> ->]. }
  assert (Hrendered : ∀ key, rendered h' copy key
                             = rendered (st_heap st) (st_chips st) key).
  { intros key. destruct (Hfields key) as (_ & Hco & Hig). unfold rendered. rewrite Hig.
    destruct (chip_at h' copy key), (chip_at (st_heap st) (st_chips st) key);
      cbn in Hco; simplify_eq; try done. by rewrite Hco. }
  assert (Hframe : ∀ k, rendered h' (st_chips st) k
                        = rendered (st_heap st) (st_chips st) k).
  { intros k. by apply rendered_frame. }
  assert (Hflag : ∀ key b k,
            rendered (st_heap (flagged key b (holding copy h' st))) (st_chips st) k
            = rendered (st_heap st) (st_chips st) k).
  { intros key b k. rewrite <- Hframe. unfold flagged, holding.
    cbn [st_heap st_self SystemPrompt.chips].
    destruct (chip_at h' copy key) as [c'|] eqn:Hc1; [|done].
    destruct (meta_objs h' !! chip_metadata c') as [m'|] eqn:Hm1; [|done].
    cbn [st_heap]. unfold rendered.
    rewrite assigned_chip_at, assigned_ignore_at by done.
    rewrite bool_decide_eq_false_2; [done|].
    unfold meta_at. rewrite (chip_at_frame (st_heap st) h' (st_chips st)) by done.
    destruct (chip_at (st_heap st) (st_chips st) k) as [c|] eqn:Hck; [|done].
    cbn. intros Heq. injection Heq as Heq.
    assert (chip_metadata c < length (meta_objs (st_heap st))).
    { unfold chip_at in Hck. destruct (st_map st !! k); [|done].
      eauto using heap_ok_lookup. }
    assert (length (meta_objs (st_heap st)) ≤ chip_metadata c'); [|lia].
    specialize (Hat key). destruct (st_map st !! key) as [l|].
    - destruct Hat as (l' & c0 & c0' & m & _ & _ & _ & Hc0' & _ & _ & _ & Hge & _).
      rewrite Hc1 in Hc0'. by injection Hc0' as <-.
    - destruct Hat as [_ Hnone']. by rewrite Hc1 in Hnone'. }
  split. { unfold SystemPrompt.get_chips, bind, gets, SystemPrompt.on_heap.
           cbn [st_heap st_self]. by rewrite Hrun. }
  split; [done|]. split; [done|]. split; [done|]. split; [done|]. split; [done|].
  split.
  { intros key. specialize (Hat key). destruct (st_map st !! key) as [l|] eqn:Hl.
    - destruct Hat as (l' & c & c' & m & -> & _). split; eauto.
    - rewrite (Hnone key Hl). done. }
  split.
  { intros key l' Hl'. specialize (Hat key). destruct (st_map st !! key) as [l|] eqn:Hl.
    - destruct Hat as (l1 & c & c' & m & Hl1 & Hge & _). rewrite Hl' in Hl1.
      by injection Hl1 as <-.
    - by rewrite (Hnone key Hl) in Hl'. }
  split; [exact Hfields|]. split.
  { intros k1 k2 [l1 Hl1] [l2 Hl2]. pose proof (Hat k1) as H1. pose proof (Hat k2) as H2.
    rewrite Hl1 in H1. rewrite Hl2 in H2.
    destruct H1 as (? & c1 & c1' & ? & _ & _ & Hc1 & Hc1' & _ & _ & Hm1 & _).
    destruct H2 as (? & c2 & c2' & ? & _ & _ & Hc2 & Hc2' & _ & _ & Hm2 & _).
    unfold meta_at. rewrite Hc1, Hc1', Hc2, Hc2'. cbn. split; intros Heq.
    - injection Heq as Heq. rewrite Heq in Hm1. f_equal. eauto.
    - injection Heq as Heq. rewrite Heq in Hm1. rewrite Hm1 in Hm2. congruence. }
  split.
  { unfold flat_parts, holding. cbn [st_heap st_self SystemPrompt.chips].
    rewrite Horder. by apply omap_ext_in. }
  split.
  { unfold tagged_parts, holding. cbn [st_heap st_self SystemPrompt.chips].
    rewrite Horder. apply omap_ext_in. intros k _. unfold tagged. by rewrite Hrendered. }
  intros key r st2 [Hcall|[Hcall|Hcall]] k; revert Hcall.
  - rewrite ignore_run by done. destruct (st_map _ !! key); intros [= _ <-];
      [apply Hflag|apply Hframe].
  - rewrite wakeup_run by done. destruct (st_map _ !! key); intros [= _ <-];
      [apply Hflag|apply Hframe].
  - rewrite toggle_run by done. destruct (ignore_at _ _ key); intros [= _ <-];
      [apply Hflag|apply Hframe].
Qed.

Lemma X19_get_chips_is_detached_witness :
  state_ok shared_ignored = true
  ∧ ∃ copy st',
      SystemPrompt.get_chips shared_ignored = (Return copy, st')
      ∧ flat_parts (holding copy (st_heap st') shared_ignored) = flat_parts shared_ignored
      ∧ (meta_at (st_heap st') copy "a" = meta_at (st_heap st') copy "b").
Proof.
  assert (Hok : state_ok shared_ignored = true) by (vm_compute; reflexivity).
  split; [exact Hok|].
  destruct (X19_get_chips_is_detached shared_ignored Hok)
    as (copy & st' & Hrun & _ & _ & _ & _ & _ & _ & _ & _ & Hshare & Hflat & _).
  exists copy, st'. split; [exact Hrun|]. split; [exact Hflat|].
  apply Hshare; [by eexists|by eexists|]. vm_compute. reflexivity.
Defined.

(** X20. [add] is [insert] at the end.  For a key that is not in [order],
    [add(key, content)] and [insert(key, content, len(order))] give the
    same result and the same composer, for every content: the same chip
    when they return, the same exception when they raise. *)
Theorem X20_add_is_insert_at_end
    (st : SystemPrompt.state) (key : string) (content : ChipValue) :
  key ∉ st_order st →
  SystemPrompt.add key content st
  = SystemPrompt.insert key content (Z.of_nat (length (st_order st))) st.
Proof.
  intros Hout. rewrite add_run, insert_run.
  apply list_contains_not_elem_of in Hout. rewrite Hout.
  assert ((Z.of_nat (length (st_order st)) <? 0)%Z
          || (Z.of_nat (length (st_order st)) <? Z.of_nat (length (st_order st)))%Z
          = false) as ->.
  { apply orb_false_iff. split; apply Z.ltb_ge; lia. }
  by rewrite list_insert_at_end.
Qed.

Lemma X20_add_is_insert_at_end_witness :
  ("z" ∉ st_order sample_state)
  ∧ SystemPrompt.add "z" (VStr "Z") sample_state
    = SystemPrompt.insert "z" (VStr "Z") 3 sample_state.
Proof.
  assert (Ho : "z" ∉ st_order sample_state) by (by apply list_contains_not_elem_of).
  split; [exact Ho|]. exact (X20_add_is_insert_at_end sample_state "z" (VStr "Z") Ho).
Defined.

(** X21. The last position wins.  When [order] lists each key once, two
    moves of a key in a row end where the second alone would; and
    inserting a key at one index, then moving it to another, ends where
    inserting it at the second index would.  Also a key moved away and
    back to the index it stood at leaves the composer as it was. *)
Theorem X21_last_position_wins (st : SystemPrompt.state) (key : string) (i j : Z) :
  NoDup (st_order st) →
  (is_Some (st_map st !! key) → key ∈ st_order st →
   (0 ≤ i < Z.of_nat (length (st_order st)))%Z →
   (0 ≤ j < Z.of_nat (length (st_order st)))%Z →
   ∃ st1,
     SystemPrompt.move key i st = (Return tt, st1)
     ∧ SystemPrompt.move key j st1 = SystemPrompt.move key j st
     ∧ (st_order st !! Z.to_nat j = Some key →
        SystemPrompt.move key j st1 = (Return tt, st)))
  ∧ (∀ content chip st1,
       key ∉ st_order st →
       (0 ≤ j ≤ Z.of_nat (length (st_order st)))%Z →
       SystemPrompt.insert key content i st = (Return chip, st1) →
       ∃ st2,
         SystemPrompt.move key j st1 = (Return tt, st2)
         ∧ SystemPrompt.insert key content j st = (Return chip, st2)).
Proof.
  intros Hnd. split.
  - intros Hkey Hin Hi Hj.
    assert (Hmove : ∀ index o h,
              (0 ≤ index < Z.of_nat (length (st_order st)))%Z →
              length o = length (st_order st) → key ∈ o →
              SystemPrompt.move key index (updated h (st_map st) o st)
              = match list_remove_first key o with
                | Some o' =>
                    (Return tt, updated h (st_map st) (list_insert_at index key o') st)
                | None => (Raise ListRemoveError, updated h (st_map st) o st)
                end).
    { intros index o h Hr Hlen Ho. rewrite move_run.
      cbn [updated st_heap st_self SystemPrompt.chips cs_chips cs_order cs_splitter
           SystemPrompt.to_str SystemPrompt.to_xml].
      rewrite bool_decide_eq_true_2 by done. cbn [negb].
      apply list_contains_elem_of in Ho as ->. cbn [negb]. rewrite Hlen.
      assert ((index <? 0)%Z || (Z.of_nat (length (st_order st)) <=? index)%Z = false)
        as ->; [|done].
      apply orb_false_iff. split; [apply Z.ltb_ge|apply Z.leb_gt]; lia. }
    assert (Hst : ∀ index,
              (0 ≤ index < Z.of_nat (length (st_order st)))%Z →
              SystemPrompt.move key index st
              = match list_remove_first key (st_order st) with
                | Some o' =>
                    (Return tt,
                     updated (st_heap st) (st_map st) (list_insert_at index key o') st)
                | None => (Raise ListRemoveError, st)
                end).
    { intros index Hr. pose proof (Hmove index (st_order st) (st_heap st) Hr eq_refl Hin)
        as Hrun. by rewrite updated_same in Hrun. }
    rewrite !Hst by done.
    apply list_contains_elem_of in Hin as Hc.
    destruct (list_remove_first_contains _ _ Hc) as [o' Ho']. rewrite Ho'.
    pose proof (list_remove_first_length _ _ _ Ho') as Hlen.
    pose proof (list_remove_first_NoDup _ _ _ Hnd Ho') as Hout.
    eexists. split; [reflexivity|].
    assert (Hagain : SystemPrompt.move key j
                       (updated (st_heap st) (st_map st) (list_insert_at i key o') st)
                     = (Return tt,
                        updated (st_heap st) (st_map st) (list_insert_at j key o') st)).
    { rewrite Hmove; [|done| |].
      - by rewrite list_remove_first_insert_at.
      - rewrite list_insert_at_length. lia.
      - rewrite list_insert_at_perm. by left. }
    split; [exact Hagain|].
    intros Hat. rewrite Hagain. f_equal.
    assert (Hfirst : key ∉ take (Z.to_nat j) (st_order st)).
    { intros (n & Hn & Hlt)%elem_of_take.
      pose proof (NoDup_lookup _ _ _ _ Hnd Hn Hat). lia. }
    rewrite (list_remove_first_at _ _ _ Hat Hfirst) in Ho'. injection Ho' as <-.
    rewrite <- (Z2Nat.id j) at 1 by lia.
    rewrite (list_insert_at_back _ _ _ Hat). apply updated_same.
  - intros content chip st1 Hout Hj. rewrite !insert_run.
    case_bool_decide as Hkey; [done|].
    destruct ((i <? 0)%Z || (Z.of_nat (length (st_order st)) <? i)%Z) eqn:Hi; [done|].
    assert ((j <? 0)%Z || (Z.of_nat (length (st_order st)) <? j)%Z = false) as ->.
    { apply orb_false_iff. split; apply Z.ltb_ge; lia. }
    destruct (SystemPrompt.chip_of_content key content (st_heap st)) as [[l|e] h'];
      intros Hrun; [|done].
    injection Hrun as <- <-. eexists. split; [|reflexivity].
    rewrite move_run.
    cbn [updated st_heap st_self SystemPrompt.chips cs_chips cs_order cs_splitter
         SystemPrompt.to_str SystemPrompt.to_xml].
    rewrite lookup_insert_eq, bool_decide_eq_true_2 by done. cbn [negb].
    assert (list_contains key (list_insert_at i key (st_order st)) = true) as ->.
    { apply list_contains_elem_of. rewrite list_insert_at_perm. by left. }
    cbn [negb]. rewrite list_insert_at_length.
    assert ((j <? 0)%Z || (Z.of_nat (S (length (st_order st))) <=? j)%Z = false) as ->.
    { apply orb_false_iff. split; [apply Z.ltb_ge|apply Z.leb_gt]; lia. }
    by rewrite list_remove_first_insert_at.
Qed.

Lemma X21_last_position_wins_witness :
  NoDup (st_order scenario_built)
  ∧ is_Some (st_map scenario_built !! "a") ∧ ("a" ∈ st_order scenario_built)
  ∧ ∃ st1, SystemPrompt.move "a" 1 scenario_built = (Return tt, st1)
           ∧ SystemPrompt.move "a" 0 st1 = (Return tt, scenario_built).
Proof.
  assert (Hnd : NoDup (st_order scenario_built)).
  { change (NoDup ["a"; "b"]). apply NoDup_cons.
    split; [by apply list_contains_not_elem_of|apply NoDup_singleton]. }
  assert (Ha : is_Some (st_map scenario_built !! "a")) by (by eexists).
  assert (Ho : "a" ∈ st_order scenario_built) by (by apply list_contains_elem_of).
  split; [exact Hnd|]. split; [exact Ha|]. split; [exact Ho|].
  destruct (X21_last_position_wins scenario_built "a" 1 0 Hnd) as [Hmoves _].
  destruct (Hmoves Ha Ho ltac:(cbn; lia) ltac:(cbn; lia)) as (st1 & Hrun & _ & Hback).
  exists st1. split; [exact Hrun|]. exact (Hback eq_refl).
Defined.

